(** * Synthetic agents: a shallow embedding of the scenario orchestrator

    The repository has two asyncio services.  [tool_service/app.py] is the
    simulated tool backend; [agent_app/app.py] is the orchestrator that
    drives seven scenario topologies and emits OpenTelemetry spans.

    Conventions of the embedding:
    - Python [int] is [Z]; Python [float] is idealised as a rational [Q]
      (durations are compared with [==]); [str] is [string]; a [dict] is a
      [gmap] with string keys.
    - asyncio is cooperative: the code between two [await]s runs without
      interruption.  Each coroutine is therefore a small transition system
      whose transitions are exactly those atomic segments; the event loop is
      the interleaving of the enabled transitions.
    - What the environment decides is carried by the label of a step: which
      task the loop resumes and the value of each [random.random()] call.
      The clock is a sequence of readings [now 0], [now 1], ... consumed one
      per timestamp taken. *)

From Stdlib Require Import ZArith QArith Qminmax Qabs Lia Lqa String.
From stdpp Require Import base option list gmap strings pretty.

Local Open Scope string_scope.
Local Open Scope list_scope.
Local Open Scope Z_scope.

(** ** Values *)

(** JSON values of the bodies the two services exchange. *)
Inductive jval :=
| JStr (s : string)
| JInt (z : Z)
| JBool (b : bool).

(** Values an OpenTelemetry attribute can hold here. *)
Inductive attr_value :=
| AStr (s : string)
| AInt (z : Z)
| AFloat (q : Q).

(** [random.random()] returns a float in the half-open interval [0, 1). *)
Definition valid_draw (r : Q) : bool :=
  Qle_bool 0 r && negb (Qle_bool 1 r).

(** [a < b] on floats, as a boolean. *)
Definition Qlt_bool (a b : Q) : bool := negb (Qle_bool b a).

Definition newline : string := String (Ascii.ascii_of_nat 10) EmptyString.

(** [s * n] on Python strings. *)
Fixpoint str_repeat (s : string) (n : nat) : string :=
  match n with
  | O => ""
  | S k => s +:+ str_repeat s k
  end.

(** ** The simulated tool backend ([tool_service/app.py]) *)

Module ToolService.

(** Read once from the process environment at import time. *)
Record config := Config {
  DEFAULT_DELAY_MS : Z;
  DEFAULT_ERROR_RATE : Q;
}.

(** The async generator [gen] inside [tool_call]: the closure variables
    [d] and [tool_name], and the loop index of [for i in range(chunks)]. *)
Record gen := Gen {
  gen_d : Z;
  gen_tool_name : string;
  gen_i : nat;
}.

Definition chunks : nat := 50.

(** [per = max(d / chunks, 1)], in milliseconds. *)
Definition per (d : Z) : Q :=
  Qmax (inject_Z d / inject_Z (Z.of_nat chunks))%Q 1%Q.

(** One pull on the generator: [None] is exhaustion; otherwise the
    duration handed to [asyncio.sleep] (seconds), the chunk yielded after
    it, and the advanced generator.  There is no way back to an earlier
    index. *)
Definition gen_next (g : gen) : option (Q * string * gen) :=
  if (gen_i g <? chunks)%nat then
    Some ((per (gen_d g) / 1000)%Q,
          "chunk " +:+ pretty (gen_i g) +:+ " from " +:+ gen_tool_name g +:+ newline,
          Gen (gen_d g) (gen_tool_name g) (S (gen_i g)))
  else None.

(** The consumer of a streaming response pulls until exhaustion; [fuel]
    bounds the number of pulls. *)
Fixpoint drain (fuel : nat) (g : gen) : list (Q * string) :=
  match fuel with
  | O => []
  | S k =>
      match gen_next g with
      | None => []
      | Some (s, c, g') => (s, c) :: drain k g'
      end
  end.

(** The generator after [n] pulls ([None] once it is exhausted). *)
Fixpoint pulls (n : nat) (g : gen) : option gen :=
  match n with
  | O => Some g
  | S k =>
      match gen_next g with
      | None => None
      | Some (_, _, g') => pulls k g'
      end
  end.

Inductive response :=
| HTTPException (status_code : Z) (detail : string)
| StreamingResponse (g : gen)
| JSONResponse (slept : Q) (body : gmap string jval).

(** The handler [tool_call].  [draw] is the value of its one
    [random.random()] call.  In the JSON case [slept] is the argument of
    the [asyncio.sleep] that precedes the response. *)
Definition tool_call (cfg : config) (tool_name : string)
    (delay_ms : option Z) (error_rate : option Q)
    (stream : Z) (payload_size_kb : Z) (draw : Q) : response :=
  let d := match delay_ms with None => DEFAULT_DELAY_MS cfg | Some x => x end in
  let e := match error_rate with None => DEFAULT_ERROR_RATE cfg | Some x => x end in
  if Qlt_bool draw e then
    HTTPException 503 (tool_name +:+ " unavailable")
  else if stream =? 1 then
    StreamingResponse (Gen d tool_name 0)
  else
    let response : gmap string jval :=
      {[ "tool" := JStr tool_name; "delay_ms" := JInt d; "ok" := JBool true ]} in
    JSONResponse (inject_Z d / 1000)%Q
      (if payload_size_kb >? 0
       then <["payload" := JStr (str_repeat "a" (Z.to_nat (payload_size_kb * 1024)))]> response
       else response).

(** Total of the sleeps of a drained stream, in seconds. *)
Definition total_sleep (l : list (Q * string)) : Q :=
  foldr (fun x acc => x.1 + acc)%Q 0%Q l.

End ToolService.

(** ** Executions of a labelled transition function *)

Section Executions.
Context {St Lbl : Type} (step : Lbl -> St -> option St).

(** Run a schedule, one label per resumed segment. *)
Fixpoint exec (ls : list Lbl) (s : St) : option St :=
  match ls with
  | [] => Some s
  | l :: ls' =>
      match step l s with
      | Some s' => exec ls' s'
      | None => None
      end
  end.

Inductive reachable (s0 : St) : St -> Prop :=
| reach_init : reachable s0 s0
| reach_step s l s' : reachable s0 s -> step l s = Some s' -> reachable s0 s'.

(** A state in which the event loop has nothing left to resume. *)
Definition quiescent (s : St) : Prop := forall l, step l s = None.

End Executions.

(** ** The orchestrator ([agent_app/app.py]) *)

Module AgentApp.

(** *** Spans and the tracer *)

Record span := Span {
  span_name : string;
  span_parent : option nat;
  span_attributes : gmap string attr_value;
  start_time : Z;
  end_time : option Z;
}.

Inductive task_id :=
| Main
| Worker (i : nat).

(** The arguments of one [call_tool] invocation. *)
Record tool_request := ToolRequest {
  rq_tool : string;
  rq_delay_ms : Z;
  rq_error_rate : Q;
  rq_attempt : Z;
  rq_stream : bool;
  rq_payload_size_kb : Z;
}.

(** What a run does besides spans: the awaits on the HTTP client, the
    sleeps and the semaphore operations, each tagged with the task. *)
Inductive event :=
| EvRequest (t : task_id) (rq : tool_request)
| EvResponse (t : task_id) (r : ToolService.response)
| EvSleep (t : task_id) (seconds : Q)
| EvAcquire (t : task_id)
| EvRelease (t : task_id).

(** The part of the process all tasks share: the spans started so far (a
    span's id is its position), the number of clock readings taken, and
    the event log in chronological order. *)
Record world := World {
  spans : list span;
  reads : nat;
  log : list event;
}.

Definition empty_world : world := World [] 0 [].

(** The environment of the process: the clock, the [AGENT_NAME]
    variable and the configuration of the backend behind [TOOL_BASE]. *)
Record env := Env {
  now : nat -> Z;
  AGENT_NAME : option string;
  backend : ToolService.config;
}.

Definition clock_monotone (e : env) : Prop :=
  forall n m : nat, (n <= m)%nat -> now e n <= now e m.

Definition emit (ev : event) (w : world) : world :=
  World (spans w) (reads w) (log w ++ [ev]).

Definition set_end (t : Z) (s : span) : span :=
  match end_time s with
  | Some _ => s
  | None => Span (span_name s) (span_parent s) (span_attributes s) (start_time s) (Some t)
  end.

Definition put_attribute (k : string) (v : attr_value) (s : span) : span :=
  match end_time s with
  | Some _ => s
  | None => Span (span_name s) (span_parent s) (<[k:=v]> (span_attributes s)) (start_time s) None
  end.

(** A task's context is the stack of the spans it has entered and not
    left; the head is its current span.  [with
    tracer.start_as_current_span(...)] pushes on entry and pops on exit,
    whether the body returns or raises. *)
Definition start_as_current_span (e : env) (name : string)
    (attributes : gmap string attr_value) (ctx : list nat) (w : world)
    : list nat * world :=
  let id := length (spans w) in
  (id :: ctx,
   World (spans w ++ [Span name (head ctx) attributes (now e (reads w)) None])
         (S (reads w)) (log w)).

Definition exit_span (e : env) (ctx : list nat) (w : world) : list nat * world :=
  match ctx with
  | [] => ([], w)
  | id :: rest =>
      (rest, World (alter (set_end (now e (reads w))) id (spans w)) (S (reads w)) (log w))
  end.

(** [trace.get_current_span().set_attribute(k, v)] *)
Definition set_attribute (k : string) (v : attr_value) (ctx : list nat) (w : world) : world :=
  match ctx with
  | [] => w
  | id :: _ => World (alter (put_attribute k v) id (spans w)) (reads w) (log w)
  end.

Definition _attrs (e : env) (agent_id kind : string)
    (extra : gmap string attr_value) : gmap string attr_value :=
  let agent_id :=
    match AGENT_NAME e with
    | Some prefix => if String.eqb prefix "" then agent_id else prefix +:+ ":" +:+ agent_id
    | None => agent_id
    end in
  let base : gmap string attr_value :=
    {[ "ati.agent.id" := AStr agent_id;
       "ati.span.kind" := AStr kind;
       "ati.workflow" := AStr "demo" ]} in
  extra ∪ base.

Definition span_kind (s : span) : option attr_value :=
  span_attributes s !! "ati.span.kind".

Definition has_kind (kind : string) (s : span) : bool :=
  match span_kind s with
  | Some (AStr k) => String.eqb k kind
  | _ => false
  end.

Definition is_open (s : span) : bool :=
  match end_time s with None => true | Some _ => false end.

(** *** [call_tool] *)

(** What a coroutine hands to the code awaiting it. *)
Inductive outcome :=
| Return (v : gmap string jval)
| Raise (exc : string).

Definition is_return (o : outcome) : bool :=
  match o with Return _ => true | Raise _ => false end.

(** The response of the backend to the GET that [call_tool] sends: every
    request carries [delay_ms], [error_rate] and [payload_size_kb], and
    [stream=1] only when streaming is asked for. *)
Definition backend_response (e : env) (rq : tool_request) (draw : Q)
    : ToolService.response :=
  ToolService.tool_call (backend e) (rq_tool rq)
    (Some (rq_delay_ms rq)) (Some (rq_error_rate rq))
    (if rq_stream rq then 1 else 0) (rq_payload_size_kb rq) draw.

(** First segment of [call_tool]: enter the span and send the request.
    The coroutine then waits for the response. *)
Definition call_tool_send (e : env) (t : task_id) (rq : tool_request)
    (ctx : list nat) (w : world) : list nat * world :=
  let '(ctx1, w1) :=
    start_as_current_span e "tool_call"
      (_attrs e ("worker:" +:+ rq_tool rq) "tool_call"
         {[ "ati.tool.name" := AStr (rq_tool rq);
            "ati.retry.attempt" := AInt (rq_attempt rq);
            "ati.tool.delay_ms" := AInt (rq_delay_ms rq);
            "ati.tool.error_rate" := AFloat (rq_error_rate rq);
            "ati.tool.stream" := AInt (if rq_stream rq then 1 else 0);
            "ati.tool.payload_kb" := AInt (rq_payload_size_kb rq) ]})
      ctx w in
  (ctx1, emit (EvRequest t rq) w1).

(** Second segment: [raise_for_status], then the body; the span is left
    on either path.  Reading the lines of a streamed body is folded into
    this segment. *)
Definition call_tool_recv (e : env) (t : task_id) (rq : tool_request)
    (r : ToolService.response) (ctx : list nat) (w : world)
    : outcome * (list nat * world) :=
  let res :=
    match r with
    | ToolService.HTTPException _ _ => Raise "HTTPStatusError"
    | ToolService.StreamingResponse _ =>
        if rq_stream rq
        then Return {[ "ok" := JBool true; "stream" := JBool true ]}
        else Raise "JSONDecodeError"
    | ToolService.JSONResponse _ body =>
        if rq_stream rq
        then Return {[ "ok" := JBool true; "stream" := JBool true ]}
        else Return body
    end in
  (res, exit_span e ctx (emit (EvResponse t r) w)).

(** *** [checkpoint_write] *)

(** [min(0.5, (size_kb / 1024.0) * 0.2)], in seconds. *)
Definition checkpoint_delay (size_kb : Z) : Q :=
  Qmin (1 # 2) ((inject_Z size_kb / 1024) * (1 # 5))%Q.

(** First segment: enter the span and go to sleep. *)
Definition checkpoint_write_begin (e : env) (t : task_id) (size_kb : Z)
    (agent_id : string) (ctx : list nat) (w : world) : list nat * world :=
  let '(ctx1, w1) :=
    start_as_current_span e "checkpoint"
      (_attrs e agent_id "checkpoint" {[ "ati.checkpoint.size_kb" := AInt size_kb ]})
      ctx w in
  (ctx1, emit (EvSleep t (checkpoint_delay size_kb)) w1).

(** Second segment, after the sleep: leave the span. *)
Definition checkpoint_write_end (e : env) (ctx : list nat) (w : world)
    : list nat * world :=
  exit_span e ctx w.

(** *** Labels of the scenario transition systems *)

(** The task the event loop resumes, the backend's random draw when the
    segment starts with a response, and the orchestrator's own
    [random.random()] values in the order the segment asks for them. *)
Record label := Label {
  lbl_task : task_id;
  lbl_backend : Q;
  lbl_random : list Q;
}.

(** Where the planner coroutine of a scenario stands. *)
Inductive planner_pc :=
| PStart
| PGather
| PAggregator
| PCheckpoint
| PReturned
| PRaised (exc : string).

(** A child task: its copy of the context, taken by
    [asyncio.create_task] / [asyncio.gather] when the task is made, and
    the state of its coroutine. *)
Record task (W : Type) := Task {
  t_ctx : list nat;
  t_state : W;
}.
Arguments Task {W} _ _.
Arguments t_ctx {W} _.
Arguments t_state {W} _.

(** A planner with child tasks behind [sem = asyncio.Semaphore(concurrency)]. *)
Record gated (W : Type) := Gated {
  g_pc : planner_pc;
  g_ctx : list nat;
  g_sem : Z;
  g_tasks : list (task W);
  g_world : world;
}.
Arguments Gated {W} _ _ _ _ _.
Arguments g_pc {W} _.
Arguments g_ctx {W} _.
Arguments g_sem {W} _.
Arguments g_tasks {W} _.
Arguments g_world {W} _.

(** Events of one task, and the projections the properties read. *)
Definition event_task (ev : event) : task_id :=
  match ev with
  | EvRequest t _ | EvResponse t _ | EvSleep t _ | EvAcquire t | EvRelease t => t
  end.

Definition is_request (ev : event) : bool :=
  match ev with EvRequest _ _ => true | _ => false end.
Definition is_response (ev : event) : bool :=
  match ev with EvResponse _ _ => true | _ => false end.
Definition is_acquire (ev : event) : bool :=
  match ev with EvAcquire _ => true | _ => false end.
Definition is_release (ev : event) : bool :=
  match ev with EvRelease _ => true | _ => false end.

Definition task_eqb (a b : task_id) : bool :=
  match a, b with
  | Main, Main => true
  | Worker i, Worker j => Nat.eqb i j
  | _, _ => false
  end.

Definition count_events (p : event -> bool) (l : list event) : nat :=
  length (List.filter p l).

(** Tool calls in flight: requests sent whose response has not arrived. *)
Definition in_flight (w : world) : Z :=
  Z.of_nat (count_events is_request (log w)) - Z.of_nat (count_events is_response (log w)).

(** Requests a task has sent (its attempts). *)
Definition requests_of (t : task_id) (l : list event) : list tool_request :=
  omap (fun ev => match ev with
                  | EvRequest t' rq => if task_eqb t t' then Some rq else None
                  | _ => None
                  end) l.

(** Arguments of the [asyncio.sleep]s of a task, in order. *)
Definition sleeps_of (t : task_id) (l : list event) : list Q :=
  omap (fun ev => match ev with
                  | EvSleep t' d => if task_eqb t t' then Some d else None
                  | _ => None
                  end) l.

Definition acquires_of (t : task_id) (l : list event) : nat :=
  count_events (fun ev => is_acquire ev && task_eqb t (event_task ev)) l.
Definition releases_of (t : task_id) (l : list event) : nat :=
  count_events (fun ev => is_release ev && task_eqb t (event_task ev)) l.

(** *** [asyncio.gather] over child tasks *)

Inductive gathered :=
| GPending
| GRaised (exc : string)
| GReturned.

(** The await on [asyncio.gather] of the tasks: the first exception of a child is
    propagated as soon as there is one; otherwise the await returns once
    every child has returned. *)
Fixpoint gather (rs : list (option outcome)) : gathered :=
  match rs with
  | [] => GReturned
  | r :: rs' =>
      match r, gather rs' with
      | Some (Raise exc), _ => GRaised exc
      | _, GRaised exc => GRaised exc
      | Some (Return _), GReturned => GReturned
      | _, _ => GPending
      end
  end.

(** *** [scenario_retry_storm] *)

(** The coroutine [one(i)]: not yet past [async with sem]; awaiting the
    response of [call_tool]; in [asyncio.sleep(backoff)]; finished.  The
    two middle states carry the local variables [attempt] and [backoff]. *)
Inductive retry_worker :=
| RCreated
| RCalling (attempt : Z) (backoff : Q)
| RSleeping (attempt : Z) (backoff : Q)
| RDone (r : outcome).

Definition retry_result (w : retry_worker) : option outcome :=
  match w with RDone r => Some r | _ => None end.

Section RetryStorm.
Variable e : env.
Variables fanout concurrency delay_ms : Z.
Variable error_rate : Q.
Variable max_retries : Z.

Definition retry_request (i : nat) (attempt : Z) : tool_request :=
  ToolRequest ("r" +:+ pretty (Z.of_nat i mod 5)) delay_ms error_rate attempt false 0.

Definition retry_init (ctx : list nat) (w : world) : gated retry_worker :=
  Gated PStart ctx 0 [] w.

Definition retry_planner_step (s : gated retry_worker) : option (gated retry_worker) :=
  match g_pc s with
  | PStart =>
      let '(ctx1, w1) :=
        start_as_current_span e "planner"
          (_attrs e "planner:v1" "planner"
             {[ "ati.fanout" := AInt fanout;
                "ati.concurrency" := AInt concurrency;
                "ati.retry.max" := AInt max_retries ]})
          (g_ctx s) (g_world s) in
      if concurrency <? 0 then
        (* asyncio.Semaphore raises ValueError on a negative value *)
        let '(ctx2, w2) := exit_span e ctx1 w1 in
        Some (Gated (PRaised "ValueError") ctx2 0 [] w2)
      else
        Some (Gated PGather ctx1 concurrency
                (replicate (Z.to_nat fanout) (Task ctx1 RCreated)) w1)
  | PGather =>
      match gather (map (fun t => retry_result (t_state t)) (g_tasks s)) with
      | GPending => None
      | GRaised exc =>
          let '(ctx1, w1) := exit_span e (g_ctx s) (g_world s) in
          Some (Gated (PRaised exc) ctx1 (g_sem s) (g_tasks s) w1)
      | GReturned =>
          let '(ctx1, w1) :=
            checkpoint_write_begin e Main 256 "planner:v1" (g_ctx s) (g_world s) in
          Some (Gated PCheckpoint ctx1 (g_sem s) (g_tasks s) w1)
      end
  | PCheckpoint =>
      let '(ctx1, w1) := checkpoint_write_end e (g_ctx s) (g_world s) in
      let '(ctx2, w2) := exit_span e ctx1 w1 in
      Some (Gated PReturned ctx2 (g_sem s) (g_tasks s) w2)
  | PAggregator | PReturned | PRaised _ => None
  end.

Definition retry_worker_step (i : nat) (draw : Q) (s : gated retry_worker)
    : option (gated retry_worker) :=
  match g_tasks s !! i with
  | None => None
  | Some (Task ctx st) =>
      match st with
      | RCreated =>
          (* async with sem: enabled only while the semaphore is not exhausted *)
          if 0 <? g_sem s then
            let w1 := emit (EvAcquire (Worker i)) (g_world s) in
            let attempt := 0 in
            let backoff := (2 # 100)%Q in
            let '(ctx1, w2) := call_tool_send e (Worker i) (retry_request i attempt) ctx w1 in
            Some (Gated (g_pc s) (g_ctx s) (g_sem s - 1)
                    (<[i := Task ctx1 (RCalling attempt backoff)]> (g_tasks s)) w2)
          else None
      | RCalling attempt backoff =>
          if valid_draw draw then
            let rq := retry_request i attempt in
            let '(res, (ctx1, w1)) :=
              call_tool_recv e (Worker i) rq (backend_response e rq draw) ctx (g_world s) in
            match res with
            | Return v =>
                Some (Gated (g_pc s) (g_ctx s) (g_sem s + 1)
                        (<[i := Task ctx1 (RDone (Return v))]> (g_tasks s))
                        (emit (EvRelease (Worker i)) w1))
            | Raise _ =>
                let attempt := attempt + 1 in
                if attempt >? max_retries then
                  Some (Gated (g_pc s) (g_ctx s) (g_sem s + 1)
                          (<[i := Task ctx1 (RDone (Return {[ "ok" := JBool false ]}))]> (g_tasks s))
                          (emit (EvRelease (Worker i)) w1))
                else
                  Some (Gated (g_pc s) (g_ctx s) (g_sem s)
                          (<[i := Task ctx1 (RSleeping attempt backoff)]> (g_tasks s))
                          (emit (EvSleep (Worker i) backoff) w1))
            end
          else None
      | RSleeping attempt backoff =>
          let backoff := Qmin (backoff * 2) (1 # 2) in
          let '(ctx1, w1) := call_tool_send e (Worker i) (retry_request i attempt) ctx (g_world s) in
          Some (Gated (g_pc s) (g_ctx s) (g_sem s)
                  (<[i := Task ctx1 (RCalling attempt backoff)]> (g_tasks s)) w1)
      | RDone _ => None
      end
  end.

Definition retry_step (l : label) (s : gated retry_worker) : option (gated retry_worker) :=
  match lbl_task l with
  | Main => retry_planner_step s
  | Worker i => retry_worker_step i (lbl_backend l) s
  end.

End RetryStorm.

(** *** [scenario_fanout] *)

(** A coroutine that makes one tool call inside one span: [one(i)] of the
    fan-out and [branch(i)] of the DAG. *)
Inductive call_worker :=
| CCreated
| CCalling
| CDone (r : outcome).

Definition call_result (w : call_worker) : option outcome :=
  match w with CDone r => Some r | _ => None end.

Section Fanout.
Variable e : env.
Variables concurrency fanout delay_ms : Z.

Definition fanout_request (i : nat) : tool_request :=
  ToolRequest ("t" +:+ pretty (Z.of_nat i mod 5)) delay_ms 0 0 false 0.

Definition fanout_init (ctx : list nat) (w : world) : gated call_worker :=
  Gated PStart ctx 0 [] w.

Definition fanout_planner_step (s : gated call_worker) : option (gated call_worker) :=
  match g_pc s with
  | PStart =>
      let '(ctx1, w1) :=
        start_as_current_span e "planner"
          (_attrs e "planner:v1" "planner"
             {[ "ati.fanout" := AInt fanout;
                "ati.concurrency" := AInt concurrency ]})
          (g_ctx s) (g_world s) in
      if concurrency <? 0 then
        (* asyncio.Semaphore raises ValueError on a negative value *)
        let '(ctx2, w2) := exit_span e ctx1 w1 in
        Some (Gated (PRaised "ValueError") ctx2 0 [] w2)
      else
        Some (Gated PGather ctx1 concurrency
                (replicate (Z.to_nat fanout) (Task ctx1 CCreated)) w1)
  | PGather =>
      match gather (map (fun t => call_result (t_state t)) (g_tasks s)) with
      | GPending => None
      | GRaised exc =>
          let '(ctx1, w1) := exit_span e (g_ctx s) (g_world s) in
          Some (Gated (PRaised exc) ctx1 (g_sem s) (g_tasks s) w1)
      | GReturned =>
          let '(ctx1, w1) :=
            checkpoint_write_begin e Main 128 "planner:v1" (g_ctx s) (g_world s) in
          Some (Gated PCheckpoint ctx1 (g_sem s) (g_tasks s) w1)
      end
  | PCheckpoint =>
      let '(ctx1, w1) := checkpoint_write_end e (g_ctx s) (g_world s) in
      let '(ctx2, w2) := exit_span e ctx1 w1 in
      Some (Gated PReturned ctx2 (g_sem s) (g_tasks s) w2)
  | PAggregator | PReturned | PRaised _ => None
  end.

Definition fanout_worker_step (i : nat) (draw : Q) (s : gated call_worker)
    : option (gated call_worker) :=
  match g_tasks s !! i with
  | None => None
  | Some (Task ctx st) =>
      match st with
      | CCreated =>
          if 0 <? g_sem s then
            let w1 := emit (EvAcquire (Worker i)) (g_world s) in
            let '(ctx1, w2) :=
              start_as_current_span e "worker"
                (_attrs e ("worker:" +:+ pretty i) "worker"
                   {[ "ati.worker.index" := AInt (Z.of_nat i) ]})
                ctx w1 in
            let '(ctx2, w3) := call_tool_send e (Worker i) (fanout_request i) ctx1 w2 in
            Some (Gated (g_pc s) (g_ctx s) (g_sem s - 1)
                    (<[i := Task ctx2 CCalling]> (g_tasks s)) w3)
          else None
      | CCalling =>
          if valid_draw draw then
            let rq := fanout_request i in
            let '(res, (ctx1, w1)) :=
              call_tool_recv e (Worker i) rq (backend_response e rq draw) ctx (g_world s) in
            let '(ctx2, w2) := exit_span e ctx1 w1 in
            Some (Gated (g_pc s) (g_ctx s) (g_sem s + 1)
                    (<[i := Task ctx2 (CDone res)]> (g_tasks s))
                    (emit (EvRelease (Worker i)) w2))
          else None
      | CDone _ => None
      end
  end.

Definition fanout_step (l : label) (s : gated call_worker) : option (gated call_worker) :=
  match lbl_task l with
  | Main => fanout_planner_step s
  | Worker i => fanout_worker_step i (lbl_backend l) s
  end.

End Fanout.

(** *** [scenario_dag] *)

(** A planner whose children run with no admission gate. *)
Record forked (W : Type) := Forked {
  f_pc : planner_pc;
  f_ctx : list nat;
  f_tasks : list (task W);
  f_world : world;
}.
Arguments Forked {W} _ _ _ _.
Arguments f_pc {W} _.
Arguments f_ctx {W} _.
Arguments f_tasks {W} _.
Arguments f_world {W} _.

Section Dag.
Variable e : env.
Variables fanout delay_ms : Z.

Definition dag_branch_request (i : nat) : tool_request :=
  ToolRequest ("dag_" +:+ pretty i) delay_ms 0 0 false 0.

Definition dag_aggregator_request : tool_request :=
  ToolRequest "aggregator" delay_ms 0 0 false 0.

Definition dag_init (ctx : list nat) (w : world) : forked call_worker :=
  Forked PStart ctx [] w.

Definition dag_planner_step (draw : Q) (s : forked call_worker)
    : option (forked call_worker) :=
  match f_pc s with
  | PStart =>
      let '(ctx1, w1) :=
        start_as_current_span e "planner"
          (_attrs e "planner:v1" "planner" {[ "ati.dag.fanout" := AInt fanout ]})
          (f_ctx s) (f_world s) in
      Some (Forked PGather ctx1 (replicate (Z.to_nat fanout) (Task ctx1 CCreated)) w1)
  | PGather =>
      match gather (map (fun t => call_result (t_state t)) (f_tasks s)) with
      | GPending => None
      | GRaised exc =>
          let '(ctx1, w1) := exit_span e (f_ctx s) (f_world s) in
          Some (Forked (PRaised exc) ctx1 (f_tasks s) w1)
      | GReturned =>
          let '(ctx1, w1) :=
            start_as_current_span e "aggregator"
              (_attrs e "aggregator:v1" "worker" ∅) (f_ctx s) (f_world s) in
          let '(ctx2, w2) := call_tool_send e Main dag_aggregator_request ctx1 w1 in
          Some (Forked PAggregator ctx2 (f_tasks s) w2)
      end
  | PAggregator =>
      if valid_draw draw then
        let rq := dag_aggregator_request in
        let '(res, (ctx1, w1)) :=
          call_tool_recv e Main rq (backend_response e rq draw) (f_ctx s) (f_world s) in
        let '(ctx2, w2) := exit_span e ctx1 w1 in
        match res with
        | Raise exc =>
            let '(ctx3, w3) := exit_span e ctx2 w2 in
            Some (Forked (PRaised exc) ctx3 (f_tasks s) w3)
        | Return _ =>
            let '(ctx3, w3) := checkpoint_write_begin e Main 64 "planner:v1" ctx2 w2 in
            Some (Forked PCheckpoint ctx3 (f_tasks s) w3)
        end
      else None
  | PCheckpoint =>
      let '(ctx1, w1) := checkpoint_write_end e (f_ctx s) (f_world s) in
      let '(ctx2, w2) := exit_span e ctx1 w1 in
      Some (Forked PReturned ctx2 (f_tasks s) w2)
  | PReturned | PRaised _ => None
  end.

Definition dag_worker_step (i : nat) (draw : Q) (s : forked call_worker)
    : option (forked call_worker) :=
  match f_tasks s !! i with
  | None => None
  | Some (Task ctx st) =>
      match st with
      | CCreated =>
          let '(ctx1, w1) :=
            start_as_current_span e "branch_worker"
              (_attrs e ("branch:" +:+ pretty i) "worker" ∅) ctx (f_world s) in
          let '(ctx2, w2) := call_tool_send e (Worker i) (dag_branch_request i) ctx1 w1 in
          Some (Forked (f_pc s) (f_ctx s) (<[i := Task ctx2 CCalling]> (f_tasks s)) w2)
      | CCalling =>
          if valid_draw draw then
            let rq := dag_branch_request i in
            let '(res, (ctx1, w1)) :=
              call_tool_recv e (Worker i) rq (backend_response e rq draw) ctx (f_world s) in
            let '(ctx2, w2) := exit_span e ctx1 w1 in
            Some (Forked (f_pc s) (f_ctx s) (<[i := Task ctx2 (CDone res)]> (f_tasks s)) w2)
          else None
      | CDone _ => None
      end
  end.

Definition dag_step (l : label) (s : forked call_worker) : option (forked call_worker) :=
  match lbl_task l with
  | Main => dag_planner_step (lbl_backend l) s
  | Worker i => dag_worker_step i (lbl_backend l) s
  end.

End Dag.

(** *** The sequential scenarios *)

(** A scenario with a single coroutine: where it stands, its context and
    the world. *)
Record sequential (PC : Type) := Sequential {
  q_pc : PC;
  q_ctx : list nat;
  q_world : world;
}.
Arguments Sequential {PC} _ _ _.
Arguments q_pc {PC} _.
Arguments q_ctx {PC} _.
Arguments q_world {PC} _.

(** The next value of [random.random()] in a segment. *)
Definition take_draw (rs : list Q) : option (Q * list Q) :=
  match rs with
  | r :: rs' => if valid_draw r then Some (r, rs') else None
  | [] => None
  end.

(** **** [scenario_blocking_chain] *)

Inductive chain_pc :=
| ChStart
| ChStep (i : nat)
| ChCheckpoint
| ChReturned
| ChRaised (exc : string).

Section Chain.
Variable e : env.
Variables depth delay_ms : Z.

Definition chain_request : tool_request :=
  ToolRequest "chain" delay_ms 0 0 false 0.

Definition chain_init (ctx : list nat) (w : world) : sequential chain_pc :=
  Sequential ChStart ctx w.

(** The head of [for i in range(depth)]: the next step, or the code
    after the loop. *)
Definition chain_loop (i : nat) (ctx : list nat) (w : world) : sequential chain_pc :=
  if Z.of_nat i <? depth then
    let '(ctx1, w1) :=
      start_as_current_span e "step"
        (_attrs e ("chain:" +:+ pretty i) "worker" {[ "ati.chain.index" := AInt (Z.of_nat i) ]})
        ctx w in
    let '(ctx2, w2) := call_tool_send e Main chain_request ctx1 w1 in
    Sequential (ChStep i) ctx2 w2
  else
    let '(ctx1, w1) := checkpoint_write_begin e Main 64 "planner:v1" ctx w in
    Sequential ChCheckpoint ctx1 w1.

Definition chain_step (l : label) (s : sequential chain_pc) : option (sequential chain_pc) :=
  match lbl_task l with
  | Worker _ => None
  | Main =>
      match q_pc s with
      | ChStart =>
          let '(ctx1, w1) :=
            start_as_current_span e "planner"
              (_attrs e "planner:v1" "planner" {[ "ati.chain.depth" := AInt depth ]})
              (q_ctx s) (q_world s) in
          Some (chain_loop 0 ctx1 w1)
      | ChStep i =>
          if valid_draw (lbl_backend l) then
            let rq := chain_request in
            let '(res, (ctx1, w1)) :=
              call_tool_recv e Main rq (backend_response e rq (lbl_backend l))
                (q_ctx s) (q_world s) in
            let '(ctx2, w2) := exit_span e ctx1 w1 in
            match res with
            | Raise exc =>
                let '(ctx3, w3) := exit_span e ctx2 w2 in
                Some (Sequential (ChRaised exc) ctx3 w3)
            | Return _ => Some (chain_loop (S i) ctx2 w2)
            end
          else None
      | ChCheckpoint =>
          let '(ctx1, w1) := checkpoint_write_end e (q_ctx s) (q_world s) in
          let '(ctx2, w2) := exit_span e ctx1 w1 in
          Some (Sequential ChReturned ctx2 w2)
      | ChReturned | ChRaised _ => None
      end
  end.

End Chain.

(** **** [scenario_react] *)

Inductive react_pc :=
| RcStart
| RcThought (i : nat)
| RcAct (i : nat)
| RcCheckpoint
| RcReturned
| RcRaised (exc : string).

Section React.
Variable e : env.
Variables max_steps delay_ms : Z.

Definition react_request (i : nat) : tool_request :=
  ToolRequest ("step_" +:+ pretty i) delay_ms 0 0 false 0.

Definition reasoning_trace (i : nat) : string :=
  "Thought " +:+ pretty i +:+ ": Analysis of previous step... Plan: Execute step_"
    +:+ pretty i +:+ "...".

Definition react_init (ctx : list nat) (w : world) : sequential react_pc :=
  Sequential RcStart ctx w.

Definition react_checkpoint (ctx : list nat) (w : world) : sequential react_pc :=
  let '(ctx1, w1) := checkpoint_write_begin e Main 128 "agent:v1" ctx w in
  Sequential RcCheckpoint ctx1 w1.

(** The head of [for i in range(max_steps)]; an iteration starts with
    the thought span and its randomised sleep. *)
Definition react_loop (i : nat) (rs : list Q) (ctx : list nat) (w : world)
    : option (sequential react_pc) :=
  if Z.of_nat i <? max_steps then
    match take_draw rs with
    | None => None
    | Some (r, _) =>
        let '(ctx1, w1) :=
          start_as_current_span e "thought"
            (_attrs e ("thought:" +:+ pretty i) "internal" {[ "ati.step" := AInt (Z.of_nat i) ]})
            ctx w in
        let w2 := set_attribute "ati.llm.prompt" (AStr (reasoning_trace i)) ctx1 w1 in
        Some (Sequential (RcThought i) ctx1
                (emit (EvSleep Main ((1 # 100) + r * (5 # 100))%Q) w2))
    end
  else Some (react_checkpoint ctx w).

Definition react_step (l : label) (s : sequential react_pc) : option (sequential react_pc) :=
  match lbl_task l with
  | Worker _ => None
  | Main =>
      match q_pc s with
      | RcStart =>
          let '(ctx1, w1) :=
            start_as_current_span e "agent_core"
              (_attrs e "agent:v1" "planner" {[ "ati.react.max_steps" := AInt max_steps ]})
              (q_ctx s) (q_world s) in
          react_loop 0 (lbl_random l) ctx1 w1
      | RcThought i =>
          let '(ctx1, w1) := exit_span e (q_ctx s) (q_world s) in
          let '(ctx2, w2) :=
            start_as_current_span e "act"
              (_attrs e ("act:" +:+ pretty i) "tool_call" {[ "ati.step" := AInt (Z.of_nat i) ]})
              ctx1 w1 in
          let '(ctx3, w3) := call_tool_send e Main (react_request i) ctx2 w2 in
          Some (Sequential (RcAct i) ctx3 w3)
      | RcAct i =>
          if valid_draw (lbl_backend l) then
            let rq := react_request i in
            let '(res, (ctx1, w1)) :=
              call_tool_recv e Main rq (backend_response e rq (lbl_backend l))
                (q_ctx s) (q_world s) in
            let '(ctx2, w2) := exit_span e ctx1 w1 in
            match res with
            | Raise exc =>
                let '(ctx3, w3) := exit_span e ctx2 w2 in
                Some (Sequential (RcRaised exc) ctx3 w3)
            | Return _ =>
                match take_draw (lbl_random l) with
                | None => None
                | Some (r, rs) =>
                    if Qlt_bool r (1 # 10)
                    then Some (react_checkpoint ctx2 w2)   (* break *)
                    else react_loop (S i) rs ctx2 w2
                end
            end
          else None
      | RcCheckpoint =>
          let '(ctx1, w1) := checkpoint_write_end e (q_ctx s) (q_world s) in
          let '(ctx2, w2) := exit_span e ctx1 w1 in
          Some (Sequential RcReturned ctx2 w2)
      | RcReturned | RcRaised _ => None
      end
  end.

End React.

(** **** [scenario_human] *)

Inductive human_pc :=
| HStart
| HPre
| HWait
| HPost
| HReturned
| HRaised (exc : string).

Section Human.
Variable e : env.
Variable delay_s : Q.

Definition human_pre_request : tool_request :=
  ToolRequest "pre_human" 100 0 0 false 0.
Definition human_post_request : tool_request :=
  ToolRequest "post_human" 100 0 0 false 0.

Definition human_init (ctx : list nat) (w : world) : sequential human_pc :=
  Sequential HStart ctx w.

Definition human_step (l : label) (s : sequential human_pc) : option (sequential human_pc) :=
  match lbl_task l with
  | Worker _ => None
  | Main =>
      match q_pc s with
      | HStart =>
          let '(ctx1, w1) :=
            start_as_current_span e "planner"
              (_attrs e "planner:v1" "planner" {[ "ati.human.delay_s" := AFloat delay_s ]})
              (q_ctx s) (q_world s) in
          let '(ctx2, w2) := call_tool_send e Main human_pre_request ctx1 w1 in
          Some (Sequential HPre ctx2 w2)
      | HPre =>
          if valid_draw (lbl_backend l) then
            let rq := human_pre_request in
            let '(res, (ctx1, w1)) :=
              call_tool_recv e Main rq (backend_response e rq (lbl_backend l))
                (q_ctx s) (q_world s) in
            match res with
            | Raise exc =>
                let '(ctx2, w2) := exit_span e ctx1 w1 in
                Some (Sequential (HRaised exc) ctx2 w2)
            | Return _ =>
                let '(ctx2, w2) :=
                  start_as_current_span e "human_feedback"
                    (_attrs e "human" "interactive" ∅) ctx1 w1 in
                Some (Sequential HWait ctx2 (emit (EvSleep Main delay_s) w2))
            end
          else None
      | HWait =>
          let '(ctx1, w1) := exit_span e (q_ctx s) (q_world s) in
          let '(ctx2, w2) := call_tool_send e Main human_post_request ctx1 w1 in
          Some (Sequential HPost ctx2 w2)
      | HPost =>
          if valid_draw (lbl_backend l) then
            let rq := human_post_request in
            let '(res, (ctx1, w1)) :=
              call_tool_recv e Main rq (backend_response e rq (lbl_backend l))
                (q_ctx s) (q_world s) in
            let '(ctx2, w2) := exit_span e ctx1 w1 in
            match res with
            | Raise exc => Some (Sequential (HRaised exc) ctx2 w2)
            | Return _ => Some (Sequential HReturned ctx2 w2)
            end
          else None
      | HReturned | HRaised _ => None
      end
  end.

End Human.

(** **** [scenario_rag] *)

Inductive rag_pc :=
| GStart
| GRetrieval
| GGeneration
| GFinished
| GFailed (exc : string).

Section Rag.
Variable e : env.
Variables chunk_count chunk_size_kb delay_ms : Z.

Definition total_kb : Z := chunk_count * chunk_size_kb.

Definition rag_request : tool_request :=
  ToolRequest "vector_db" delay_ms 0 0 false total_kb.

(** [0.1 + (total_kb / 5000.0)], in seconds. *)
Definition generation_delay : Q := ((1 # 10) + inject_Z total_kb / 5000)%Q.

Definition rag_init (ctx : list nat) (w : world) : sequential rag_pc :=
  Sequential GStart ctx w.

Definition rag_step (l : label) (s : sequential rag_pc) : option (sequential rag_pc) :=
  match lbl_task l with
  | Worker _ => None
  | Main =>
      match q_pc s with
      | GStart =>
          let '(ctx1, w1) :=
            start_as_current_span e "planner"
              (_attrs e "planner:v1" "planner" {[ "ati.rag.chunks" := AInt chunk_count ]})
              (q_ctx s) (q_world s) in
          let '(ctx2, w2) :=
            start_as_current_span e "retrieval"
              (_attrs e "retriever" "tool_call" {[ "ati.rag.total_kb" := AInt total_kb ]})
              ctx1 w1 in
          let '(ctx3, w3) := call_tool_send e Main rag_request ctx2 w2 in
          Some (Sequential GRetrieval ctx3 w3)
      | GRetrieval =>
          if valid_draw (lbl_backend l) then
            let rq := rag_request in
            let '(res, (ctx1, w1)) :=
              call_tool_recv e Main rq (backend_response e rq (lbl_backend l))
                (q_ctx s) (q_world s) in
            match res with
            | Raise exc =>
                let '(ctx2, w2) := exit_span e ctx1 w1 in
                let '(ctx3, w3) := exit_span e ctx2 w2 in
                Some (Sequential (GFailed exc) ctx3 w3)
            | Return result =>
                let w2 :=
                  match result !! "payload" with
                  | Some (JStr payload) => set_attribute "ati.rag.content" (AStr payload) ctx1 w1
                  | Some (JInt z) => set_attribute "ati.rag.content" (AInt z) ctx1 w1
                  | Some (JBool b) =>
                      set_attribute "ati.rag.content" (AInt (if b then 1 else 0)) ctx1 w1
                  | None => w1
                  end in
                let '(ctx3, w3) := exit_span e ctx1 w2 in
                let '(ctx4, w4) :=
                  start_as_current_span e "generation"
                    (_attrs e "llm" "generation" ∅) ctx3 w3 in
                Some (Sequential GGeneration ctx4 (emit (EvSleep Main generation_delay) w4))
            end
          else None
      | GGeneration =>
          let '(ctx1, w1) := exit_span e (q_ctx s) (q_world s) in
          let '(ctx2, w2) := exit_span e ctx1 w1 in
          Some (Sequential GFinished ctx2 w2)
      | GFinished | GFailed _ => None
      end
  end.

End Rag.

(** *** The [/run] handler *)

Inductive scenario := Fanout | Chain | Retry | Dag | React | Human | Rag.

Definition scenario_name (sc : scenario) : string :=
  match sc with
  | Fanout => "fanout" | Chain => "chain" | Retry => "retry" | Dag => "dag"
  | React => "react" | Human => "human" | Rag => "rag"
  end.

(** The query parameters of [run]. *)
Record query := Query {
  q_scenario : scenario;
  q_fanout : Z;
  q_concurrency : Z;
  q_delay_ms : Z;
  q_depth : Z;
  q_error_rate : Q;
  q_max_retries : Z;
  q_max_steps : Z;
  q_human_delay_s : Q;
  q_rag_chunks : Z;
  q_rag_chunk_size_kb : Z;
}.

Definition default_query : query :=
  Query Fanout 100 20 80 60 (1 # 10) 3 10 1 5 2.

(** The request before its first segment, then the scenario it runs. *)
Inductive running :=
| RunPending
| RunFanout (s : gated call_worker)
| RunChain (s : sequential chain_pc)
| RunRetry (s : gated retry_worker)
| RunDag (s : forked call_worker)
| RunReact (s : sequential react_pc)
| RunHuman (s : sequential human_pc)
| RunRag (s : sequential rag_pc).

Definition run_world (r : running) : world :=
  match r with
  | RunPending => empty_world
  | RunFanout s | RunRetry s => g_world s
  | RunDag s => f_world s
  | RunChain s => q_world s
  | RunReact s => q_world s
  | RunHuman s => q_world s
  | RunRag s => q_world s
  end.

Section Run.
Variable e : env.
Variable q : query.

(** A segment of the scenario chosen by the [if]/[elif] chain of [run]. *)
Definition scenario_step (l : label) (r : running) : option running :=
  match r with
  | RunPending => None
  | RunFanout s =>
      RunFanout <$> fanout_step e (q_concurrency q) (q_fanout q) (q_delay_ms q) l s
  | RunChain s => RunChain <$> chain_step e (q_depth q) (q_delay_ms q) l s
  | RunRetry s =>
      RunRetry <$> retry_step e (q_fanout q) (q_concurrency q) (q_delay_ms q)
                     (q_error_rate q) (q_max_retries q) l s
  | RunDag s => RunDag <$> dag_step e (q_fanout q) (q_delay_ms q) l s
  | RunReact s => RunReact <$> react_step e (q_max_steps q) (q_delay_ms q) l s
  | RunHuman s => RunHuman <$> human_step e (q_human_delay_s q) l s
  | RunRag s =>
      RunRag <$> rag_step e (q_rag_chunks q) (q_rag_chunk_size_kb q) (q_delay_ms q) l s
  end.

Definition dispatch (ctx : list nat) (w : world) : running :=
  match q_scenario q with
  | Fanout => RunFanout (fanout_init ctx w)
  | Chain => RunChain (chain_init ctx w)
  | Retry => RunRetry (retry_init ctx w)
  | Dag => RunDag (dag_init ctx w)
  | React => RunReact (react_init ctx w)
  | Human => RunHuman (human_init ctx w)
  | Rag => RunRag (rag_init ctx w)
  end.

(** When the scenario coroutine has returned or raised, [run] leaves the
    workflow span in the same segment. *)
Definition planner_over (pc : planner_pc) : bool :=
  match pc with PReturned | PRaised _ => true | _ => false end.

Definition leave_workflow (r : running) : running :=
  match r with
  | RunPending => RunPending
  | RunFanout s =>
      if planner_over (g_pc s) then
        let '(ctx, w) := exit_span e (g_ctx s) (g_world s) in
        RunFanout (Gated (g_pc s) ctx (g_sem s) (g_tasks s) w)
      else r
  | RunRetry s =>
      if planner_over (g_pc s) then
        let '(ctx, w) := exit_span e (g_ctx s) (g_world s) in
        RunRetry (Gated (g_pc s) ctx (g_sem s) (g_tasks s) w)
      else r
  | RunDag s =>
      if planner_over (f_pc s) then
        let '(ctx, w) := exit_span e (f_ctx s) (f_world s) in
        RunDag (Forked (f_pc s) ctx (f_tasks s) w)
      else r
  | RunChain s =>
      match q_pc s with
      | ChReturned | ChRaised _ =>
          let '(ctx, w) := exit_span e (q_ctx s) (q_world s) in
          RunChain (Sequential (q_pc s) ctx w)
      | _ => r
      end
  | RunReact s =>
      match q_pc s with
      | RcReturned | RcRaised _ =>
          let '(ctx, w) := exit_span e (q_ctx s) (q_world s) in
          RunReact (Sequential (q_pc s) ctx w)
      | _ => r
      end
  | RunHuman s =>
      match q_pc s with
      | HReturned | HRaised _ =>
          let '(ctx, w) := exit_span e (q_ctx s) (q_world s) in
          RunHuman (Sequential (q_pc s) ctx w)
      | _ => r
      end
  | RunRag s =>
      match q_pc s with
      | GFinished | GFailed _ =>
          let '(ctx, w) := exit_span e (q_ctx s) (q_world s) in
          RunRag (Sequential (q_pc s) ctx w)
      | _ => r
      end
  end.

Definition run_step (l : label) (r : running) : option running :=
  match lbl_task l with
  | Main =>
      match r with
      | RunPending =>
          let '(ctx, w) :=
            start_as_current_span e "workflow"
              (_attrs e "workflow" "workflow"
                 {[ "ati.scenario" := AStr (scenario_name (q_scenario q)) ]})
              [] empty_world in
          leave_workflow <$> scenario_step l (dispatch ctx w)
      | _ => leave_workflow <$> scenario_step l r
      end
  | Worker _ => scenario_step l r
  end.

End Run.

End AgentApp.

Import AgentApp.

(** * Properties *)
(** ** Executions *)

Section ExecutionFacts.
Context {St Lbl : Type} (step : Lbl -> St -> option St).

Lemma reachable_invariant (I : St -> Prop) (s0 : St) :
  I s0 ->
  (forall s l s', I s -> step l s = Some s' -> I s') ->
  forall s, reachable step s0 s -> I s.
Proof.
  intros H0 Hstep s Hr. induction Hr; eauto.
Qed.

Lemma exec_reachable (ls : list Lbl) (s0 s s' : St) :
  reachable step s0 s -> exec step ls s = Some s' -> reachable step s0 s'.
Proof.
  revert s. induction ls as [|l ls IH]; simpl; intros s Hr H.
  - by inversion H; subst.
  - destruct (step l s) as [s1|] eqn:E; [|discriminate].
    eapply IH; [|exact H]. by eapply reach_step.
Qed.

Lemma exec_app (l1 l2 : list Lbl) (s : St) :
  exec step (l1 ++ l2) s = exec step l1 s ≫= exec step l2.
Proof.
  revert s. induction l1 as [|l l1 IH]; simpl; intros s; [done|].
  destruct (step l s); simpl; [apply IH|done].
Qed.

End ExecutionFacts.

(** ** Counting list elements by a boolean property *)

Definition count {A : Type} (p : A -> bool) (l : list A) : nat :=
  length (List.filter p l).

Global Arguments count : simpl never.

Definition b2n (b : bool) : nat := if b then 1%nat else 0%nat.

Definition count_tasks {W : Type} (p : W -> bool) (l : list (task W)) : nat :=
  count (fun t => p (t_state t)) l.

Section Counting.
Context {A : Type} (p : A -> bool).

Lemma count_cons (x : A) (l : list A) : count p (x :: l) = (b2n (p x) + count p l)%nat.
Proof. unfold count. simpl. by destruct (p x). Qed.

Lemma count_app (l1 l2 : list A) : count p (l1 ++ l2) = (count p l1 + count p l2)%nat.
Proof. unfold count. by rewrite List.filter_app, length_app. Qed.

Lemma count_snoc (l : list A) (x : A) : count p (l ++ [x]) = (count p l + b2n (p x))%nat.
Proof. rewrite count_app, count_cons. unfold count. simpl. lia. Qed.

Lemma count_insert (l : list A) (i : nat) (x y : A) :
  l !! i = Some x ->
  (count p (<[i:=y]> l) + b2n (p x) = count p l + b2n (p y))%nat.
Proof.
  revert i. induction l as [|a l IH]; intros [|i] H; simpl in *; try discriminate.
  - inversion H; subst. rewrite !count_cons. lia.
  - specialize (IH i H). rewrite !count_cons. lia.
Qed.

Lemma count_alter (f : A -> A) (l : list A) (i : nat) (x : A) :
  l !! i = Some x ->
  (count p (alter f i l) + b2n (p x) = count p l + b2n (p (f x)))%nat.
Proof.
  revert i. induction l as [|a l IH]; intros [|i] H; simpl in *; try discriminate.
  - inversion H; subst. rewrite !count_cons. lia.
  - specialize (IH i H). unfold alter in IH. rewrite !count_cons. lia.
Qed.

Lemma count_alter_same (f : A -> A) (l : list A) (i : nat) :
  (forall x, p (f x) = p x) -> count p (alter f i l) = count p l.
Proof.
  intros Hf. revert i. induction l as [|a l IH]; intros [|i]; simpl; try done.
  - by rewrite !count_cons, Hf.
  - specialize (IH i). unfold alter in IH. by rewrite !count_cons, IH.
Qed.

Lemma count_replicate (n : nat) (x : A) : count p (replicate n x) = (n * b2n (p x))%nat.
Proof.
  induction n as [|n IH]; simpl; [done|]. rewrite count_cons, IH. lia.
Qed.

Lemma count_le_length (l : list A) : (count p l <= length l)%nat.
Proof. apply List.filter_length_le. Qed.

Lemma count_zero (l : list A) : count p l = 0%nat -> Forall (fun x => p x = false) l.
Proof.
  induction l as [|a l IH]; [constructor|]. rewrite count_cons.
  destruct (p a) eqn:Ha; simpl; [lia|]. intros H. constructor; auto.
Qed.

Lemma count_positive (l : list A) :
  (0 < count p l)%nat -> exists i x, l !! i = Some x /\ p x = true.
Proof.
  induction l as [|a l IH]; [unfold count; simpl; lia|]. rewrite count_cons.
  destruct (p a) eqn:Ha.
  - intros _. by exists 0%nat, a.
  - simpl. intros H. destruct (IH H) as (i & x & Hi & Hx). by exists (S i), x.
Qed.

Lemma count_all (l : list A) : Forall (fun x => p x = true) l -> count p l = length l.
Proof.
  induction 1 as [|a l Ha _ IH]; [done|]. rewrite count_cons, Ha, IH. done.
Qed.

End Counting.

Lemma count_tasks_insert {W : Type} (p : W -> bool) (l : list (task W)) (i : nat)
    (x y : task W) :
  l !! i = Some x ->
  (count_tasks p (<[i:=y]> l) + b2n (p (t_state x)) =
   count_tasks p l + b2n (p (t_state y)))%nat.
Proof. apply (count_insert (fun t => p (t_state t))). Qed.

Lemma count_tasks_replicate {W : Type} (p : W -> bool) (n : nat) (x : task W) :
  count_tasks p (replicate n x) = (n * b2n (p (t_state x)))%nat.
Proof. apply (count_replicate (fun t => p (t_state t))). Qed.

(** ** The event log *)

Section EventLog.

Lemma task_eqb_refl t : task_eqb t t = true.
Proof. destruct t; simpl; [done|apply Nat.eqb_refl]. Qed.

Lemma task_eqb_worker i j : task_eqb (Worker i) (Worker j) = bool_decide (i = j).
Proof.
  simpl. destruct (Nat.eqb_spec i j); [by rewrite bool_decide_eq_true_2|by rewrite bool_decide_eq_false_2].
Qed.

Lemma count_events_snoc p l ev :
  count_events p (l ++ [ev]) = (count_events p l + (if p ev then 1 else 0))%nat.
Proof.
  unfold count_events. rewrite List.filter_app, length_app. simpl.
  by destruct (p ev).
Qed.

Lemma requests_of_snoc t l ev :
  requests_of t (l ++ [ev]) =
  requests_of t l ++
    match ev with
    | EvRequest t' rq => if task_eqb t t' then [rq] else []
    | _ => []
    end.
Proof.
  unfold requests_of. rewrite omap_app. f_equal. simpl.
  destruct ev; try done. by destruct (task_eqb t t0).
Qed.

Lemma sleeps_of_snoc t l ev :
  sleeps_of t (l ++ [ev]) =
  sleeps_of t l ++
    match ev with
    | EvSleep t' d => if task_eqb t t' then [d] else []
    | _ => []
    end.
Proof.
  unfold sleeps_of. rewrite omap_app. f_equal. simpl.
  destruct ev; try done. by destruct (task_eqb t t0).
Qed.

Lemma acquires_of_snoc t l ev :
  acquires_of t (l ++ [ev]) =
  (acquires_of t l + (if is_acquire ev && task_eqb t (event_task ev) then 1 else 0))%nat.
Proof. apply count_events_snoc. Qed.

Lemma releases_of_snoc t l ev :
  releases_of t (l ++ [ev]) =
  (releases_of t l + (if is_release ev && task_eqb t (event_task ev) then 1 else 0))%nat.
Proof. apply count_events_snoc. Qed.

Lemma in_flight_emit ev w :
  in_flight (emit ev w) =
  in_flight w + (if is_request ev then 1 else 0) - (if is_response ev then 1 else 0).
Proof.
  unfold in_flight, emit. simpl. rewrite !count_events_snoc.
  destruct ev; simpl; lia.
Qed.

End EventLog.

(** ** The tracer and the two-segment helpers *)

Section TracerFacts.
Variable e : env.

Lemma start_span_log name attrs ctx w :
  log (start_as_current_span e name attrs ctx w).2 = log w.
Proof. done. Qed.

Lemma exit_span_log ctx w : log (exit_span e ctx w).2 = log w.
Proof. by destruct ctx. Qed.

Lemma call_tool_send_log t rq ctx w :
  log (call_tool_send e t rq ctx w).2 = log w ++ [EvRequest t rq].
Proof. done. Qed.

Lemma call_tool_recv_log t rq r ctx w :
  log (call_tool_recv e t rq r ctx w).2.2 = log w ++ [EvResponse t r].
Proof. unfold call_tool_recv. simpl. by rewrite exit_span_log. Qed.

Lemma checkpoint_write_begin_log t size_kb agent_id ctx w :
  log (checkpoint_write_begin e t size_kb agent_id ctx w).2 =
  log w ++ [EvSleep t (checkpoint_delay size_kb)].
Proof. done. Qed.

Lemma in_flight_log w w' : log w = log w' -> in_flight w = in_flight w'.
Proof. unfold in_flight. by intros ->. Qed.

End TracerFacts.

(** ** The backend decides by one draw *)

Lemma backend_fails_when_rate_one e rq draw :
  valid_draw draw = true -> (1 <= rq_error_rate rq)%Q ->
  exists detail, backend_response e rq draw = ToolService.HTTPException 503 detail.
Proof.
  intros Hd He. unfold backend_response, ToolService.tool_call.
  unfold valid_draw in Hd. apply andb_prop in Hd as [_ Hd].
  assert (Qlt_bool draw (rq_error_rate rq) = true) as ->; [|eauto].
  unfold Qlt_bool. apply negb_true_iff in Hd. apply negb_true_iff.
  apply not_true_iff_false. intros H%Qle_bool_iff.
  apply not_true_iff_false in Hd. apply Hd. apply Qle_bool_iff. lra.
Qed.

Lemma backend_succeeds_when_rate_zero e rq draw :
  valid_draw draw = true -> (rq_error_rate rq <= 0)%Q ->
  forall code detail, backend_response e rq draw <> ToolService.HTTPException code detail.
Proof.
  intros Hd He code detail. unfold backend_response, ToolService.tool_call.
  unfold valid_draw in Hd. apply andb_prop in Hd as [Hd _].
  apply Qle_bool_iff in Hd.
  assert (Qlt_bool draw (rq_error_rate rq) = false) as ->.
  { unfold Qlt_bool. apply negb_false_iff, Qle_bool_iff. lra. }
  destruct (_ =? 1); discriminate.
Qed.

Definition backoff_at (n : nat) : Q :=
  Qmin ((2 # 100) * inject_Z (2 ^ Z.of_nat n)) (1 # 2).

Ltac qmin_cases :=
  repeat match goal with
  | |- context [Qmin ?a ?b] =>
      let H1 := fresh "Hle" in let H2 := fresh "Hmin" in
      destruct (Q.min_spec_le a b) as [[H1 H2]|[H1 H2]];
      rewrite H2 in *
  end.

Lemma pow2_pos n : (0 < inject_Z (2 ^ Z.of_nat n))%Q.
Proof.
  change 0%Q with (inject_Z 0). rewrite <- Zlt_Qlt. apply Z.pow_pos_nonneg; lia.
Qed.

Lemma backoff_at_S n : Qmin (backoff_at n * 2) (1 # 2) == backoff_at (S n).
Proof.
  unfold backoff_at.
  assert (inject_Z (2 ^ Z.of_nat (S n)) == inject_Z (2 ^ Z.of_nat n) * 2) as ->.
  { rewrite Nat2Z.inj_succ, Z.pow_succ_r by lia. rewrite inject_Z_mult. ring. }
  pose proof (pow2_pos n) as Hp.
  set (x := inject_Z (2 ^ Z.of_nat n)) in *.
  destruct (Q.min_spec_le ((2 # 100) * x) (1 # 2)) as [[H1 H2]|[H1 H2]]; rewrite H2.
  - destruct (Q.min_spec_le ((2 # 100) * x * 2) (1 # 2)) as [[H3 H4]|[H3 H4]];
    destruct (Q.min_spec_le ((2 # 100) * (x * 2)) (1 # 2)) as [[H5 H6]|[H5 H6]];
    rewrite H4, H6; lra.
  - destruct (Q.min_spec_le ((1 # 2) * 2) (1 # 2)) as [[H3 H4]|[H3 H4]];
    destruct (Q.min_spec_le ((2 # 100) * (x * 2)) (1 # 2)) as [[H5 H6]|[H5 H6]];
    rewrite H4, H6; lra.
Qed.

Lemma backoff_at_0 : backoff_at 0 == 2 # 100.
Proof. reflexivity. Qed.

Lemma backoff_at_le n : (backoff_at n <= 1 # 2)%Q.
Proof. apply Q.le_min_r. Qed.

Lemma gather_returned rs :
  gather rs = GReturned <-> Forall (fun r => exists v, r = Some (Return v)) rs.
Proof.
  induction rs as [|r rs IH]; simpl.
  - split; [constructor|done].
  - split.
    + intros H. destruct r as [[v|exc]|]; destruct (gather rs); try discriminate.
      constructor; [eauto|by apply IH].
    + intros H. inversion H as [|? ? [v ->] Hrs]; subst.
      apply IH in Hrs. by rewrite Hrs.
Qed.

Lemma gather_raised rs exc :
  gather rs = GRaised exc -> Some (Raise exc) ∈ rs.
Proof.
  induction rs as [|r rs IH]; simpl; [done|].
  destruct r as [[v|exc']|]; destruct (gather rs) eqn:E; intros H; inversion H; subst;
    try (by left); right; by apply IH.
Qed.

Section EventsOfOthers.
Variables (t : task_id) (l : list event) (ev : event).
Hypothesis Hother : task_eqb t (event_task ev) = false.

Lemma requests_of_other : requests_of t (l ++ [ev]) = requests_of t l.
Proof.
  rewrite requests_of_snoc. destruct ev; simpl in *; rewrite ?Hother; apply app_nil_r.
Qed.

Lemma sleeps_of_other : sleeps_of t (l ++ [ev]) = sleeps_of t l.
Proof.
  rewrite sleeps_of_snoc. destruct ev; simpl in *; rewrite ?Hother; apply app_nil_r.
Qed.

Lemma acquires_of_other : acquires_of t (l ++ [ev]) = acquires_of t l.
Proof. rewrite acquires_of_snoc, Hother, andb_false_r. lia. Qed.

Lemma releases_of_other : releases_of t (l ++ [ev]) = releases_of t l.
Proof. rewrite releases_of_snoc, Hother, andb_false_r. lia. Qed.

End EventsOfOthers.

(** Name the result of the next helper segment in [H] and what it did
    to the log. *)
Ltac split_segment H :=
  match type of H with
  | context [match ?f with pair _ _ => _ end] =>
      let E := fresh "Eseg" in destruct f as [? ?] eqn:E
  end.

Ltac seg_log E :=
  let HL := fresh "Hlog" in
  match type of E with
  | start_as_current_span ?e ?n ?a ?ctx ?w = _ =>
      pose proof (start_span_log e n a ctx w) as HL
  | exit_span ?e ?ctx ?w = _ =>
      pose proof (exit_span_log e ctx w) as HL
  | call_tool_send ?e ?t ?rq ?ctx ?w = _ =>
      pose proof (call_tool_send_log e t rq ctx w) as HL
  | checkpoint_write_begin ?e ?t ?sz ?a ?ctx ?w = _ =>
      pose proof (checkpoint_write_begin_log e t sz a ctx w) as HL
  end;
  rewrite E in HL; simpl in HL.

(** ** The retry storm *)

Definition holds_gate (w : retry_worker) : bool :=
  match w with RCalling _ _ | RSleeping _ _ => true | _ => false end.

Definition awaits_response (w : retry_worker) : bool :=
  match w with RCalling _ _ => true | _ => false end.

Definition in_backoff (w : retry_worker) : bool :=
  match w with RSleeping _ _ => true | _ => false end.

Section RetryInvariant.
Variable e : env.
Variables fanout concurrency delay_ms : Z.
Variable error_rate : Q.
Variable max_retries : Z.

Abbreviation step := (retry_step e fanout concurrency delay_ms error_rate max_retries).
Abbreviation request := (retry_request delay_ms error_rate).

(** The requests of the first [n] attempts of worker [i]. *)
Definition attempts_made (i n : nat) : list tool_request :=
  map (fun k => request i (Z.of_nat k)) (seq 0 n).

(** What the log holds about worker [i] in each state of its coroutine:
    [n] calls sent and [m] backoff sleeps taken. *)
Definition worker_log_inv (l : list event) (i : nat) (st : retry_worker) : Prop :=
  exists n m : nat,
    requests_of (Worker i) l = attempts_made i n /\
    Forall2 Qeq (sleeps_of (Worker i) l) (map backoff_at (seq 0 m)) /\
    match st with
    | RCreated =>
        n = 0%nat /\ m = 0%nat /\
        acquires_of (Worker i) l = 0%nat /\ releases_of (Worker i) l = 0%nat
    | RCalling a b =>
        n = S m /\ a = Z.of_nat m /\ b == backoff_at m /\
        (m = 0%nat \/ a <= max_retries) /\
        acquires_of (Worker i) l = 1%nat /\ releases_of (Worker i) l = 0%nat
    | RSleeping a b =>
        n = m /\ a = Z.of_nat m /\ (1 <= m)%nat /\ a <= max_retries /\
        b == backoff_at (m - 1) /\
        acquires_of (Worker i) l = 1%nat /\ releases_of (Worker i) l = 0%nat
    | RDone r =>
        n = S m /\ (m = 0%nat \/ Z.of_nat m <= max_retries) /\
        acquires_of (Worker i) l = 1%nat /\ releases_of (Worker i) l = 1%nat /\
        (exists v, r = Return v) /\
        ((1 <= error_rate)%Q ->
         r = Return {[ "ok" := JBool false ]} /\ max_retries < Z.of_nat m + 1)
    end.

Record retry_inv (s : gated retry_worker) : Prop := RetryInv {
  inv_not_started :
    g_pc s = PStart -> g_tasks s = [] /\ log (g_world s) = [];
  inv_raised :
    forall exc, g_pc s = PRaised exc ->
      concurrency < 0 /\ g_tasks s = [] /\ log (g_world s) = [];
  inv_gate :
    g_pc s <> PStart -> (forall exc, g_pc s <> PRaised exc) ->
      0 <= concurrency /\ length (g_tasks s) = Z.to_nat fanout /\
      0 <= g_sem s /\
      g_sem s + Z.of_nat (count_tasks holds_gate (g_tasks s)) = concurrency;
  inv_in_flight :
    in_flight (g_world s) = Z.of_nat (count_tasks awaits_response (g_tasks s));
  inv_workers :
    forall i t, g_tasks s !! i = Some t ->
      worker_log_inv (log (g_world s)) i (t_state t);
  inv_join :
    g_pc s = PCheckpoint \/ g_pc s = PReturned ->
      Forall (fun t => exists v, t_state t = RDone (Return v)) (g_tasks s);
  inv_no_aggregator : g_pc s <> PAggregator;
}.

Lemma worker_log_inv_other l ev i st :
  task_eqb (Worker i) (event_task ev) = false ->
  worker_log_inv l i st -> worker_log_inv (l ++ [ev]) i st.
Proof.
  intros Hne (n & m & H). exists n, m.
  rewrite requests_of_other, sleeps_of_other, acquires_of_other, releases_of_other by done.
  exact H.
Qed.

Lemma retry_inv_init ctx w : log w = [] -> retry_inv (retry_init ctx w).
Proof.
  intros Hw. split; simpl; try done.
  by unfold in_flight; rewrite Hw.
Qed.

Lemma retry_planner_step_inv s s' :
  retry_inv s ->
  retry_planner_step e fanout concurrency max_retries s = Some s' ->
  retry_inv s'.
Proof.
  intros I H. unfold retry_planner_step in H.
  destruct (g_pc s) eqn:Hpc; try discriminate.
  - (* PStart *)
    destruct (inv_not_started s I Hpc) as [Ht Hl].
    split_segment H. seg_log Eseg.
    destruct (concurrency <? 0) eqn:Hc.
    + split_segment H. seg_log Eseg0. inversion H; subst; clear H.
      apply Z.ltb_lt in Hc.
      split; simpl.
      * done.
      * intros exc _. split; [done|]. split; [done|]. congruence.
      * intros _ Hx. by destruct (Hx "ValueError").
      * rewrite (in_flight_log _ (g_world s)) by congruence.
        by rewrite (inv_in_flight s I), Ht.
      * done.
      * intros [|]; discriminate.
      * done.
    + inversion H; subst; clear H. apply Z.ltb_ge in Hc.
      split; simpl.
      * done.
      * done.
      * intros _ _. rewrite length_replicate, count_tasks_replicate. simpl. lia.
      * rewrite (in_flight_log _ (g_world s)) by congruence.
        rewrite (inv_in_flight s I), Ht, count_tasks_replicate. simpl.
        by rewrite Nat.mul_0_r.
      * intros i t Hi. apply lookup_replicate in Hi as [-> _]. simpl.
        exists 0%nat, 0%nat. rewrite Hlog, Hl. simpl. repeat split; constructor.
      * intros [|]; discriminate.
      * done.
  - (* PGather *)
    destruct (gather _) eqn:Hg; try discriminate.
    + (* a child raised: impossible, every finished child has returned *)
      apply gather_raised in Hg. apply list_elem_of_fmap in Hg as (t & Hr & Ht).
      apply list_elem_of_lookup in Ht as [i Hi].
      destruct (inv_workers s I i t Hi) as (n & m & _ & _ & Hst).
      destruct (t_state t); try discriminate. simpl in Hr. inversion Hr; subst.
      by destruct Hst as (_ & _ & _ & _ & [v ?] & _).
    + split_segment H. seg_log Eseg. inversion H; subst; clear H.
      destruct (inv_gate s I) as (Hc & Hlen & Hs0 & Hs); [congruence|congruence|].
      split; simpl.
      * done.
      * done.
      * done.
      * rewrite (in_flight_log _ (emit (EvSleep Main (checkpoint_delay 256)) (g_world s))) by done.
        rewrite in_flight_emit. simpl. rewrite (inv_in_flight s I). lia.
      * intros i t Hi. rewrite Hlog. apply worker_log_inv_other; [done|].
        by apply (inv_workers s I).
      * intros _. apply gather_returned in Hg. rewrite Forall_fmap in Hg.
        eapply Forall_impl; [exact Hg|]. simpl. intros t [v Hv].
        destruct (t_state t); try discriminate. inversion Hv; eauto.
      * done.
  - (* PCheckpoint *)
    unfold checkpoint_write_end in H.
    split_segment H. seg_log Eseg. split_segment H. seg_log Eseg0.
    inversion H; subst; clear H.
    destruct (inv_gate s I) as (Hc & Hlen & Hs0 & Hs); [congruence|congruence|].
    split; simpl.
    + done.
    + done.
    + done.
    + rewrite (in_flight_log _ (g_world s)) by congruence. apply (inv_in_flight s I).
    + intros i t Hi. rewrite Hlog0, Hlog. by apply (inv_workers s I).
    + intros _. apply (inv_join s I). by left.
    + done.
Qed.

Lemma worker_log_inv_others l evs i st :
  Forall (fun ev => task_eqb (Worker i) (event_task ev) = false) evs ->
  worker_log_inv l i st -> worker_log_inv (l ++ evs) i st.
Proof.
  revert l. induction evs as [|ev evs IH]; intros l Hall H.
  - by rewrite app_nil_r.
  - inversion Hall; subst. rewrite cons_middle, app_assoc.
    apply IH; [done|]. by apply worker_log_inv_other.
Qed.

(** A segment of worker [i] changes its own entry only; what remains to
    be checked is the worker's own log and the two counters. *)
Lemma retry_worker_update s i ctx st ctx' st' sem' w' evs :
  retry_inv s ->
  g_tasks s !! i = Some (Task ctx st) ->
  (forall v, st <> RDone (Return v)) ->
  log w' = log (g_world s) ++ evs ->
  Forall (fun ev => event_task ev = Worker i) evs ->
  worker_log_inv (log w') i st' ->
  0 <= sem' ->
  sem' + Z.of_nat (b2n (holds_gate st')) = g_sem s + Z.of_nat (b2n (holds_gate st)) ->
  in_flight w' + Z.of_nat (b2n (awaits_response st)) =
    in_flight (g_world s) + Z.of_nat (b2n (awaits_response st')) ->
  retry_inv (Gated (g_pc s) (g_ctx s) sem' (<[i := Task ctx' st']> (g_tasks s)) w').
Proof.
  intros I Hi Hnd Hlog Hevs Hw Hsem0 Hsem Hfl.
  assert (g_pc s <> PStart) as Hns.
  { intros Hpc. destruct (inv_not_started s I Hpc) as [Ht _]. by rewrite Ht in Hi. }
  assert (forall exc, g_pc s <> PRaised exc) as Hnr.
  { intros exc Hpc. destruct (inv_raised s I exc Hpc) as (_ & Ht & _). by rewrite Ht in Hi. }
  destruct (inv_gate s I Hns Hnr) as (Hc & Hlen & Hs0 & Hs).
  pose proof (count_tasks_insert holds_gate _ i _ (Task ctx' st') Hi) as Hcg.
  pose proof (count_tasks_insert awaits_response _ i _ (Task ctx' st') Hi) as Hca.
  simpl in Hcg, Hca.
  split; simpl.
  - done.
  - intros exc Hpc. by destruct (Hnr exc).
  - intros _ _. rewrite length_insert. repeat split; [done|done|done|lia].
  - rewrite (inv_in_flight s I) in Hfl. lia.
  - intros j t Hj. destruct (decide (j = i)) as [->|Hne].
    + rewrite list_lookup_insert_eq in Hj by (by eapply lookup_lt_Some).
      by inversion Hj; subst.
    + rewrite list_lookup_insert_ne in Hj by done. rewrite Hlog.
      apply worker_log_inv_others; [|by apply (inv_workers s I)].
      eapply Forall_impl; [exact Hevs|]. cbv beta. intros ev ->.
      rewrite task_eqb_worker. by apply bool_decide_eq_false_2.
  - intros Hpc. pose proof (inv_join s I Hpc) as Hall.
    rewrite Forall_lookup in Hall. destruct (Hall i _ Hi) as [v Hv].
    by destruct (Hnd v).
  - apply (inv_no_aggregator s I).
Qed.

Lemma attempts_made_S i n :
  attempts_made i (S n) = attempts_made i n ++ [request i (Z.of_nat n)].
Proof. unfold attempts_made. by rewrite seq_S, map_app. Qed.

Lemma backoffs_S (l : list Q) (b : Q) (m : nat) :
  Forall2 Qeq l (map backoff_at (seq 0 m)) -> b == backoff_at m ->
  Forall2 Qeq (l ++ [b]) (map backoff_at (seq 0 (S m))).
Proof.
  intros Hl Hb. rewrite seq_S, map_app. apply Forall2_app; [done|].
  by repeat constructor.
Qed.

Lemma call_tool_recv_raise t rq code detail ctx w :
  exists exc, (call_tool_recv e t rq (ToolService.HTTPException code detail) ctx w).1 = Raise exc.
Proof. by eexists. Qed.

Ltac own_log :=
  rewrite ?requests_of_snoc, ?sleeps_of_snoc, ?acquires_of_snoc, ?releases_of_snoc;
  simpl; rewrite ?Nat.eqb_refl, ?app_nil_r, ?Nat.add_0_r.

Lemma retry_worker_step_inv i draw s s' :
  retry_inv s ->
  retry_worker_step e delay_ms error_rate max_retries i draw s = Some s' ->
  retry_inv s'.
Proof.
  intros I H. unfold retry_worker_step in H.
  destruct (g_tasks s !! i) as [[ctx st]|] eqn:Hi; [|discriminate].
  destruct (inv_workers s I i _ Hi) as (n & m & Hrq & Hsl & Hst). simpl in Hst.
  assert (0 <= g_sem s) as Hs0.
  { destruct (inv_gate s I) as (_ & _ & Hs0 & _); [| |done].
    - intros Hpc. destruct (inv_not_started s I Hpc) as [Ht _]. by rewrite Ht in Hi.
    - intros x Hpc. destruct (inv_raised s I x Hpc) as (_ & Ht & _). by rewrite Ht in Hi. }
  destruct st as [|a b|a b|r].
  - (* RCreated: pass the gate and send the first request *)
    destruct (0 <? g_sem s) eqn:Hsem; [|discriminate]. apply Z.ltb_lt in Hsem.
    split_segment H. seg_log Eseg. inversion H; subst; clear H.
    destruct Hst as (-> & -> & Hacq & Hrel).
    refine (retry_worker_update s i _ _ _ _ _ _
              [EvAcquire (Worker i); EvRequest (Worker i) (request i 0)]
              I Hi _ _ _ _ _ _ _).
    + done.
    + by rewrite Hlog, <- app_assoc.
    + by repeat constructor.
    + exists 1%nat, 0%nat. rewrite Hlog. own_log.
      rewrite Hrq, Hacq, Hrel. simpl in Hsl |- *.
      repeat split; try done. by left.
    + lia.
    + simpl. lia.
    + rewrite (in_flight_log _ (emit (EvRequest (Worker i) (request i 0))
                 (emit (EvAcquire (Worker i)) (g_world s)))) by done.
      rewrite !in_flight_emit. simpl. lia.
  - (* RCalling: the response arrives *)
    destruct (valid_draw draw) eqn:Hd; [|discriminate].
    destruct Hst as (-> & -> & Hb & Hm & Hacq & Hrel).
    destruct (call_tool_recv _ _ _ _ _ _) as [res [ctx1 w1]] eqn:Er.
    pose proof (call_tool_recv_log e (Worker i) (request i (Z.of_nat m))
                  (backend_response e (request i (Z.of_nat m)) draw) ctx (g_world s)) as Hlog.
    rewrite Er in Hlog. simpl in Hlog.
    assert ((1 <= error_rate)%Q -> exists exc, res = Raise exc) as Hfail.
    { intros He.
      destruct (backend_fails_when_rate_one e (request i (Z.of_nat m)) draw Hd He) as [detail Hresp].
      rewrite Hresp in Er.
      destruct (call_tool_recv_raise (Worker i) (request i (Z.of_nat m)) 503 detail ctx (g_world s)) as [exc Hx].
      rewrite Er in Hx. eauto. }
    set (resp := backend_response e (request i (Z.of_nat m)) draw) in *.
    destruct res as [v|exc].
    + (* success *)
      inversion H; subst; clear H.
      refine (retry_worker_update s i _ _ _ _ _ _
                [EvResponse (Worker i) resp; EvRelease (Worker i)]
                I Hi _ _ _ _ _ _ _).
      * done.
      * simpl. by rewrite Hlog, <- app_assoc.
      * by repeat constructor.
      * exists (S m), m. simpl. rewrite Hlog. own_log.
        rewrite Hrq, Hacq, Hrel.
        split; [done|]. split; [done|]. split; [done|].
        split; [destruct Hm as [->|Hm]; [by left|right; lia]|].
        split; [done|]. split; [done|]. split; [eauto|].
        intros He. by destruct (Hfail He) as [? ?].
      * lia.
      * simpl. lia.
      * rewrite (in_flight_log _ (emit (EvRelease (Worker i))
                   (emit (EvResponse (Worker i) resp) (g_world s)))).
        -- rewrite !in_flight_emit. simpl. lia.
        -- simpl. by rewrite Hlog.
    + (* failure *)
      destruct (Z.of_nat m + 1 >? max_retries) eqn:Hex.
      * (* exhausted *)
        inversion H; subst; clear H. apply Z.gtb_lt in Hex.
        refine (retry_worker_update s i _ _ _ _ _ _
                  [EvResponse (Worker i) resp; EvRelease (Worker i)]
                  I Hi _ _ _ _ _ _ _).
        -- done.
        -- simpl. by rewrite Hlog, <- app_assoc.
        -- by repeat constructor.
        -- exists (S m), m. simpl. rewrite Hlog. own_log.
           rewrite Hrq, Hacq, Hrel.
           split; [done|]. split; [done|]. split; [done|].
           split; [destruct Hm as [->|Hm]; [by left|right; lia]|].
           split; [done|]. split; [done|]. split; [eauto|].
           intros _. split; [done|lia].
        -- lia.
        -- simpl. lia.
        -- rewrite (in_flight_log _ (emit (EvRelease (Worker i))
                     (emit (EvResponse (Worker i) resp) (g_world s)))).
           ++ rewrite !in_flight_emit. simpl. lia.
           ++ simpl. by rewrite Hlog.
      * (* back off *)
        inversion H; subst; clear H.
        assert (Z.of_nat m + 1 <= max_retries) as Hle.
        { destruct (Z.gtb_spec (Z.of_nat m + 1) max_retries); [discriminate|lia]. }
        refine (retry_worker_update s i _ _ _ _ _ _
                  [EvResponse (Worker i) resp; EvSleep (Worker i) b]
                  I Hi _ _ _ _ _ _ _).
        -- done.
        -- simpl. by rewrite Hlog, <- app_assoc.
        -- by repeat constructor.
        -- exists (S m), (S m). simpl log. rewrite Hlog. own_log.
           rewrite Hrq, Hacq, Hrel.
           split; [done|]. split; [by apply backoffs_S|].
           rewrite Nat.sub_0_r.
           repeat split; try done; lia.
        -- lia.
        -- simpl. lia.
        -- rewrite (in_flight_log _ (emit (EvSleep (Worker i) b)
                     (emit (EvResponse (Worker i) resp) (g_world s)))).
           ++ rewrite !in_flight_emit. simpl. lia.
           ++ simpl. by rewrite Hlog.
  - (* RSleeping: wake up, double the backoff, next attempt *)
    split_segment H. seg_log Eseg. inversion H; subst; clear H.
    destruct Hst as (-> & -> & Hm1 & Hle & Hb & Hacq & Hrel).
    refine (retry_worker_update s i _ _ _ _ _ _
              [EvRequest (Worker i) (request i (Z.of_nat m))]
              I Hi _ _ _ _ _ _ _).
    + done.
    + done.
    + by repeat constructor.
    + exists (S m), m. rewrite Hlog. own_log.
      rewrite Hrq, Hacq, Hrel.
      split; [by rewrite attempts_made_S|]. split; [done|].
      repeat split; try done; [|by right].
      rewrite Hb, backoff_at_S. by replace (S (m - 1)) with m by lia.
    + lia.
    + simpl. lia.
    + rewrite (in_flight_log _ (emit (EvRequest (Worker i) (request i (Z.of_nat m))) (g_world s))) by done.
      rewrite in_flight_emit. simpl. lia.
  - discriminate.
Qed.

Lemma retry_step_inv l s s' :
  retry_inv s -> step l s = Some s' -> retry_inv s'.
Proof.
  unfold retry_step. destruct (lbl_task l).
  - apply retry_planner_step_inv.
  - apply retry_worker_step_inv.
Qed.

Lemma retry_reachable_inv ctx w s :
  log w = [] -> reachable step (retry_init ctx w) s -> retry_inv s.
Proof.
  intros Hw. apply reachable_invariant.
  - by apply retry_inv_init.
  - intros ? ? ? ? ?. by eapply retry_step_inv.
Qed.

End RetryInvariant.

(** ** Spans *)

Section SpanFacts.
Variable e : env.

Lemma attrs_kind a k (extra : gmap string attr_value) :
  extra !! "ati.span.kind" = None -> _attrs e a k extra !! "ati.span.kind" = Some (AStr k).
Proof.
  intros H. unfold _attrs. rewrite lookup_union_r by done.
  rewrite lookup_insert_ne by done. by rewrite lookup_insert_eq.
Qed.

Lemma has_kind_attrs n p a k extra t o k' :
  extra !! "ati.span.kind" = None ->
  has_kind k' (Span n p (_attrs e a k extra) t o) = String.eqb k k'.
Proof. intros H. unfold has_kind, span_kind. simpl. by rewrite attrs_kind. Qed.

Lemma set_end_kind k t sp : has_kind k (set_end t sp) = has_kind k sp.
Proof. unfold set_end. by destruct (end_time sp). Qed.

Lemma set_end_parent t sp : span_parent (set_end t sp) = span_parent sp.
Proof. unfold set_end. by destruct (end_time sp). Qed.

Lemma set_end_attributes t sp : span_attributes (set_end t sp) = span_attributes sp.
Proof. unfold set_end. by destruct (end_time sp). Qed.

Lemma set_end_name t sp : span_name (set_end t sp) = span_name sp.
Proof. unfold set_end. by destruct (end_time sp). Qed.

Lemma set_end_start t sp : start_time (set_end t sp) = start_time sp.
Proof. unfold set_end. by destruct (end_time sp). Qed.

Lemma set_end_closed t sp : is_open (set_end t sp) = false.
Proof. unfold set_end, is_open. by destruct (end_time sp) eqn:E; simpl; rewrite ?E. Qed.

Lemma set_end_end t sp :
  end_time (set_end t sp) = Some (match end_time sp with Some t0 => t0 | None => t end).
Proof. unfold set_end. by destruct (end_time sp) eqn:E; simpl; rewrite ?E. Qed.

Lemma set_end_of_closed t sp : is_open sp = false -> set_end t sp = sp.
Proof. unfold set_end, is_open. by destruct (end_time sp). Qed.

(** A span read after some span was ended is the old span, possibly
    ended. *)
Lemma lookup_alter_set_end t id (l : list span) k sp' :
  alter (set_end t) id l !! k = Some sp' ->
  exists sp, l !! k = Some sp /\ (sp' = sp \/ (k = id /\ sp' = set_end t sp)).
Proof.
  rewrite list_lookup_alter. destruct (decide (id = k)) as [->|Hne].
  - destruct (l !! k) as [sp|]; [|discriminate]. simpl. intros H. inversion H; subst.
    exists sp. split; [done|]. by right.
  - intros H. exists sp'. split; [done|]. by left.
Qed.

Lemma lookup_alter_set_end_Some t id (l : list span) k sp :
  l !! k = Some sp ->
  exists sp', alter (set_end t) id l !! k = Some sp' /\ (sp' = sp \/ sp' = set_end t sp).
Proof.
  intros H. rewrite list_lookup_alter. destruct (decide (id = k)) as [->|Hne].
  - rewrite H. simpl. by eexists; split; [|right].
  - by eexists; split; [|left].
Qed.

(** What each helper segment returns. *)
Lemma start_span_inv name attrs ctx w ctx' w' :
  start_as_current_span e name attrs ctx w = (ctx', w') ->
  ctx' = length (spans w) :: ctx /\
  spans w' = spans w ++ [Span name (head ctx) attrs (now e (reads w)) None] /\
  reads w' = S (reads w) /\ log w' = log w.
Proof. unfold start_as_current_span. intros H. by inversion H. Qed.

Lemma exit_span_inv id ctx w ctx' w' :
  exit_span e (id :: ctx) w = (ctx', w') ->
  ctx' = ctx /\
  spans w' = alter (set_end (now e (reads w))) id (spans w) /\
  reads w' = S (reads w) /\ log w' = log w.
Proof. simpl. intros H. by inversion H. Qed.

Lemma call_tool_send_inv t rq ctx w ctx' w' :
  call_tool_send e t rq ctx w = (ctx', w') ->
  exists sp,
    ctx' = length (spans w) :: ctx /\
    spans w' = spans w ++ [sp] /\
    has_kind "tool_call" sp = true /\ span_parent sp = head ctx /\
    start_time sp = now e (reads w) /\ end_time sp = None /\
    reads w' = S (reads w) /\ log w' = log w ++ [EvRequest t rq].
Proof.
  unfold call_tool_send, start_as_current_span, emit. intros H. inversion H; subst; clear H.
  eexists. split; [done|]. split; [done|]. split; [|done].
  by rewrite has_kind_attrs.
Qed.

Lemma call_tool_recv_inv t rq r id ctx w res ctx' w' :
  call_tool_recv e t rq r (id :: ctx) w = (res, (ctx', w')) ->
  ctx' = ctx /\
  spans w' = alter (set_end (now e (reads w))) id (spans w) /\
  reads w' = S (reads w) /\ log w' = log w ++ [EvResponse t r].
Proof. unfold call_tool_recv. simpl. intros H. by inversion H. Qed.

Lemma checkpoint_write_begin_inv t size_kb agent_id ctx w ctx' w' :
  checkpoint_write_begin e t size_kb agent_id ctx w = (ctx', w') ->
  exists sp,
    ctx' = length (spans w) :: ctx /\
    spans w' = spans w ++ [sp] /\
    has_kind "checkpoint" sp = true /\ span_parent sp = head ctx /\
    span_attributes sp !! "ati.checkpoint.size_kb" = Some (AInt size_kb) /\
    start_time sp = now e (reads w) /\ end_time sp = None /\
    reads w' = S (reads w) /\
    log w' = log w ++ [EvSleep t (checkpoint_delay size_kb)].
Proof.
  unfold checkpoint_write_begin, start_as_current_span, emit. intros H.
  inversion H; subst; clear H.
  eexists. split; [done|]. split; [done|]. split; [by rewrite has_kind_attrs|].
  done.
Qed.

(** Every recorded timestamp is a reading of the clock already taken. *)
Definition stamped (w : world) : Prop :=
  forall k sp, spans w !! k = Some sp ->
    (exists r, (r < reads w)%nat /\ start_time sp = now e r) /\
    (forall t, end_time sp = Some t -> exists r, (r < reads w)%nat /\ t = now e r).

Lemma stamped_empty : stamped empty_world.
Proof. intros k sp H. simpl in H. by rewrite lookup_nil in H. Qed.

Lemma stamped_snoc w w' sp :
  stamped w -> spans w' = spans w ++ [sp] -> reads w' = S (reads w) ->
  start_time sp = now e (reads w) -> end_time sp = None ->
  stamped w'.
Proof.
  intros Hw Hs Hr Hst He k sp' Hk. rewrite Hs in Hk. rewrite Hr.
  apply lookup_app_Some in Hk as [Hk|[_ Hk]].
  - destruct (Hw k sp' Hk) as [(r & ? & ?) Hend]. split; [exists r; split; [lia|done]|].
    intros t Ht. destruct (Hend t Ht) as (r' & ? & ?). exists r'. split; [lia|done].
  - destruct (k - length (spans w))%nat; simpl in Hk; [|by rewrite lookup_nil in Hk].
    inversion Hk; subst. split; [exists (reads w); split; [lia|done]|].
    intros t Ht. congruence.
Qed.

Lemma stamped_alter w w' id :
  stamped w -> spans w' = alter (set_end (now e (reads w))) id (spans w) ->
  reads w' = S (reads w) ->
  stamped w'.
Proof.
  intros Hw Hs Hr k sp' Hk. rewrite Hs in Hk. rewrite Hr.
  apply lookup_alter_set_end in Hk as (sp & Hk & Hsp).
  destruct (Hw k sp Hk) as [(r & ? & Hst) Hend].
  split.
  - exists r. split; [lia|]. destruct Hsp as [->|[_ ->]]; [done|by rewrite set_end_start].
  - intros t Ht. destruct Hsp as [->|[_ ->]].
    + destruct (Hend t Ht) as (r' & ? & ?). exists r'. split; [lia|done].
    + rewrite set_end_end in Ht. destruct (end_time sp) as [t0|] eqn:E.
      * inversion Ht; subst. destruct (Hend t eq_refl) as (r' & ? & ?). exists r'. split; [lia|done].
      * inversion Ht; subst. exists (reads w). split; [lia|done].
Qed.

Lemma stamped_same w w' :
  stamped w -> spans w' = spans w -> (reads w <= reads w')%nat -> stamped w'.
Proof.
  intros Hw Hs Hr k sp Hk. rewrite Hs in Hk.
  destruct (Hw k sp Hk) as [(r & ? & ?) Hend]. split; [exists r; split; [lia|done]|].
  intros t Ht. destruct (Hend t Ht) as (r' & ? & ?). exists r'. split; [lia|done].
Qed.

End SpanFacts.

(** Rewrite the equation of a helper segment into what it returned. *)
Ltac seg_inv E :=
  let sp := fresh "sp" in
  let Hsp := fresh "Hspans" in
  let Hrd := fresh "Hreads" in
  let Hlg := fresh "Hlog" in
  let Hk := fresh "Hkind" in
  let Hp := fresh "Hparent" in
  let Hst := fresh "Hstart" in
  let Hen := fresh "Hend" in
  let Ha := fresh "Hattr" in
  match type of E with
  | start_as_current_span _ _ _ _ _ = _ =>
      apply start_span_inv in E as (-> & Hsp & Hrd & Hlg)
  | exit_span _ (_ :: _) _ = _ =>
      apply exit_span_inv in E as (-> & Hsp & Hrd & Hlg)
  | call_tool_send _ _ _ _ _ = _ =>
      apply call_tool_send_inv in E as (sp & -> & Hsp & Hk & Hp & Hst & Hen & Hrd & Hlg)
  | call_tool_recv _ _ _ _ (_ :: _) _ = _ =>
      apply call_tool_recv_inv in E as (-> & Hsp & Hrd & Hlg)
  | checkpoint_write_begin _ _ _ _ _ _ = _ =>
      apply checkpoint_write_begin_inv in E
        as (sp & -> & Hsp & Hk & Hp & Ha & Hst & Hen & Hrd & Hlg)
  end.

(** ** Calls that cannot fail *)

Lemma call_tool_recv_returns e t rq draw ctx w :
  valid_draw draw = true -> (rq_error_rate rq <= 0)%Q -> rq_stream rq = false ->
  exists v, (call_tool_recv e t rq (backend_response e rq draw) ctx w).1 = Return v.
Proof.
  intros Hd He Hs. unfold call_tool_recv. simpl.
  pose proof (backend_succeeds_when_rate_zero e rq draw Hd He) as Hok.
  unfold backend_response in *. rewrite Hs in *. unfold ToolService.tool_call in *.
  destruct (Qlt_bool draw (rq_error_rate rq)); [by destruct (Hok 503 (rq_tool rq +:+ " unavailable"))|].
  simpl. eauto.
Qed.

(** ** The fan-out: the admission gate *)

Definition is_calling (w : call_worker) : bool :=
  match w with CCalling => true | _ => false end.

Definition is_started (w : call_worker) : bool :=
  match w with CCreated => false | _ => true end.

Section FanoutGate.
Variable e : env.
Variables concurrency fanout delay_ms : Z.

Abbreviation fstep := (fanout_step e concurrency fanout delay_ms).

Record fanout_gate_inv (s : gated call_worker) : Prop := FanoutGateInv {
  fg_not_started :
    g_pc s = PStart -> g_tasks s = [] /\ log (g_world s) = [];
  fg_raised :
    forall exc, g_pc s = PRaised exc ->
      concurrency < 0 /\ g_tasks s = [] /\ log (g_world s) = [];
  fg_gate :
    g_pc s <> PStart -> (forall exc, g_pc s <> PRaised exc) ->
      0 <= concurrency /\ length (g_tasks s) = Z.to_nat fanout /\
      0 <= g_sem s /\
      g_sem s + Z.of_nat (count_tasks is_calling (g_tasks s)) = concurrency;
  fg_in_flight :
    in_flight (g_world s) = Z.of_nat (count_tasks is_calling (g_tasks s));
  fg_results :
    forall i t r, g_tasks s !! i = Some t -> t_state t = CDone r -> exists v, r = Return v;
  fg_join :
    g_pc s = PCheckpoint \/ g_pc s = PReturned ->
      Forall (fun t => exists v, t_state t = CDone (Return v)) (g_tasks s);
  fg_no_aggregator : g_pc s <> PAggregator;
}.

Lemma fanout_gate_inv_init ctx w : log w = [] -> fanout_gate_inv (fanout_init ctx w).
Proof.
  intros Hw. split; simpl; try done.
  by unfold in_flight; rewrite Hw.
Qed.

Lemma fanout_planner_step_gate s s' :
  fanout_gate_inv s ->
  fanout_planner_step e concurrency fanout s = Some s' ->
  fanout_gate_inv s'.
Proof.
  intros I H. unfold fanout_planner_step in H.
  destruct (g_pc s) eqn:Hpc; try discriminate.
  - (* PStart *)
    destruct (fg_not_started s I Hpc) as [Ht Hl].
    split_segment H. seg_log Eseg.
    destruct (concurrency <? 0) eqn:Hc.
    + split_segment H. seg_log Eseg0. inversion H; subst; clear H.
      apply Z.ltb_lt in Hc.
      split; simpl.
      * done.
      * intros exc _. split; [done|]. split; [done|]. congruence.
      * intros _ Hx. by destruct (Hx "ValueError").
      * rewrite (in_flight_log _ (g_world s)) by congruence.
        by rewrite (fg_in_flight s I), Ht.
      * done.
      * intros [|]; discriminate.
      * done.
    + inversion H; subst; clear H. apply Z.ltb_ge in Hc.
      split; simpl.
      * done.
      * done.
      * intros _ _. rewrite length_replicate, count_tasks_replicate. simpl. lia.
      * rewrite (in_flight_log _ (g_world s)) by congruence.
        rewrite (fg_in_flight s I), Ht, count_tasks_replicate. simpl.
        by rewrite Nat.mul_0_r.
      * intros i t r Hi. apply lookup_replicate in Hi as [-> _]. discriminate.
      * intros [|]; discriminate.
      * done.
  - (* PGather *)
    destruct (gather _) eqn:Hg; try discriminate.
    + apply gather_raised in Hg. apply list_elem_of_fmap in Hg as (t & Hr & Ht).
      apply list_elem_of_lookup in Ht as [i Hi].
      destruct (t_state t) eqn:Hst; try discriminate. simpl in Hr. inversion Hr; subst.
      by destruct (fg_results s I i t _ Hi Hst).
    + split_segment H. seg_log Eseg. inversion H; subst; clear H.
      destruct (fg_gate s I) as (Hc & Hlen & Hs0 & Hs); [congruence|congruence|].
      split; simpl.
      * done.
      * done.
      * done.
      * rewrite (in_flight_log _ (emit (EvSleep Main (checkpoint_delay 128)) (g_world s))) by done.
        rewrite in_flight_emit. simpl. rewrite (fg_in_flight s I). lia.
      * apply (fg_results s I).
      * intros _. apply gather_returned in Hg. rewrite Forall_fmap in Hg.
        eapply Forall_impl; [exact Hg|]. simpl. intros t [v Hv].
        destruct (t_state t); try discriminate. inversion Hv; eauto.
      * done.
  - (* PCheckpoint *)
    unfold checkpoint_write_end in H.
    split_segment H. seg_log Eseg. split_segment H. seg_log Eseg0.
    inversion H; subst; clear H.
    destruct (fg_gate s I) as (Hc & Hlen & Hs0 & Hs); [congruence|congruence|].
    split; simpl.
    + done.
    + done.
    + done.
    + rewrite (in_flight_log _ (g_world s)) by congruence. apply (fg_in_flight s I).
    + apply (fg_results s I).
    + intros _. apply (fg_join s I). by left.
    + done.
Qed.

Lemma fanout_worker_update s i ctx st ctx' st' sem' w' :
  fanout_gate_inv s ->
  g_tasks s !! i = Some (Task ctx st) ->
  (forall v, st <> CDone (Return v)) ->
  (forall r, st' = CDone r -> exists v, r = Return v) ->
  0 <= sem' ->
  sem' + Z.of_nat (b2n (is_calling st')) = g_sem s + Z.of_nat (b2n (is_calling st)) ->
  in_flight w' + Z.of_nat (b2n (is_calling st)) =
    in_flight (g_world s) + Z.of_nat (b2n (is_calling st')) ->
  fanout_gate_inv (Gated (g_pc s) (g_ctx s) sem' (<[i := Task ctx' st']> (g_tasks s)) w').
Proof.
  intros I Hi Hnd Hres Hsem0 Hsem Hfl.
  assert (g_pc s <> PStart) as Hns.
  { intros Hpc. destruct (fg_not_started s I Hpc) as [Ht _]. by rewrite Ht in Hi. }
  assert (forall exc, g_pc s <> PRaised exc) as Hnr.
  { intros exc Hpc. destruct (fg_raised s I exc Hpc) as (_ & Ht & _). by rewrite Ht in Hi. }
  destruct (fg_gate s I Hns Hnr) as (Hc & Hlen & Hs0 & Hs).
  pose proof (count_tasks_insert is_calling _ i _ (Task ctx' st') Hi) as Hcg.
  simpl in Hcg.
  split; simpl.
  - done.
  - intros exc Hpc. by destruct (Hnr exc).
  - intros _ _. rewrite length_insert. repeat split; [done|done|done|lia].
  - rewrite (fg_in_flight s I) in Hfl. lia.
  - intros j t r Hj Hr. destruct (decide (j = i)) as [->|Hne].
    + rewrite list_lookup_insert_eq in Hj by (by eapply lookup_lt_Some).
      inversion Hj; subst. simpl in Hr. by apply Hres.
    + rewrite list_lookup_insert_ne in Hj by done. by eapply (fg_results s I).
  - intros Hpc. pose proof (fg_join s I Hpc) as Hall.
    rewrite Forall_lookup in Hall. destruct (Hall i _ Hi) as [v Hv].
    by destruct (Hnd v).
  - apply (fg_no_aggregator s I).
Qed.

Lemma fanout_worker_step_gate i draw s s' :
  fanout_gate_inv s ->
  fanout_worker_step e delay_ms i draw s = Some s' ->
  fanout_gate_inv s'.
Proof.
  intros I H. unfold fanout_worker_step in H.
  destruct (g_tasks s !! i) as [[ctx st]|] eqn:Hi; [|discriminate].
  assert (0 <= g_sem s) as Hs0.
  { destruct (fg_gate s I) as (_ & _ & Hs0 & _); [| |done].
    - intros Hpc. destruct (fg_not_started s I Hpc) as [Ht _]. by rewrite Ht in Hi.
    - intros x Hpc. destruct (fg_raised s I x Hpc) as (_ & Ht & _). by rewrite Ht in Hi. }
  destruct st as [| |r].
  - destruct (0 <? g_sem s) eqn:Hsem; [|discriminate]. apply Z.ltb_lt in Hsem.
    split_segment H. seg_log Eseg. split_segment H. seg_log Eseg0.
    inversion H; subst; clear H.
    refine (fanout_worker_update s i _ _ _ _ _ _ I Hi _ _ _ _ _).
    + done.
    + done.
    + lia.
    + simpl. lia.
    + rewrite (in_flight_log _ (emit (EvRequest (Worker i) (fanout_request delay_ms i))
                 (emit (EvAcquire (Worker i)) (g_world s)))).
      * rewrite !in_flight_emit. simpl. lia.
      * simpl. by rewrite Hlog0, Hlog.
  - destruct (valid_draw draw) eqn:Hd; [|discriminate].
    destruct (call_tool_recv_returns e (Worker i) (fanout_request delay_ms i) draw ctx (g_world s) Hd)
      as [v Hv]; [done|done|].
    destruct (call_tool_recv _ _ _ _ _ _) as [res [ctx1 w1]] eqn:Er.
    pose proof (call_tool_recv_log e (Worker i) (fanout_request delay_ms i)
                  (backend_response e (fanout_request delay_ms i) draw) ctx (g_world s)) as Hlog.
    rewrite Er in Hlog. simpl in Hlog, Hv. subst res.
    split_segment H. seg_log Eseg. inversion H; subst; clear H.
    refine (fanout_worker_update s i _ _ _ _ _ _ I Hi _ _ _ _ _).
    + done.
    + intros r Hr. inversion Hr; eauto.
    + lia.
    + simpl. lia.
    + set (resp := backend_response e (fanout_request delay_ms i) draw) in *.
      rewrite (in_flight_log _ (emit (EvRelease (Worker i))
                 (emit (EvResponse (Worker i) resp) (g_world s)))).
      * rewrite !in_flight_emit. simpl. lia.
      * simpl. by rewrite Hlog0, Hlog.
  - discriminate.
Qed.

Lemma fanout_step_gate l s s' :
  fanout_gate_inv s -> fstep l s = Some s' -> fanout_gate_inv s'.
Proof.
  unfold fanout_step. destruct (lbl_task l).
  - apply fanout_planner_step_gate.
  - apply fanout_worker_step_gate.
Qed.

End FanoutGate.

Lemma has_kind_unique k k' sp :
  has_kind k sp = true -> has_kind k' sp = true -> k = k'.
Proof.
  unfold has_kind. destruct (span_kind sp) as [[s| |]|]; try discriminate.
  intros H1%String.eqb_eq H2%String.eqb_eq. congruence.
Qed.

Lemma has_kind_other k k' sp :
  has_kind k sp = true -> k <> k' -> has_kind k' sp = false.
Proof.
  intros H Hne. destruct (has_kind k' sp) eqn:E; [|done].
  by destruct Hne; eapply has_kind_unique.
Qed.

Lemma count_alter_le {A : Type} (p : A -> bool) (f : A -> A) (l : list A) (i : nat) :
  (forall x, p (f x) = true -> p x = true) -> (count p (alter f i l) <= count p l)%nat.
Proof.
  intros Hf. revert i. induction l as [|a l IH]; intros [|i]; simpl; try done.
  - rewrite !count_cons. specialize (Hf a). destruct (p (f a)), (p a); simpl; lia.
  - specialize (IH i). unfold alter in IH. rewrite !count_cons. lia.
Qed.

(** ** The fan-out: the span tree *)

Definition open_worker (sp : span) : bool := has_kind "worker" sp && is_open sp.

Section FanoutSpans.
Variable e : env.
Variables concurrency fanout delay_ms : Z.
Variable ctx0 : list nat.

(** The spans task [i] is inside of. *)
Definition fanout_task_spans (w : world) (i : nat) (t : task call_worker) : Prop :=
  match t_state t with
  | CCreated => t_ctx t = 0%nat :: ctx0
  | CCalling =>
      exists tid wid sw st,
        t_ctx t = tid :: wid :: 0%nat :: ctx0 /\
        spans w !! wid = Some sw /\ has_kind "worker" sw = true /\ is_open sw = true /\
        span_attributes sw !! "ati.worker.index" = Some (AInt (Z.of_nat i)) /\
        spans w !! tid = Some st /\ has_kind "tool_call" st = true /\ is_open st = true /\
        span_parent st = Some wid
  | CDone _ => t_ctx t = 0%nat :: ctx0
  end.

Record fanout_span_inv (s : gated call_worker) : Prop := FanoutSpanInv {
  fs_start : g_pc s = PStart -> spans (g_world s) = [] /\ g_ctx s = ctx0;
  fs_planner :
    g_pc s <> PStart ->
    exists sp, spans (g_world s) !! 0%nat = Some sp /\ has_kind "planner" sp = true /\
               span_parent sp = head ctx0 /\
               count (has_kind "planner") (spans (g_world s)) = 1%nat;
  fs_parent :
    forall k sp, spans (g_world s) !! k = Some sp -> has_kind "worker" sp = true ->
                 span_parent sp = Some 0%nat;
  fs_workers :
    count (has_kind "worker") (spans (g_world s)) = count_tasks is_started (g_tasks s);
  fs_open :
    count open_worker (spans (g_world s)) = count_tasks is_calling (g_tasks s);
  fs_tasks :
    forall i t, g_tasks s !! i = Some t -> fanout_task_spans (g_world s) i t;
  fs_gather : g_pc s = PGather -> g_ctx s = 0%nat :: ctx0;
  fs_checkpoints :
    count (has_kind "checkpoint") (spans (g_world s)) =
    match g_pc s with PCheckpoint | PReturned => 1%nat | _ => 0%nat end;
  fs_last :
    g_pc s = PCheckpoint \/ g_pc s = PReturned ->
    exists ck, last (spans (g_world s)) = Some ck /\ has_kind "checkpoint" ck = true /\
               span_parent ck = Some 0%nat;
  fs_checkpoint_ctx :
    g_pc s = PCheckpoint ->
    g_ctx s = (length (spans (g_world s)) - 1)%nat :: 0%nat :: ctx0;
}.

Lemma fanout_span_inv_init : fanout_span_inv (fanout_init ctx0 empty_world).
Proof.
  split; simpl; try done.
  intros [|]; discriminate.
Qed.

Lemma fanout_task_spans_app w w' l i t :
  spans w' = spans w ++ l -> fanout_task_spans w i t -> fanout_task_spans w' i t.
Proof.
  intros Hs. unfold fanout_task_spans. destruct (t_state t); try done.
  intros (tid & wid & sw & st & Hc & Hw & ? & ? & ? & Ht & ? & ? & ?).
  exists tid, wid, sw, st. rewrite Hs.
  rewrite !lookup_app_l by (by eapply lookup_lt_Some). done.
Qed.

Lemma fanout_task_spans_done w w' i t r :
  t_state t = CDone r -> fanout_task_spans w i t -> fanout_task_spans w' i t.
Proof. unfold fanout_task_spans. by intros ->. Qed.

Lemma fanout_planner_step_spans s s' :
  fanout_gate_inv concurrency fanout s -> fanout_span_inv s ->
  fanout_planner_step e concurrency fanout s = Some s' ->
  fanout_span_inv s'.
Proof.
  intros I J H. unfold fanout_planner_step in H.
  destruct (g_pc s) eqn:Hpc; try discriminate.
  - (* PStart *)
    destruct (fg_not_started _ _ s I Hpc) as [Ht _].
    destruct (fs_start s J Hpc) as [Hsp Hctx].
    split_segment H.
    pose proof (has_kind_attrs e "planner" (head (g_ctx s)) "planner:v1" "planner"
      {[ "ati.fanout" := AInt fanout; "ati.concurrency" := AInt concurrency ]}
      (now e (reads (g_world s))) None) as Hk.
    seg_inv Eseg. rewrite Hsp, Hctx in *. simpl in Hspans, H.
    set (P := Span "planner" _ _ _ _) in *.
    assert (has_kind "planner" P = true) as HkP by (by rewrite Hk).
    assert (has_kind "worker" P = false) as HwP by (by rewrite Hk).
    assert (has_kind "checkpoint" P = false) as HcP by (by rewrite Hk).
    clear Hk.
    destruct (concurrency <? 0) eqn:Hc.
    + inversion H; subst; clear H.
      split; simpl; rewrite ?Hspans; simpl.
      * done.
      * intros _. eexists. split; [done|]. rewrite set_end_kind, set_end_parent.
        split; [done|]. split; [done|]. by rewrite count_cons, set_end_kind, HkP.
      * intros [|k] sp Hk; simpl in Hk; [|by rewrite lookup_nil in Hk].
        inversion Hk; subst. by rewrite set_end_kind, HwP.
      * by rewrite count_cons, set_end_kind, HwP.
      * unfold open_worker. by rewrite count_cons, set_end_kind, HwP.
      * intros i t Hi. by rewrite lookup_nil in Hi.
      * done.
      * by rewrite count_cons, set_end_kind, HcP.
      * intros [|]; discriminate.
      * done.
    + inversion H; subst; clear H.
      split; simpl; rewrite ?Hspans.
      * done.
      * intros _. exists P. split; [done|]. split; [done|]. split; [done|].
        by rewrite count_cons, HkP.
      * intros [|k] sp Hk; simpl in Hk; [|by rewrite lookup_nil in Hk].
        inversion Hk; subst. by rewrite HwP.
      * rewrite count_cons, HwP, count_tasks_replicate. simpl. by rewrite Nat.mul_0_r.
      * unfold open_worker. rewrite count_cons, HwP, count_tasks_replicate. simpl.
        by rewrite Nat.mul_0_r.
      * intros i t Hi. apply lookup_replicate in Hi as [-> _]. done.
      * done.
      * by rewrite count_cons, HcP.
      * intros [|]; discriminate.
      * done.
  - (* PGather *)
    destruct (gather _) eqn:Hg; try discriminate.
    + apply gather_raised in Hg. apply list_elem_of_fmap in Hg as (t & Hr & Ht).
      apply list_elem_of_lookup in Ht as [i Hi].
      destruct (t_state t) eqn:Hst; try discriminate. simpl in Hr. inversion Hr; subst.
      by destruct (fg_results _ _ s I i t _ Hi Hst).
    + split_segment H. seg_inv Eseg. inversion H; subst; clear H.
      destruct (fs_planner s J) as (P & HP & HkP & HpP & HcP); [congruence|].
      pose proof (fs_gather s J Hpc) as Hctx. rewrite Hctx in *. simpl in Hparent.
      assert (has_kind "planner" sp = false) as Hk1 by (by eapply has_kind_other).
      assert (has_kind "worker" sp = false) as Hk2 by (by eapply has_kind_other).
      split; simpl; rewrite ?Hspans.
      * done.
      * intros _. exists P. rewrite lookup_app_l by (by eapply lookup_lt_Some).
        split; [done|]. split; [done|]. split; [done|].
        by rewrite count_snoc, Hk1, HcP.
      * intros k sp' Hk Hw. apply lookup_app_Some in Hk as [Hk|[_ Hk]].
        -- by eapply (fs_parent s J).
        -- destruct (k - length (spans (g_world s)))%nat; simpl in Hk;
             [|by rewrite lookup_nil in Hk].
           inversion Hk; subst. congruence.
      * rewrite count_snoc, Hk2, (fs_workers s J). simpl. lia.
      * unfold open_worker at 1. rewrite count_snoc. fold open_worker.
        rewrite Hk2, (fs_open s J). simpl. lia.
      * intros i t Hi. eapply fanout_task_spans_app; [done|]. by apply (fs_tasks s J).
      * done.
      * rewrite count_snoc, Hkind, (fs_checkpoints s J), Hpc. done.
      * intros _. exists sp. by rewrite last_snoc.
      * intros _. rewrite length_app. simpl. do 3 f_equal. lia.
  - (* PCheckpoint *)
    unfold checkpoint_write_end in H.
    pose proof (fs_checkpoint_ctx s J Hpc) as Hctx. rewrite Hctx in H.
    split_segment H. seg_inv Eseg. split_segment H. seg_inv Eseg.
    inversion H; subst; clear H.
    destruct (fs_planner s J) as (P & HP & HkP & HpP & HcP); [congruence|].
    destruct (fs_last s J) as (ck & Hck & Hkck & Hpck); [by left|].
    assert (Forall (fun t => exists v, t_state t = CDone (Return v)) (g_tasks s)) as Hdone.
    { apply (fg_join _ _ s I). by left. }
    set (l' := alter _ _ (spans (g_world s))) in *.
    split; simpl; rewrite ?Hspans0, ?Hspans.
    + done.
    + intros _.
      assert (exists P', alter (set_end (now e (reads w))) 0%nat l' !! 0%nat = Some P' /\
                has_kind "planner" P' = true /\ span_parent P' = head ctx0) as (P' & ? & ? & ?).
      { destruct (lookup_alter_set_end_Some (now e (reads (g_world s)))
                    (length (spans (g_world s)) - 1) _ _ _ HP) as (P1 & HP1 & HPe1).
        fold l' in HP1.
        destruct (lookup_alter_set_end_Some (now e (reads w)) 0 _ _ _ HP1) as (P2 & HP2 & HPe2).
        exists P2. split; [done|].
        destruct HPe1 as [->| ->], HPe2 as [->| ->];
          rewrite ?set_end_kind, ?set_end_parent; done. }
      exists P'. split; [done|]. split; [done|]. split; [done|].
      rewrite count_alter_same by (intros; apply set_end_kind).
      unfold l'. by rewrite count_alter_same by (intros; apply set_end_kind).
    + intros k sp' Hk Hw.
      apply lookup_alter_set_end in Hk as (sp1 & Hk & Hsp1).
      apply lookup_alter_set_end in Hk as (sp2 & Hk & Hsp2).
      assert (has_kind "worker" sp' = has_kind "worker" sp2 /\ span_parent sp' = span_parent sp2)
        as [Hkk Hpp].
      { destruct Hsp1 as [->|[_ ->]], Hsp2 as [->|[_ ->]];
          rewrite ?set_end_kind, ?set_end_parent; done. }
      rewrite Hpp. eapply (fs_parent s J); [done|congruence].
    + rewrite count_alter_same by (intros; apply set_end_kind).
      unfold l'. rewrite count_alter_same by (intros; apply set_end_kind).
      apply (fs_workers s J).
    + assert (count_tasks is_calling (g_tasks s) = 0%nat) as Hz.
      { clear -Hdone. unfold count_tasks. induction Hdone as [|t l [v Hv] _ IH]; [done|].
        by rewrite count_cons, Hv, IH. }
      rewrite Hz. pose proof (fs_open s J) as Ho. rewrite Hz in Ho.
      assert (forall t x, open_worker (set_end t x) = true -> open_worker x = true) as Hmono.
      { intros t x. unfold open_worker. by rewrite set_end_closed, andb_false_r. }
      pose proof (count_alter_le open_worker (set_end (now e (reads w))) l' 0 (Hmono _)).
      pose proof (count_alter_le open_worker (set_end (now e (reads (g_world s))))
                    (spans (g_world s)) (length (spans (g_world s)) - 1) (Hmono _)).
      fold l' in H0. lia.
    + intros i t Hi. rewrite Forall_lookup in Hdone. destruct (Hdone i t Hi) as [v Hv].
      eapply fanout_task_spans_done; [done|]. by apply (fs_tasks s J).
    + done.
    + rewrite count_alter_same by (intros; apply set_end_kind).
      unfold l'. rewrite count_alter_same by (intros; apply set_end_kind).
      by rewrite (fs_checkpoints s J), Hpc.
    + intros _. rewrite last_lookup, length_alter. unfold l' at 1. rewrite length_alter.
      rewrite last_lookup in Hck.
      assert (exists ck', alter (set_end (now e (reads w))) 0%nat l' !! pred (length (spans (g_world s))) = Some ck' /\
               has_kind "checkpoint" ck' = true /\ span_parent ck' = Some 0%nat) as (ck' & ? & ? & ?).
      { destruct (lookup_alter_set_end_Some (now e (reads (g_world s)))
                    (length (spans (g_world s)) - 1) _ _ _ Hck) as (c1 & Hc1 & Hce1).
        fold l' in Hc1.
        destruct (lookup_alter_set_end_Some (now e (reads w)) 0 _ _ _ Hc1) as (c2 & Hc2 & Hce2).
        exists c2. split; [done|].
        destruct Hce1 as [->| ->], Hce2 as [->| ->];
          rewrite ?set_end_kind, ?set_end_parent; done. }
      by exists ck'.
    + done.
Qed.

Lemma fanout_worker_step_spans i draw s s' :
  fanout_gate_inv concurrency fanout s -> fanout_span_inv s ->
  fanout_worker_step e delay_ms i draw s = Some s' ->
  fanout_span_inv s'.
Proof.
  intros I J H. unfold fanout_worker_step in H.
  destruct (g_tasks s !! i) as [[ctx st]|] eqn:Hi; [|discriminate].
  assert (g_pc s <> PStart) as Hns.
  { intros Hpc. destruct (fg_not_started _ _ s I Hpc) as [Ht _]. by rewrite Ht in Hi. }
  assert ((forall v, st <> CDone (Return v)) ->
            ~ (g_pc s = PCheckpoint \/ g_pc s = PReturned)) as Hrun.
  { intros Hnd Hpc. pose proof (fg_join _ _ s I Hpc) as Hall.
    rewrite Forall_lookup in Hall. destruct (Hall i _ Hi) as [v Hv]. simpl in Hv.
    by destruct (Hnd v). }
  destruct (fs_planner s J Hns) as (P & HP & HkP & HpP & HcP).
  pose proof (fs_tasks s J i _ Hi) as Hti. unfold fanout_task_spans in Hti. simpl in Hti.
  destruct st as [| |r].
  - (* CCreated: pass the gate, enter the worker span, send the request *)
    destruct (0 <? g_sem s) eqn:Hsem; [|discriminate]. subst ctx.
    split_segment H.
    pose proof (has_kind_attrs e "worker" (head (0%nat :: ctx0)) ("worker:" +:+ pretty i) "worker"
      {[ "ati.worker.index" := AInt (Z.of_nat i) ]}
      (now e (reads (emit (EvAcquire (Worker i)) (g_world s)))) None) as Hk.
    seg_inv Eseg. simpl in Hspans.
    set (W := Span "worker" _ _ _ _) in *.
    assert (has_kind "worker" W = true) as HkW by (by rewrite Hk).
    assert (span_attributes W !! "ati.worker.index" = Some (AInt (Z.of_nat i))) as HiW by done.
    assert (span_parent W = Some 0%nat) as HpW by done.
    assert (is_open W = true) as HoW by done.
    clearbody W. clear Hk.
    split_segment H. seg_inv Eseg. inversion H; subst; clear H.
    simpl in Hparent. rewrite Hspans in Hspans0.
    assert (is_open sp = true) as Hosp by (by unfold is_open; rewrite Hend).
    pose proof (has_kind_other _ "planner" _ HkW ltac:(done)) as HW1.
    pose proof (has_kind_other _ "checkpoint" _ HkW ltac:(done)) as HW2.
    pose proof (has_kind_other _ "planner" _ Hkind ltac:(done)) as Hs1.
    pose proof (has_kind_other _ "checkpoint" _ Hkind ltac:(done)) as Hs2.
    pose proof (has_kind_other _ "worker" _ Hkind ltac:(done)) as Hs3.
    pose proof (count_tasks_insert is_started _ i _
                  (Task (length (spans w) :: length (spans (g_world s)) :: 0%nat :: ctx0) CCalling) Hi) as Hc1.
    pose proof (count_tasks_insert is_calling _ i _
                  (Task (length (spans w) :: length (spans (g_world s)) :: 0%nat :: ctx0) CCalling) Hi) as Hc2.
    simpl in Hc1, Hc2.
    split; simpl; rewrite ?Hspans0.
    + done.
    + intros _. exists P. rewrite !lookup_app_l
        by (rewrite ?length_app; apply lookup_lt_Some in HP; simpl; lia).
      split; [done|]. split; [done|]. split; [done|].
      by rewrite !count_snoc, HW1, Hs1, HcP.
    + intros k sp' Hk Hw.
      apply lookup_app_Some in Hk as [Hk|[_ Hk]].
      * apply lookup_app_Some in Hk as [Hk|[_ Hk]]; [by eapply (fs_parent s J)|].
        destruct (k - length (spans (g_world s)))%nat; simpl in Hk; [|by rewrite lookup_nil in Hk].
        by inversion Hk; subst.
      * destruct (k - _)%nat; simpl in Hk; [|by rewrite lookup_nil in Hk].
        inversion Hk; subst. congruence.
    + rewrite !count_snoc, HkW, Hs3, (fs_workers s J). simpl. lia.
    + unfold open_worker at 1. rewrite !count_snoc. fold open_worker.
      rewrite HkW, HoW, Hs3, (fs_open s J). simpl. lia.
    + intros j t Hj. destruct (decide (j = i)) as [->|Hne].
      * rewrite list_lookup_insert_eq in Hj by (by eapply lookup_lt_Some).
        inversion Hj; subst. unfold fanout_task_spans. simpl.
        exists (length (spans w)), (length (spans (g_world s))), W, sp.
        rewrite Hspans0, Hspans, length_app. simpl.
        split; [done|].
        split; [by rewrite lookup_app_l, lookup_app_r, Nat.sub_diag
                  by (rewrite ?length_app; simpl; lia)|].
        split; [done|]. split; [done|]. split; [done|].
        split; [|done].
        rewrite lookup_app_r by (rewrite length_app; simpl; lia).
        rewrite length_app. simpl. by rewrite Nat.sub_diag.
      * rewrite list_lookup_insert_ne in Hj by done.
        eapply (fanout_task_spans_app _ _ [W; sp]).
        -- simpl. by rewrite Hspans0, <- app_assoc.
        -- by apply (fs_tasks s J).
    + apply (fs_gather s J).
    + rewrite !count_snoc, HW2, Hs2, (fs_checkpoints s J). simpl. lia.
    + intros Hpc. by destruct (Hrun ltac:(done) Hpc).
    + intros Hpc. destruct (Hrun ltac:(done)). by left.
  - (* CCalling: the response arrives, leave both spans *)
    destruct (valid_draw draw) eqn:Hd; [|discriminate].
    destruct Hti as (tid & wid & sw & st & -> & Hsw & Hksw & Hosw & Hisw & Hst & Hkst & Host & Hpst).
    destruct (call_tool_recv _ _ _ _ _ _) as [res [ctx1 w1]] eqn:Er.
    seg_inv Er. split_segment H. seg_inv Eseg. inversion H; subst; clear H.
    assert (tid <> wid) as Hne1.
    { intros ->. rewrite Hsw in Hst. inversion Hst; subst.
      pose proof (has_kind_unique _ _ _ Hksw Hkst). discriminate. }
    set (t1 := now e (reads (g_world s))) in *. set (t2 := now e (reads w1)) in *.
    set (l1 := alter (set_end t1) tid (spans (g_world s))) in *.
    assert (l1 !! wid = Some sw) as Hsw1.
    { unfold l1. by rewrite list_lookup_alter_ne. }
    pose proof (count_tasks_insert is_started _ i _ (Task (0%nat :: ctx0) (CDone res)) Hi) as Hc1.
    pose proof (count_tasks_insert is_calling _ i _ (Task (0%nat :: ctx0) (CDone res)) Hi) as Hc2.
    simpl in Hc1, Hc2.
    split; simpl; rewrite ?Hspans0, ?Hspans.
    + done.
    + intros _.
      destruct (lookup_alter_set_end_Some t1 tid _ _ _ HP) as (P1 & HP1 & HPe1).
      fold l1 in HP1.
      destruct (lookup_alter_set_end_Some t2 wid _ _ _ HP1) as (P2 & HP2 & HPe2).
      exists P2. split; [done|].
      split; [by destruct HPe1 as [->| ->], HPe2 as [->| ->]; rewrite ?set_end_kind|].
      split; [by destruct HPe1 as [->| ->], HPe2 as [->| ->]; rewrite ?set_end_parent|].
      rewrite count_alter_same by (intros; apply set_end_kind).
      unfold l1. by rewrite count_alter_same by (intros; apply set_end_kind).
    + intros k sp' Hk Hw.
      apply lookup_alter_set_end in Hk as (sp1 & Hk & Hsp1).
      apply lookup_alter_set_end in Hk as (sp2 & Hk & Hsp2).
      assert (has_kind "worker" sp' = has_kind "worker" sp2 /\ span_parent sp' = span_parent sp2)
        as [Hkk Hpp].
      { destruct Hsp1 as [->|[_ ->]], Hsp2 as [->|[_ ->]];
          rewrite ?set_end_kind, ?set_end_parent; done. }
      rewrite Hpp. eapply (fs_parent s J); [done|congruence].
    + rewrite count_alter_same by (intros; apply set_end_kind).
      unfold l1. rewrite count_alter_same by (intros; apply set_end_kind).
      rewrite (fs_workers s J). lia.
    + pose proof (count_alter open_worker (set_end t2) l1 wid sw Hsw1) as Ha2.
      pose proof (count_alter open_worker (set_end t1) _ tid st Hst) as Ha1.
      fold l1 in Ha1. unfold open_worker at 2 4 in Ha1. unfold open_worker at 2 4 in Ha2.
      rewrite !set_end_kind, !set_end_closed in *.
      rewrite (has_kind_other _ "worker" _ Hkst ltac:(done)) in Ha1.
      rewrite Hksw, Hosw in Ha2. simpl in Ha1, Ha2.
      pose proof (fs_open s J). lia.
    + intros j t Hj. destruct (decide (j = i)) as [->|Hne].
      * rewrite list_lookup_insert_eq in Hj by (by eapply lookup_lt_Some).
        by inversion Hj; subst.
      * rewrite list_lookup_insert_ne in Hj by done.
        pose proof (fs_tasks s J j t Hj) as Htj. unfold fanout_task_spans in *.
        destruct (t_state t); try done.
        destruct Htj as (tid' & wid' & sw' & st' & Hc & Hsw' & Hksw' & Hosw' & Hisw' &
                         Hst' & Hkst' & Host' & Hpst').
        assert (wid' <> wid) as Hw1.
        { intros ->. rewrite Hsw in Hsw'. inversion Hsw'; subst.
          rewrite Hisw in Hisw'. inversion Hisw'. lia. }
        assert (wid' <> tid) as Hw2.
        { intros ->. rewrite Hst in Hsw'. inversion Hsw'; subst.
          pose proof (has_kind_unique _ _ _ Hksw' Hkst). discriminate. }
        assert (tid' <> tid) as Hw3.
        { intros ->. rewrite Hst in Hst'. inversion Hst'; subst. congruence. }
        assert (tid' <> wid) as Hw4.
        { intros ->. rewrite Hsw in Hst'. inversion Hst'; subst.
          pose proof (has_kind_unique _ _ _ Hksw Hkst'). discriminate. }
        exists tid', wid', sw', st'. simpl. rewrite Hspans0, Hspans. unfold l1.
        rewrite !list_lookup_alter_ne by done. done.
    + apply (fs_gather s J).
    + rewrite count_alter_same by (intros; apply set_end_kind).
      unfold l1. rewrite count_alter_same by (intros; apply set_end_kind).
      apply (fs_checkpoints s J).
    + intros Hpc. by destruct (Hrun ltac:(done) Hpc).
    + intros Hpc. destruct (Hrun ltac:(done)). by left.
  - discriminate.
Qed.

Lemma fanout_step_spans l s s' :
  fanout_gate_inv concurrency fanout s -> fanout_span_inv s ->
  fanout_step e concurrency fanout delay_ms l s = Some s' ->
  fanout_span_inv s'.
Proof.
  unfold fanout_step. destruct (lbl_task l).
  - apply fanout_planner_step_spans.
  - apply fanout_worker_step_spans.
Qed.

End FanoutSpans.

Lemma count_tasks_all_done (l : list (task call_worker)) :
  Forall (fun t => exists v, t_state t = CDone (Return v)) l ->
  count_tasks is_calling l = 0%nat.
Proof.
  unfold count_tasks. induction 1 as [|t l [v Hv] _ IH]; [done|].
  by rewrite count_cons, Hv, IH.
Qed.

(** ** The fan-out: timestamps *)

Section FanoutTime.
Variable e : env.
Hypothesis Hmono : clock_monotone e.
Variables concurrency fanout delay_ms : Z.
Variable ctx0 : list nat.

(** Every worker span has ended by the time the checkpoint span starts. *)
Definition workers_before_checkpoint (l : list span) : Prop :=
  exists ck, last l = Some ck /\
    forall k sp, l !! k = Some sp -> has_kind "worker" sp = true ->
      exists t, end_time sp = Some t /\ t <= start_time ck.

Record fanout_time_inv (s : gated call_worker) : Prop := FanoutTimeInv {
  ft_stamped : stamped e (g_world s);
  ft_order :
    g_pc s = PCheckpoint \/ g_pc s = PReturned ->
    workers_before_checkpoint (spans (g_world s));
}.

Lemma fanout_time_inv_init : fanout_time_inv (fanout_init ctx0 empty_world).
Proof.
  split; simpl.
  - apply stamped_empty.
  - intros [|]; discriminate.
Qed.

Lemma workers_before_checkpoint_alter t id l :
  workers_before_checkpoint l -> workers_before_checkpoint (alter (set_end t) id l).
Proof.
  intros (ck & Hck & Hall). rewrite last_lookup in Hck.
  destruct (lookup_alter_set_end_Some t id _ _ _ Hck) as (ck' & Hck' & Hcke).
  exists ck'. split; [by rewrite last_lookup, length_alter|].
  intros k sp' Hk Hw. apply lookup_alter_set_end in Hk as (sp & Hk & Hsp).
  assert (has_kind "worker" sp = true) as Hw'.
  { destruct Hsp as [->|[_ ->]]; [done|by rewrite set_end_kind in Hw]. }
  destruct (Hall k sp Hk Hw') as (t0 & Ht0 & Hle).
  exists t0. split.
  - destruct Hsp as [->|[_ ->]]; [done|]. by rewrite set_end_end, Ht0.
  - destruct Hcke as [->| ->]; [done|by rewrite set_end_start].
Qed.

Lemma fanout_planner_step_time s s' :
  fanout_gate_inv concurrency fanout s -> fanout_span_inv ctx0 s -> fanout_time_inv s ->
  fanout_planner_step e concurrency fanout s = Some s' ->
  fanout_time_inv s'.
Proof.
  intros I J T H. unfold fanout_planner_step in H.
  pose proof (ft_stamped s T) as Hst.
  destruct (g_pc s) eqn:Hpc; try discriminate.
  - split_segment H. seg_inv Eseg.
    assert (stamped e w) as Hst1 by (by eapply stamped_snoc).
    destruct (concurrency <? 0).
    + simpl in H. inversion H; subst; clear H. split; simpl.
      * by eapply stamped_alter.
      * intros [|]; discriminate.
    + inversion H; subst; clear H. split; simpl; [done|]. intros [|]; discriminate.
  - destruct (gather _) eqn:Hg; try discriminate.
    + apply gather_raised in Hg. apply list_elem_of_fmap in Hg as (t & Hr & Ht).
      apply list_elem_of_lookup in Ht as [i Hi].
      destruct (t_state t) eqn:Hs; try discriminate. simpl in Hr. inversion Hr; subst.
      by destruct (fg_results _ _ s I i t _ Hi Hs).
    + split_segment H. seg_inv Eseg. inversion H; subst; clear H.
      split; simpl.
      * by eapply stamped_snoc.
      * intros _. exists sp. rewrite Hspans. split; [apply last_snoc|].
        intros k sp' Hk Hw. apply lookup_app_Some in Hk as [Hk|[_ Hk]].
        -- assert (count_tasks is_calling (g_tasks s) = 0%nat) as Hz.
           { apply count_tasks_all_done. apply gather_returned in Hg.
             rewrite Forall_fmap in Hg. eapply Forall_impl; [exact Hg|]. simpl.
             intros t [v Hv]. destruct (t_state t); try discriminate. inversion Hv; eauto. }
           pose proof (fs_open _ s J) as Ho. rewrite Hz in Ho.
           apply count_zero in Ho. rewrite Forall_lookup in Ho.
           specialize (Ho k sp' Hk). unfold open_worker in Ho. rewrite Hw in Ho. simpl in Ho.
           unfold is_open in Ho. destruct (end_time sp') as [t|] eqn:Et; [|discriminate].
           exists t. split; [done|]. rewrite Hstart.
           destruct (Hst k sp' Hk) as [_ Hend0]. destruct (Hend0 t Et) as (r & Hr & ->).
           apply Hmono. lia.
        -- destruct (k - _)%nat; simpl in Hk; [|by rewrite lookup_nil in Hk].
           inversion Hk; subst.
           pose proof (has_kind_unique _ _ _ Hkind Hw). discriminate.
  - unfold checkpoint_write_end in H.
    pose proof (fs_checkpoint_ctx _ s J Hpc) as Hctx. rewrite Hctx in H.
    split_segment H. seg_inv Eseg. split_segment H. seg_inv Eseg.
    inversion H; subst; clear H.
    assert (stamped e w) as Hst1 by (by eapply stamped_alter).
    split; simpl.
    + by eapply stamped_alter.
    + intros _. rewrite Hspans0, Hspans.
      do 2 apply workers_before_checkpoint_alter. apply (ft_order s T). by left.
Qed.

Lemma fanout_worker_step_time i draw s s' :
  fanout_gate_inv concurrency fanout s -> fanout_span_inv ctx0 s -> fanout_time_inv s ->
  fanout_worker_step e delay_ms i draw s = Some s' ->
  fanout_time_inv s'.
Proof.
  intros I J T H. unfold fanout_worker_step in H.
  pose proof (ft_stamped s T) as Hst.
  destruct (g_tasks s !! i) as [[ctx st]|] eqn:Hi; [|discriminate].
  assert ((forall v, st <> CDone (Return v)) ->
            ~ (g_pc s = PCheckpoint \/ g_pc s = PReturned)) as Hrun.
  { intros Hnd Hpc. pose proof (fg_join _ _ s I Hpc) as Hall.
    rewrite Forall_lookup in Hall. destruct (Hall i _ Hi) as [v Hv]. simpl in Hv.
    by destruct (Hnd v). }
  pose proof (fs_tasks _ s J i _ Hi) as Hti. unfold fanout_task_spans in Hti. simpl in Hti.
  destruct st as [| |r].
  - destruct (0 <? g_sem s); [|discriminate].
    split_segment H. seg_inv Eseg. split_segment H. seg_inv Eseg.
    inversion H; subst; clear H.
    assert (stamped e w) as Hst1 by (by eapply (stamped_snoc e (emit _ (g_world s)))).
    split; simpl.
    + by eapply stamped_snoc.
    + intros Hpc. by destruct (Hrun ltac:(done) Hpc).
  - destruct (valid_draw draw); [|discriminate].
    destruct Hti as (tid & wid & sw & st & -> & _).
    destruct (call_tool_recv _ _ _ _ _ _) as [res [ctx1 w1]] eqn:Er.
    seg_inv Er. split_segment H. seg_inv Eseg. inversion H; subst; clear H.
    assert (stamped e w1) as Hst1 by (by eapply stamped_alter).
    split; simpl.
    + eapply (stamped_alter e w1); [done| |]; simpl; done.
    + intros Hpc. by destruct (Hrun ltac:(done) Hpc).
  - discriminate.
Qed.

(** The three invariants together, along any execution. *)
Definition fanout_inv (s : gated call_worker) : Prop :=
  fanout_gate_inv concurrency fanout s /\ fanout_span_inv ctx0 s /\ fanout_time_inv s.

Lemma fanout_reachable_inv s :
  reachable (fanout_step e concurrency fanout delay_ms) (fanout_init ctx0 empty_world) s ->
  fanout_inv s.
Proof.
  apply reachable_invariant.
  - split; [by apply fanout_gate_inv_init|]. split; [apply fanout_span_inv_init|].
    apply fanout_time_inv_init.
  - intros s1 l s2 (I & J & T) Hstep. split; [by eapply fanout_step_gate|].
    split; [by eapply fanout_step_spans|].
    unfold fanout_step in Hstep. destruct (lbl_task l).
    + by eapply fanout_planner_step_time.
    + by eapply fanout_worker_step_time.
Qed.

End FanoutTime.

(** ** Termination of a transition function with a decreasing measure *)

Section Termination.
Context {St Lbl : Type} (step : Lbl -> St -> option St) (measure : St -> nat).
Variable good : St -> Prop.
Hypothesis good_step : forall l s s', good s -> step l s = Some s' -> good s'.
Hypothesis decreasing :
  forall l s s', good s -> step l s = Some s' -> (measure s' < measure s)%nat.

Lemma exec_bounded (ls : list Lbl) (s s' : St) :
  good s -> exec step ls s = Some s' -> (length ls + measure s' <= measure s)%nat.
Proof.
  revert s. induction ls as [|l ls IH]; simpl; intros s Hs H.
  - inversion H; subst. lia.
  - destruct (step l s) as [s1|] eqn:E; [|discriminate].
    specialize (IH s1 (good_step l s s1 Hs E) H). specialize (decreasing l s s1 Hs E). lia.
Qed.

(** If every good state that is not final can move, every good state
    has an execution to a final state. *)
Lemma exec_completes (final : St -> Prop) :
  (forall s, good s -> final s \/ exists l s', step l s = Some s') ->
  forall s, good s -> exists ls s', exec step ls s = Some s' /\ final s' /\ good s'.
Proof.
  intros Hprog s. remember (measure s) as n eqn:Hn. revert s Hn.
  induction (lt_wf n) as [n _ IH]. intros s -> Hs.
  destruct (Hprog s Hs) as [Hf|(l & s1 & Hstep)].
  - by exists [], s.
  - destruct (IH (measure s1) (decreasing l s s1 Hs Hstep) s1 eq_refl (good_step l s s1 Hs Hstep))
      as (ls & s' & Hex & Hf & Hg).
    exists (l :: ls), s'. simpl. by rewrite Hstep.
Qed.

End Termination.

Lemma sum_list_with_insert {A : Type} (f : A -> nat) (l : list A) (i : nat) (x y : A) :
  l !! i = Some x ->
  (sum_list_with f (<[i:=y]> l) + f x = sum_list_with f l + f y)%nat.
Proof.
  revert i. induction l as [|a l IH]; intros [|i] H; simpl in *; try discriminate.
  - inversion H; subst. lia.
  - specialize (IH i H). lia.
Qed.

Lemma sum_list_with_replicate {A : Type} (f : A -> nat) (n : nat) (x : A) :
  sum_list_with f (replicate n x) = (n * f x)%nat.
Proof. induction n as [|n IH]; simpl; [done|]. rewrite IH. lia. Qed.

Lemma gather_pending rs :
  gather rs = GPending -> exists i, rs !! i = Some None.
Proof.
  induction rs as [|r rs IH]; simpl; [done|].
  destruct r as [[v|exc]|].
  - destruct (gather rs); try done. intros _. destruct IH as [i Hi]; [done|]. by exists (S i).
  - done.
  - intros _. by exists 0%nat.
Qed.

Ltac split_goal_segments :=
  repeat match goal with
  | |- context [match ?f with pair _ _ => _ end] => destruct f
  end.

Lemma valid_draw_0 : valid_draw 0 = true.
Proof. reflexivity. Qed.

(** ** The fan-out terminates *)

Section FanoutTermination.
Variable e : env.
Variables concurrency fanout delay_ms : Z.

Definition call_worker_measure (t : task call_worker) : nat :=
  match t_state t with CCreated => 2 | CCalling => 1 | CDone _ => 0 end.

Definition fanout_measure (s : gated call_worker) : nat :=
  match g_pc s with
  | PStart => 3 + 2 * Z.to_nat fanout
  | PGather => 2
  | PCheckpoint => 1
  | _ => 0
  end + sum_list_with call_worker_measure (g_tasks s).

Lemma fanout_step_decreasing l s s' :
  fanout_gate_inv concurrency fanout s ->
  fanout_step e concurrency fanout delay_ms l s = Some s' ->
  (fanout_measure s' < fanout_measure s)%nat.
Proof.
  intros I H. unfold fanout_step in H. unfold fanout_measure.
  destruct (lbl_task l) as [|i].
  - unfold fanout_planner_step in H. destruct (g_pc s) eqn:Hpc; try discriminate.
    + destruct (fg_not_started _ _ s I Hpc) as [Ht _]. rewrite Ht.
      split_segment H. destruct (concurrency <? 0).
      * split_segment H. inversion H; subst; simpl. lia.
      * inversion H; subst; simpl.
        rewrite sum_list_with_replicate. unfold call_worker_measure. simpl. lia.
    + destruct (gather _); try discriminate.
      * split_segment H. inversion H; subst; simpl. lia.
      * split_segment H. inversion H; subst; simpl. lia.
    + unfold checkpoint_write_end in H. split_segment H. split_segment H.
      inversion H; subst; simpl. lia.
  - unfold fanout_worker_step in H.
    destruct (g_tasks s !! i) as [[ctx st]|] eqn:Hi; [|discriminate].
    destruct st as [| |r]; try discriminate.
    + destruct (0 <? g_sem s); [|discriminate].
      split_segment H. split_segment H. inversion H; subst; simpl.
      pose proof (sum_list_with_insert call_worker_measure _ i _ (Task l1 CCalling) Hi) as Hm.
      unfold call_worker_measure at 2 4 in Hm. simpl in Hm. lia.
    + destruct (valid_draw _); [|discriminate].
      destruct (call_tool_recv _ _ _ _ _ _) as [res [ctx1 w1]].
      split_segment H. inversion H; subst; simpl.
      pose proof (sum_list_with_insert call_worker_measure _ i _ (Task l0 (CDone res)) Hi) as Hm.
      unfold call_worker_measure at 2 4 in Hm. simpl in Hm. lia.
Qed.

Lemma fanout_progress s :
  0 < concurrency ->
  fanout_gate_inv concurrency fanout s ->
  g_pc s = PReturned \/
  exists l s', fanout_step e concurrency fanout delay_ms l s = Some s'.
Proof.
  intros Hc I. destruct (g_pc s) eqn:Hpc.
  - right. exists (Label Main 0 []). unfold fanout_step, fanout_planner_step. simpl.
    rewrite Hpc. split_goal_segments. destruct (concurrency <? 0); split_goal_segments; eauto.
  - destruct (gather (map (fun t => call_result (t_state t)) (g_tasks s))) eqn:Hg.
    + (* some child has not finished *)
      right. apply gather_pending in Hg as [i Hi].
      rewrite list_lookup_fmap in Hi. destruct (g_tasks s !! i) as [[ctx st]|] eqn:Ht; [|discriminate].
      destruct (fg_gate _ _ s I) as (_ & _ & Hs0 & Hs); [congruence|congruence|].
      assert (forall j ctx', g_tasks s !! j = Some (Task ctx' CCalling) ->
                exists s', fanout_step e concurrency fanout delay_ms (Label (Worker j) 0 []) s = Some s')
        as Hcall.
      { intros j ctx' Hj. unfold fanout_step, fanout_worker_step. simpl. rewrite Hj.
        split_goal_segments. eauto. }
      destruct st as [| |r]; [| |discriminate].
      * destruct (0 <? g_sem s) eqn:Hsem.
        -- exists (Label (Worker i) 0 []). unfold fanout_step, fanout_worker_step. simpl.
           rewrite Ht, Hsem. split_goal_segments. eauto.
        -- apply Z.ltb_ge in Hsem.
           destruct (count_positive (fun t => is_calling (t_state t)) (g_tasks s))
             as (j & [ctx' st'] & Hj & Hst'); [unfold count_tasks in Hs; lia|].
           simpl in Hst'. destruct st'; try discriminate.
           destruct (Hcall j ctx' Hj) as [s' Hs']. eauto.
      * destruct (Hcall i ctx Ht) as [s' Hs']. eauto.
    + right. exists (Label Main 0 []). unfold fanout_step, fanout_planner_step. simpl.
      rewrite Hpc, Hg. split_goal_segments. eauto.
    + right. exists (Label Main 0 []). unfold fanout_step, fanout_planner_step. simpl.
      rewrite Hpc, Hg. split_goal_segments. eauto.
  - by destruct (fg_no_aggregator _ _ s I).
  - right. exists (Label Main 0 []). unfold fanout_step, fanout_planner_step. simpl.
    rewrite Hpc. unfold checkpoint_write_end. split_goal_segments. eauto.
  - by left.
  - destruct (fg_raised _ _ s I exc Hpc) as [? _]. lia.
Qed.

(** With a gate that admits at least one worker, every execution of the
    fan-out can be continued until the planner returns, and no execution
    has more than [3 + 2 * fanout] segments. *)
Lemma fanout_completes ctx w s :
  0 < concurrency -> log w = [] ->
  reachable (fanout_step e concurrency fanout delay_ms) (fanout_init ctx w) s ->
  exists ls s', exec (fanout_step e concurrency fanout delay_ms) ls s = Some s' /\
                g_pc s' = PReturned.
Proof.
  intros Hc Hw Hr.
  assert (fanout_gate_inv concurrency fanout s) as I.
  { revert Hr. apply reachable_invariant; [by apply fanout_gate_inv_init|].
    intros ? ? ? ? ?. by eapply fanout_step_gate. }
  destruct (exec_completes (fanout_step e concurrency fanout delay_ms) fanout_measure
              (fanout_gate_inv concurrency fanout)
              (fun l s1 s2 I1 Hs => fanout_step_gate e concurrency fanout delay_ms l s1 s2 I1 Hs)
              fanout_step_decreasing
              (fun s => g_pc s = PReturned)
              (fun s1 I1 => fanout_progress s1 Hc I1) s I)
    as (ls & s' & Hex & Hf & _).
  eauto.
Qed.

Lemma fanout_bounded ctx w ls s :
  log w = [] ->
  exec (fanout_step e concurrency fanout delay_ms) ls (fanout_init ctx w) = Some s ->
  (length ls <= 3 + 2 * Z.to_nat fanout)%nat.
Proof.
  intros Hw Hex.
  pose proof (exec_bounded (fanout_step e concurrency fanout delay_ms) fanout_measure
                (fanout_gate_inv concurrency fanout)
                (fun l s1 s2 I1 Hs => fanout_step_gate e concurrency fanout delay_ms l s1 s2 I1 Hs)
                fanout_step_decreasing ls _ _ (fanout_gate_inv_init concurrency fanout ctx w Hw) Hex) as H.
  unfold fanout_measure at 2 in H. simpl in H. lia.
Qed.

End FanoutTermination.

(** ** The retry storm terminates *)

Section RetryTermination.
Variable e : env.
Variables fanout concurrency delay_ms : Z.
Variable error_rate : Q.
Variable max_retries : Z.

Abbreviation rstep := (retry_step e fanout concurrency delay_ms error_rate max_retries).

Definition retries_left (attempt : Z) : nat := Z.to_nat (Z.max max_retries 0 - attempt).

Definition retry_worker_measure (t : task retry_worker) : nat :=
  match t_state t with
  | RCreated => 2 * retries_left 0 + 3
  | RCalling a _ => 2 * retries_left a + 2
  | RSleeping a _ => 2 * retries_left a + 3
  | RDone _ => 0
  end.

Definition retry_measure (s : gated retry_worker) : nat :=
  match g_pc s with
  | PStart => 3 + Z.to_nat fanout * (2 * retries_left 0 + 3)
  | PGather => 2
  | PCheckpoint => 1
  | _ => 0
  end + sum_list_with retry_worker_measure (g_tasks s).

Lemma retry_step_decreasing l s s' :
  retry_inv fanout concurrency delay_ms error_rate max_retries s ->
  rstep l s = Some s' ->
  (retry_measure s' < retry_measure s)%nat.
Proof.
  intros I H. unfold retry_step in H. unfold retry_measure.
  destruct (lbl_task l) as [|i].
  - unfold retry_planner_step in H. destruct (g_pc s) eqn:Hpc; try discriminate.
    + destruct (inv_not_started _ _ _ _ _ s I Hpc) as [Ht _]. rewrite Ht.
      split_segment H. destruct (concurrency <? 0).
      * split_segment H. inversion H; subst; simpl. lia.
      * inversion H; subst; simpl.
        rewrite sum_list_with_replicate. unfold retry_worker_measure. simpl. lia.
    + destruct (gather _); try discriminate.
      * split_segment H. inversion H; subst; simpl. lia.
      * split_segment H. inversion H; subst; simpl. lia.
    + unfold checkpoint_write_end in H. split_segment H. split_segment H.
      inversion H; subst; simpl. lia.
  - unfold retry_worker_step in H.
    destruct (g_tasks s !! i) as [[ctx st]|] eqn:Hi; [|discriminate].
    destruct st as [|a b|a b|r]; try discriminate.
    + destruct (0 <? g_sem s); [|discriminate].
      split_segment H. inversion H; subst; simpl.
      pose proof (sum_list_with_insert retry_worker_measure _ i _
                    (Task l0 (RCalling 0 (2 # 100))) Hi) as Hm.
      unfold retry_worker_measure at 2 4 in Hm. simpl in Hm. lia.
    + destruct (valid_draw _); [|discriminate].
      destruct (call_tool_recv _ _ _ _ _ _) as [res [ctx1 w1]].
      destruct res as [v|exc].
      * inversion H; subst; simpl.
        pose proof (sum_list_with_insert retry_worker_measure _ i _
                      (Task ctx1 (RDone (Return v))) Hi) as Hm.
        unfold retry_worker_measure at 2 4 in Hm. simpl in Hm. lia.
      * destruct (a + 1 >? max_retries) eqn:Hex.
        -- inversion H; subst; simpl.
           pose proof (sum_list_with_insert retry_worker_measure _ i _
                         (Task ctx1 (RDone (Return {[ "ok" := JBool false ]}))) Hi) as Hm.
           unfold retry_worker_measure at 2 4 in Hm. simpl in Hm. lia.
        -- inversion H; subst; simpl.
           pose proof (sum_list_with_insert retry_worker_measure _ i _
                         (Task ctx1 (RSleeping (a + 1) b)) Hi) as Hm.
           unfold retry_worker_measure at 2 4 in Hm. simpl in Hm.
           assert (a + 1 <= max_retries) as Hle.
           { destruct (Z.gtb_spec (a + 1) max_retries); [discriminate|lia]. }
           unfold retries_left in *. lia.
    + split_segment H. inversion H; subst; simpl.
      pose proof (sum_list_with_insert retry_worker_measure _ i _
                    (Task l0 (RCalling a (Qmin (b * 2) (1 # 2)))) Hi) as Hm.
      unfold retry_worker_measure at 2 4 in Hm. simpl in Hm. lia.
Qed.

Lemma retry_progress s :
  0 < concurrency ->
  retry_inv fanout concurrency delay_ms error_rate max_retries s ->
  g_pc s = PReturned \/ exists l s', rstep l s = Some s'.
Proof.
  intros Hc I. destruct (g_pc s) eqn:Hpc.
  - right. exists (Label Main 0 []). unfold retry_step, retry_planner_step. simpl.
    rewrite Hpc. split_goal_segments. destruct (concurrency <? 0); split_goal_segments; eauto.
  - destruct (gather (map (fun t => retry_result (t_state t)) (g_tasks s))) eqn:Hg.
    + right. apply gather_pending in Hg as [i Hi].
      rewrite list_lookup_fmap in Hi. destruct (g_tasks s !! i) as [[ctx st]|] eqn:Ht; [|discriminate].
      destruct (inv_gate _ _ _ _ _ s I) as (_ & _ & Hs0 & Hs); [congruence|congruence|].
      assert (forall j ctx' st', g_tasks s !! j = Some (Task ctx' st') -> holds_gate st' = true ->
                exists s', rstep (Label (Worker j) 0 []) s = Some s') as Hheld.
      { intros j ctx' st' Hj Hh. unfold retry_step, retry_worker_step. simpl. rewrite Hj.
        destruct st' as [|a b|a b|r]; try discriminate.
        - split_goal_segments.
          destruct (backend_response _ _ _); try destruct (_ >? _); eauto.
        - split_goal_segments. eauto. }
      destruct st as [|a b|a b|r]; [| | |discriminate].
      * destruct (0 <? g_sem s) eqn:Hsem.
        -- exists (Label (Worker i) 0 []). unfold retry_step, retry_worker_step. simpl.
           rewrite Ht, Hsem. split_goal_segments. eauto.
        -- apply Z.ltb_ge in Hsem.
           destruct (count_positive (fun t => holds_gate (t_state t)) (g_tasks s))
             as (j & [ctx' st'] & Hj & Hst'); [unfold count_tasks in Hs; lia|].
           destruct (Hheld j ctx' st' Hj Hst') as [s' Hs']. eauto.
      * destruct (Hheld i ctx _ Ht eq_refl) as [s' Hs']. eauto.
      * destruct (Hheld i ctx _ Ht eq_refl) as [s' Hs']. eauto.
    + right. exists (Label Main 0 []). unfold retry_step, retry_planner_step. simpl.
      rewrite Hpc, Hg. split_goal_segments. eauto.
    + right. exists (Label Main 0 []). unfold retry_step, retry_planner_step. simpl.
      rewrite Hpc, Hg. split_goal_segments. eauto.
  - by destruct (inv_no_aggregator _ _ _ _ _ s I).
  - right. exists (Label Main 0 []). unfold retry_step, retry_planner_step. simpl.
    rewrite Hpc. unfold checkpoint_write_end. split_goal_segments. eauto.
  - by left.
  - destruct (inv_raised _ _ _ _ _ s I exc Hpc) as [? _]. lia.
Qed.

Lemma retry_completes ctx w s :
  0 < concurrency -> log w = [] ->
  reachable rstep (retry_init ctx w) s ->
  exists ls s', exec rstep ls s = Some s' /\ g_pc s' = PReturned.
Proof.
  intros Hc Hw Hr.
  pose proof (retry_reachable_inv e fanout concurrency delay_ms error_rate max_retries
                ctx w s Hw Hr) as I.
  destruct (exec_completes rstep retry_measure
              (retry_inv fanout concurrency delay_ms error_rate max_retries)
              (fun l s1 s2 I1 Hs =>
                 retry_step_inv e fanout concurrency delay_ms error_rate max_retries l s1 s2 I1 Hs)
              retry_step_decreasing
              (fun s => g_pc s = PReturned)
              (fun s1 I1 => retry_progress s1 Hc I1) s I)
    as (ls & s' & Hex & Hf & _).
  eauto.
Qed.

Lemma retry_bounded ctx w ls s :
  log w = [] ->
  exec rstep ls (retry_init ctx w) = Some s ->
  (length ls <= 3 + Z.to_nat fanout * (2 * Z.to_nat (Z.max max_retries 0) + 3))%nat.
Proof.
  intros Hw Hex.
  pose proof (exec_bounded rstep retry_measure
                (retry_inv fanout concurrency delay_ms error_rate max_retries)
                (fun l s1 s2 I1 Hs =>
                   retry_step_inv e fanout concurrency delay_ms error_rate max_retries l s1 s2 I1 Hs)
                retry_step_decreasing ls _ _
                (retry_inv_init fanout concurrency delay_ms error_rate max_retries ctx w Hw) Hex) as H.
  unfold retry_measure at 2 in H. simpl in H. unfold retries_left in H.
  rewrite Z.sub_0_r in H. lia.
Qed.

End RetryTermination.


Lemma count_holds_gate (l : list (task retry_worker)) :
  count_tasks holds_gate l =
  (count_tasks awaits_response l + count_tasks in_backoff l)%nat.
Proof.
  unfold count_tasks. induction l as [|[ctx st] l IH]; [done|].
  rewrite !count_cons, IH. destruct st; simpl; lia.
Qed.

(** A concrete environment for the examples: the clock ticks once per
    reading, no [AGENT_NAME], backend defaults 80 ms and no errors. *)
Definition example_env : env :=
  Env (fun n => Z.of_nat n) None (ToolService.Config 80 0).

Definition resume_main : label := Label Main 0 [].
Definition resume (i : nat) : label := Label (Worker i) 0 [].

Lemma example_env_monotone : clock_monotone example_env.
Proof. intros n m H. simpl. lia. Qed.


(** Two of five workers are calling, the gate of width two is full. *)
Abbreviation fanout_gate_full :=
  (exec (fanout_step example_env 2 5 10) [resume_main; resume 0; resume 3]
    (fanout_init [] empty_world)).


(** C9: a retry worker passes the gate once and keeps its slot through
    every attempt and every backoff sleep: the log holds one acquire and
    no release for a worker that is calling or sleeping, one of each for a
    finished worker, and the free slots are the width minus the workers
    calling and the workers sleeping. *)
Theorem retry_worker_keeps_slot_in_backoff
    (e : env) (fanout concurrency delay_ms : Z) (error_rate : Q) (max_retries : Z)
    (ctx : list nat) (s : gated retry_worker) :
  reachable (retry_step e fanout concurrency delay_ms error_rate max_retries)
    (retry_init ctx empty_world) s ->
  (forall i t, g_tasks s !! i = Some t ->
     let l := log (g_world s) in
     match t_state t with
     | RCreated => acquires_of (Worker i) l = 0%nat /\ releases_of (Worker i) l = 0%nat
     | RCalling _ _ | RSleeping _ _ =>
         acquires_of (Worker i) l = 1%nat /\ releases_of (Worker i) l = 0%nat
     | RDone _ => acquires_of (Worker i) l = 1%nat /\ releases_of (Worker i) l = 1%nat
     end) /\
  (g_tasks s <> [] ->
     g_sem s = concurrency - Z.of_nat (count_tasks awaits_response (g_tasks s))
                           - Z.of_nat (count_tasks in_backoff (g_tasks s)) /\
     0 <= g_sem s /\
     in_flight (g_world s) <= concurrency - Z.of_nat (count_tasks in_backoff (g_tasks s))).
Proof.
  intros Hr.
  pose proof (retry_reachable_inv e fanout concurrency delay_ms error_rate max_retries
                ctx empty_world s eq_refl Hr) as I.
  split.
  - intros i t Hi. destruct (inv_workers _ _ _ _ _ s I i t Hi) as (n & m & _ & _ & Hst).
    simpl. destruct (t_state t); tauto.
  - intros Hne.
    destruct (inv_gate _ _ _ _ _ s I) as (_ & _ & Hs0 & Hs).
    + intros Hpc. by destruct (inv_not_started _ _ _ _ _ s I Hpc).
    + intros exc Hpc. by destruct (inv_raised _ _ _ _ _ s I exc Hpc) as (_ & ? & _).
    + rewrite count_holds_gate in Hs. rewrite (inv_in_flight _ _ _ _ _ s I). lia.
Qed.

(** Width 1, two workers: worker 0 fails its first call and sleeps; the
    slot stays taken, so worker 1 cannot start. *)
Abbreviation retry_backing_off :=
  (exec (retry_step example_env 2 1 10 1 3) [resume_main; resume 0; resume 0]
    (retry_init [] empty_world)).

Lemma retry_worker_keeps_slot_in_backoff_witness :
  exists s,
    retry_backing_off = Some s /\
    map t_state (g_tasks s) = [RSleeping 1 (2 # 100); RCreated] /\
    g_sem s = 0 /\
    (g_pc <$> retry_step example_env 2 1 10 1 3 (resume 1) s) = None /\
    in_flight (g_world s) <= 1 - Z.of_nat (count_tasks in_backoff (g_tasks s)).
Proof.
  assert ((fun s => (map t_state (g_tasks s), g_sem s,
                     g_pc <$> retry_step example_env 2 1 10 1 3 (resume 1) s))
            <$> retry_backing_off
          = Some ([RSleeping 1 (2 # 100); RCreated], 0, None)) as Hv
    by (vm_compute; reflexivity).
  destruct (exec _ _ _) as [s|] eqn:E; [|discriminate Hv].
  simpl in Hv. injection Hv as Hst Hsem Hstep.
  exists s. split; [reflexivity|]. split; [exact Hst|]. split; [exact Hsem|].
  split; [exact Hstep|].
  refine (proj2 (proj2 (proj2 (retry_worker_keeps_slot_in_backoff example_env 2 1 10 1 3 [] s _) _))).
  - exact (exec_reachable _ _ _ _ _ (reach_init _ _) E).
  - intros Hnil. rewrite Hnil in Hst. discriminate.
Defined.

(** C4: the backoff sleeps of a worker are 20 ms, 40 ms, 80 ms, ...
    doubling after each failed attempt and capped at 500 ms. *)
Theorem retry_backoff_intervals
    (e : env) (fanout concurrency delay_ms : Z) (error_rate : Q) (max_retries : Z)
    (ctx : list nat) (s : gated retry_worker) (i : nat) (t : task retry_worker) :
  reachable (retry_step e fanout concurrency delay_ms error_rate max_retries)
    (retry_init ctx empty_world) s ->
  g_tasks s !! i = Some t ->
  let sl := sleeps_of (Worker i) (log (g_world s)) in
  forall k d, sl !! k = Some d ->
    d == Qmin ((20 # 1000) * inject_Z (2 ^ Z.of_nat k)) (500 # 1000) /\
    (d <= 500 # 1000)%Q /\
    (k = 0%nat -> d == 20 # 1000) /\
    (forall d', sl !! S k = Some d' -> d' == Qmin (d * 2) (500 # 1000)).
Proof.
  intros Hr Hi sl k d Hk.
  pose proof (retry_reachable_inv e fanout concurrency delay_ms error_rate max_retries
                ctx empty_world s eq_refl Hr) as I.
  destruct (inv_workers _ _ _ _ _ s I i t Hi) as (n & m & _ & Hsl & _).
  fold sl in Hsl.
  assert (forall j x, sl !! j = Some x -> x == backoff_at j) as Hat.
  { intros j x Hj. destruct (Forall2_lookup_l _ _ _ _ _ Hsl Hj) as (y & Hy & Hxy).
    rewrite list_lookup_fmap in Hy.
    destruct (seq 0 m !! j) as [j'|] eqn:Hseq; [|discriminate].
    apply lookup_seq in Hseq as [-> _]. simpl in Hy. inversion Hy; subst. done. }
  pose proof (Hat k d Hk) as Hd.
  assert (backoff_at k == Qmin ((20 # 1000) * inject_Z (2 ^ Z.of_nat k)) (500 # 1000)) as Hform.
  { unfold backoff_at. apply Q.min_compat; [|reflexivity].
    apply Qmult_comp; reflexivity. }
  split; [by rewrite Hd|].
  split; [rewrite Hd; eapply Qle_trans; [apply backoff_at_le|discriminate]|].
  split; [intros ->; by rewrite Hd|].
  intros d' Hk'. rewrite (Hat (S k) d' Hk').
  transitivity (Qmin (backoff_at k * 2) (1 # 2)); [symmetry; apply backoff_at_S|].
  apply Q.min_compat; [by rewrite Hd|reflexivity].
Qed.

(** A worker that has failed three times in a row has slept 20, 40 and
    80 ms between its attempts. *)
Abbreviation retry_three_failures :=
  (exec (retry_step example_env 1 1 10 1 3)
    [resume_main; resume 0; resume 0; resume 0; resume 0; resume 0; resume 0; resume 0]
    (retry_init [] empty_world)).

Lemma retry_backoff_intervals_witness :
  exists s,
    retry_three_failures = Some s /\
    sleeps_of (Worker 0) (log (g_world s)) = [2 # 100; 4 # 100; 8 # 100] /\
    8 # 100 == Qmin ((20 # 1000) * inject_Z (2 ^ Z.of_nat 2)) (500 # 1000).
Proof.
  assert ((fun s => (sleeps_of (Worker 0) (log (g_world s)), t_state <$> g_tasks s !! 0%nat))
            <$> retry_three_failures
          = Some ([2 # 100; 4 # 100; 8 # 100], Some (RCalling 3 (16 # 100)))) as Hv
    by (vm_compute; reflexivity).
  destruct (exec _ _ _) as [s|] eqn:E; [|discriminate Hv].
  simpl in Hv. injection Hv as Hsl Ht.
  exists s. split; [reflexivity|]. split; [exact Hsl|].
  destruct (g_tasks s !! 0%nat) as [t|] eqn:Hi; [|discriminate Ht].
  refine (proj1 (retry_backoff_intervals example_env 1 1 10 1 3 [] s 0 t _ Hi 2%nat _ _)).
  - exact (exec_reachable _ _ _ _ _ (reach_init _ _) E).
  - rewrite Hsl. reflexivity.
Defined.

(** C3 as stated fails for a negative [max_retries]: the first attempt
    is made whatever the budget, so with [max_retries = -1] a worker makes
    one attempt, more than [max_retries + 1 = 0]. *)
Abbreviation retry_negative_budget :=
  (exec (retry_step example_env 1 1 10 1 (-1)) [resume_main; resume 0; resume 0]
    (retry_init [] empty_world)).

Lemma retry_attempts_negative_budget_counterexample :
  exists s,
    retry_negative_budget = Some s /\
    map t_state (g_tasks s) = [RDone (Return {[ "ok" := JBool false ]})] /\
    ~ (Z.of_nat (length (requests_of (Worker 0) (log (g_world s)))) <= -1 + 1).
Proof.
  assert ((fun s => (map t_state (g_tasks s),
                     length (requests_of (Worker 0) (log (g_world s)))))
            <$> retry_negative_budget
          = Some ([RDone (Return {[ "ok" := JBool false ]})], 1%nat)) as Hv
    by (vm_compute; reflexivity).
  destruct (exec _ _ _) as [s|] eqn:E; [|discriminate Hv].
  simpl in Hv. injection Hv as Hst Hn.
  exists s. split; [reflexivity|]. split; [exact Hst|]. rewrite Hn. lia.
Qed.

(** C3, amended: a worker makes at most [max(max_retries, 0) + 1]
    attempts, numbered from 0, hence at most [max_retries + 1] for a
    budget that is not negative.  A finished worker has returned a value,
    never raised.  When every call fails (error rate 1.0) a finished worker
    has used all its attempts (2 for [max_retries = 1]) and returned
    [{ok: false}].  The planner gets past the join only when every worker
    has returned, and with a gate of positive width every execution can be
    continued until it does. *)
Theorem retry_attempts_and_exhaustion
    (e : env) (fanout concurrency delay_ms : Z) (error_rate : Q) (max_retries : Z)
    (ctx : list nat) (s : gated retry_worker) :
  reachable (retry_step e fanout concurrency delay_ms error_rate max_retries)
    (retry_init ctx empty_world) s ->
  (forall i t, g_tasks s !! i = Some t ->
     let attempts := requests_of (Worker i) (log (g_world s)) in
     attempts = map (fun k => retry_request delay_ms error_rate i (Z.of_nat k))
                    (seq 0 (length attempts)) /\
     Z.of_nat (length attempts) <= Z.max max_retries 0 + 1 /\
     (0 <= max_retries -> Z.of_nat (length attempts) <= max_retries + 1) /\
     forall r, t_state t = RDone r ->
       (exists v, r = Return v) /\
       (1 <= length attempts)%nat /\
       ((1 <= error_rate)%Q ->
          r = Return {[ "ok" := JBool false ]} /\
          Z.of_nat (length attempts) = Z.max max_retries 0 + 1 /\
          (max_retries = 1 -> length attempts = 2%nat))) /\
  (g_pc s = PCheckpoint \/ g_pc s = PReturned ->
     length (g_tasks s) = Z.to_nat fanout /\
     Forall (fun t => exists v, t_state t = RDone (Return v)) (g_tasks s)) /\
  (0 < concurrency ->
     exists ls s',
       exec (retry_step e fanout concurrency delay_ms error_rate max_retries) ls s = Some s' /\
       g_pc s' = PReturned).
Proof.
  intros Hr.
  pose proof (retry_reachable_inv e fanout concurrency delay_ms error_rate max_retries
                ctx empty_world s eq_refl Hr) as I.
  split; [|split].
  - intros i t Hi attempts.
    destruct (inv_workers _ _ _ _ _ s I i t Hi) as (n & m & Hrq & _ & Hst).
    fold attempts in Hrq.
    assert (length attempts = n) as Hlen.
    { rewrite Hrq. unfold attempts_made. by rewrite length_map, length_seq. }
    split; [by rewrite Hlen|]. rewrite Hlen.
    destruct (t_state t) as [|a b|a b|r].
    + destruct Hst as (-> & _). split; [lia|]. split; [lia|]. intros r' Hr'. discriminate.
    + destruct Hst as (-> & -> & _ & Hm & _). split; [lia|]. split; [lia|].
      intros r' Hr'. discriminate.
    + destruct Hst as (-> & -> & ? & ? & _). split; [lia|]. split; [lia|].
      intros r' Hr'. discriminate.
    + destruct Hst as (-> & Hm & _ & _ & Hv & Hex).
      split; [lia|]. split; [lia|]. intros r' Hr'. inversion Hr'; subst r'.
      split; [done|]. split; [lia|]. intros He. destruct (Hex He) as [-> Hlt].
      split; [done|]. lia.
  - intros Hpc. split; [|by apply (inv_join _ _ _ _ _ s I)].
    destruct (inv_gate _ _ _ _ _ s I) as (_ & ? & _); [| |done].
    + destruct Hpc; congruence.
    + destruct Hpc; congruence.
  - intros Hc.
    apply (retry_completes e fanout concurrency delay_ms error_rate max_retries
             ctx empty_world s Hc eq_refl Hr).
Qed.

(** The scenario [retry] with fanout 3, one retry and error rate 1.0,
    behind a gate of width 2: a complete execution in which every worker
    makes two attempts and returns [{ok: false}]. *)
Abbreviation retry_all_exhausted :=
  (exec (retry_step example_env 3 2 10 1 1)
    [resume_main; resume 0; resume 1; resume 0; resume 0; resume 0; resume 2; resume 1;
     resume 1; resume 1; resume 2; resume 2; resume 2; resume_main; resume_main]
    (retry_init [] empty_world)).

Lemma retry_attempts_and_exhaustion_witness :
  exists s,
    retry_all_exhausted = Some s /\
    g_pc s = PReturned /\
    map t_state (g_tasks s) = replicate 3 (RDone (Return {[ "ok" := JBool false ]})) /\
    map (fun i => length (requests_of (Worker i) (log (g_world s)))) [0; 1; 2]%nat
      = [2; 2; 2]%nat /\
    Forall (fun t => exists v, t_state t = RDone (Return v)) (g_tasks s).
Proof.
  assert ((fun s => (g_pc s, map t_state (g_tasks s),
                     map (fun i => length (requests_of (Worker i) (log (g_world s))))
                       [0; 1; 2]%nat))
            <$> retry_all_exhausted
          = Some (PReturned, replicate 3 (RDone (Return {[ "ok" := JBool false ]})),
                  [2; 2; 2]%nat)) as Hv
    by (vm_compute; reflexivity).
  destruct (exec _ _ _) as [s|] eqn:E; [|discriminate Hv].
  simpl in Hv. injection Hv as Hpc Hst Hn0 Hn1 Hn2.
  exists s. split; [reflexivity|]. split; [exact Hpc|]. split; [exact Hst|].
  split; [simpl; rewrite Hn0, Hn1, Hn2; reflexivity|].
  refine (proj2 (proj1 (proj2 (retry_attempts_and_exhaustion example_env 3 2 10 1 1 [] s _)) _)).
  - exact (exec_reachable _ _ _ _ _ (reach_init _ _) E).
  - right. exact Hpc.
Defined.

Lemma count_tasks_started_done (l : list (task call_worker)) :
  Forall (fun t => exists v, t_state t = CDone (Return v)) l ->
  count_tasks is_started l = length l.
Proof.
  unfold count_tasks. induction 1 as [|t l [v Hv] _ IH]; [done|].
  rewrite count_cons, Hv, IH. done.
Qed.

(** C1: in the fan-out with fanout 5, concurrency 2 and delay 10 ms,
    whatever the interleaving and the clock, every worker span is a child
    of the one planner span (span 0, a root here); there are never more
    than five worker spans nor more than two open at once; and once the
    checkpoint span exists there are exactly five worker spans, all ended
    before the single checkpoint span, the last span started, begins.
    Every execution can be continued until the planner returns. *)
Theorem fanout_five_workers_then_checkpoint (e : env) (s : gated call_worker) :
  clock_monotone e ->
  reachable (fanout_step e 2 5 10) (fanout_init [] empty_world) s ->
  let sps := spans (g_world s) in
  (forall k sp, sps !! k = Some sp -> has_kind "worker" sp = true ->
     span_parent sp = Some 0%nat) /\
  (g_pc s <> PStart ->
     exists p, sps !! 0%nat = Some p /\ has_kind "planner" p = true /\
               span_parent p = None /\ count (has_kind "planner") sps = 1%nat) /\
  (count (has_kind "worker") sps <= 5)%nat /\
  (count open_worker sps <= 2)%nat /\
  (count (has_kind "checkpoint") sps <= 1)%nat /\
  (g_pc s = PCheckpoint \/ g_pc s = PReturned ->
     count (has_kind "worker") sps = 5%nat /\
     count (has_kind "checkpoint") sps = 1%nat /\
     exists ck, last sps = Some ck /\ has_kind "checkpoint" ck = true /\
                span_parent ck = Some 0%nat /\
       forall k sp, sps !! k = Some sp -> has_kind "worker" sp = true ->
         exists t, end_time sp = Some t /\ t <= start_time ck) /\
  (exists ls s', exec (fanout_step e 2 5 10) ls s = Some s' /\ g_pc s' = PReturned).
Proof.
  intros Hmono Hr sps.
  destruct (fanout_reachable_inv e Hmono 2 5 10 [] s Hr) as (I & J & T).
  assert (length (g_tasks s) <= 5)%nat as Hlen.
  { destruct (g_pc s) eqn:E.
    1: destruct (fg_not_started _ _ s I E) as [-> _]; simpl; lia.
    5: destruct (fg_raised _ _ s I exc E) as (_ & -> & _); simpl; lia.
    all: destruct (fg_gate _ _ s I) as (_ & -> & _); [congruence|congruence|simpl; lia]. }
  split; [apply (fs_parent _ s J)|].
  split; [apply (fs_planner _ s J)|].
  split.
  { unfold sps. rewrite (fs_workers _ s J).
    pose proof (count_le_length (fun t => is_started (t_state t)) (g_tasks s)).
    unfold count_tasks. lia. }
  split.
  { unfold sps. rewrite (fs_open _ s J).
    destruct (g_pc s) eqn:E.
    1: destruct (fg_not_started _ _ s I E) as [-> _]; unfold count_tasks, count; simpl; lia.
    5: destruct (fg_raised _ _ s I exc E) as (_ & -> & _); unfold count_tasks, count; simpl; lia.
    all: destruct (fg_gate _ _ s I) as (_ & _ & ? & ?); [congruence|congruence|lia]. }
  split.
  { unfold sps. rewrite (fs_checkpoints _ s J). destruct (g_pc s); lia. }
  split.
  - intros Hpc.
    pose proof (fg_join _ _ s I Hpc) as Hdone.
    destruct (fg_gate _ _ s I) as (_ & Hl & _); [destruct Hpc; congruence|destruct Hpc; congruence|].
    split.
    { unfold sps. rewrite (fs_workers _ s J), count_tasks_started_done by done.
      rewrite Hl. reflexivity. }
    split.
    { unfold sps. rewrite (fs_checkpoints _ s J). by destruct Hpc as [-> | ->]. }
    destruct (fs_last _ s J Hpc) as (ck & Hck & Hk & Hp).
    destruct (ft_order e s T Hpc) as (ck' & Hck' & Hall).
    rewrite Hck in Hck'. inversion Hck'; subst ck'.
    exists ck. done.
  - apply (fanout_completes e 2 5 10 [] empty_world s); [lia|done|done].
Qed.

(** A complete execution: workers 0 and 1 hold the gate first, worker
    4 overtakes 2 and 3. *)
Abbreviation fanout_complete :=
  (exec (fanout_step example_env 2 5 10)
    [resume_main; resume 0; resume 1; resume 0; resume 4; resume 1; resume 4; resume 3;
     resume 2; resume 2; resume 3; resume_main; resume_main]
    (fanout_init [] empty_world)).

Lemma fanout_five_workers_then_checkpoint_witness :
  exists s,
    fanout_complete = Some s /\
    g_pc s = PReturned /\
    map (fun sp => (span_name sp, span_parent sp)) (spans (g_world s)) =
      [("planner", None); ("worker", Some 0); ("tool_call", Some 1);
       ("worker", Some 0); ("tool_call", Some 3); ("worker", Some 0); ("tool_call", Some 5);
       ("worker", Some 0); ("tool_call", Some 7); ("worker", Some 0); ("tool_call", Some 9);
       ("checkpoint", Some 0)]%nat /\
    count (has_kind "worker") (spans (g_world s)) = 5%nat /\
    count (has_kind "checkpoint") (spans (g_world s)) = 1%nat.
Proof.
  assert ((fun s => (g_pc s, map (fun sp => (span_name sp, span_parent sp)) (spans (g_world s))))
            <$> fanout_complete
          = Some (PReturned,
                  [("planner", None); ("worker", Some 0); ("tool_call", Some 1);
                   ("worker", Some 0); ("tool_call", Some 3); ("worker", Some 0);
                   ("tool_call", Some 5); ("worker", Some 0); ("tool_call", Some 7);
                   ("worker", Some 0); ("tool_call", Some 9); ("checkpoint", Some 0)]%nat)) as Hv
    by (vm_compute; reflexivity).
  destruct (exec _ _ _) as [s|] eqn:E; [|discriminate Hv].
  simpl in Hv. injection Hv as Hpc Hsp.
  exists s. split; [reflexivity|]. split; [exact Hpc|]. split; [exact Hsp|].
  destruct (fanout_five_workers_then_checkpoint example_env s example_env_monotone
              (exec_reachable _ _ _ _ _ (reach_init _ _) E))
    as (_ & _ & _ & _ & _ & H & _).
  destruct (H (or_intror Hpc)) as (H5 & H1 & _). exact (conj H5 H1).
Defined.

(** ** The backend: streaming, failure injection, payload *)

Section StreamFacts.
Variables (d : Z) (tool_name : string).

(** The chunk the generator yields at index [k], with the sleep before it. *)
Definition nth_chunk (k : nat) : Q * string :=
  ((ToolService.per d / 1000)%Q,
   "chunk " +:+ pretty k +:+ " from " +:+ tool_name +:+ newline).

Lemma drain_from (fuel i : nat) :
  (i <= ToolService.chunks)%nat -> (ToolService.chunks - i <= fuel)%nat ->
  ToolService.drain fuel (ToolService.Gen d tool_name i) =
  map nth_chunk (seq i (ToolService.chunks - i)).
Proof.
  unfold ToolService.chunks. revert i. induction fuel as [|fuel IH]; intros i Hi Hf.
  - replace (50 - i)%nat with 0%nat by lia. reflexivity.
  - simpl. unfold ToolService.gen_next. simpl.
    destruct (Nat.ltb_spec i ToolService.chunks) as [Hlt|Hge]; unfold ToolService.chunks in *.
    + rewrite IH by lia. replace (50 - i)%nat with (S (50 - S i)) by lia. reflexivity.
    + replace (50 - i)%nat with 0%nat by lia. reflexivity.
Qed.

Lemma pulls_from (n i : nat) :
  (i + n <= ToolService.chunks)%nat ->
  ToolService.pulls n (ToolService.Gen d tool_name i) =
  Some (ToolService.Gen d tool_name (i + n)).
Proof.
  unfold ToolService.chunks. revert i. induction n as [|n IH]; intros i Hi; simpl.
  - by rewrite Nat.add_0_r.
  - unfold ToolService.gen_next. simpl.
    destruct (Nat.ltb_spec i ToolService.chunks) as [Hlt|Hge]; unfold ToolService.chunks in *;
      [|lia].
    rewrite IH by lia. do 2 f_equal. lia.
Qed.

Lemma total_sleep_const (c : Q) (f : nat -> string) (l : list nat) :
  ToolService.total_sleep (map (fun k => (c, f k)) l) == inject_Z (Z.of_nat (length l)) * c.
Proof.
  induction l as [|k l IH]; simpl.
  - ring.
  - rewrite IH, Nat2Z.inj_succ, <- Z.add_1_r, inject_Z_plus. ring.
Qed.

End StreamFacts.

Lemma fifty_pers_span_the_delay (d : Z) :
  inject_Z (Z.of_nat ToolService.chunks) * (ToolService.per d / 1000) * 1000
    == Qmax (inject_Z d) 50.
Proof.
  unfold ToolService.per, ToolService.chunks.
  change (inject_Z (Z.of_nat 50)) with 50%Q.
  assert (inject_Z d / 50 == inject_Z d * (1 # 50)) as Hd by (unfold Qdiv; reflexivity).
  destruct (Q.max_spec (inject_Z d / 50) 1) as [[H1 H2]|[H1 H2]]; rewrite H2;
    destruct (Q.max_spec (inject_Z d) 50) as [[H3 H4]|[H3 H4]]; rewrite H4;
    rewrite Hd in H1.
  - reflexivity.
  - exfalso. lra.
  - exfalso. lra.
  - field.
Qed.

(** X1: a successful streaming call yields exactly fifty chunks,
    ["chunk 0 from <tool>"] to ["chunk 49 from <tool>"], each after a sleep of
    [max(d / 50, 1)] ms; after the fiftieth pull the generator is exhausted
    for good.  The sleeps add up to [max(d, 50)] ms: the delay [d] when it
    is at least 50 ms, and 50 ms for any shorter (or negative) delay. *)
Theorem stream_yields_fifty_chunks
    (cfg : ToolService.config) (tool_name : string) (delay_ms : option Z)
    (error_rate : option Q) (payload_size_kb : Z) (draw : Q)
    (g : ToolService.gen) (fuel : nat) :
  ToolService.tool_call cfg tool_name delay_ms error_rate 1 payload_size_kb draw
    = ToolService.StreamingResponse g ->
  (50 <= fuel)%nat ->
  let d := match delay_ms with Some x => x | None => ToolService.DEFAULT_DELAY_MS cfg end in
  ToolService.drain fuel g = map (nth_chunk d tool_name) (seq 0 50) /\
  (exists g', ToolService.pulls 50 g = Some g' /\
              ToolService.gen_next g' = None /\ ToolService.drain fuel g' = []) /\
  ToolService.total_sleep (ToolService.drain fuel g) * 1000 == Qmax (inject_Z d) 50 /\
  (50 <= d -> ToolService.total_sleep (ToolService.drain fuel g) * 1000 == inject_Z d) /\
  (d <= 50 -> ToolService.total_sleep (ToolService.drain fuel g) * 1000 == 50).
Proof.
  intros Hcall Hfuel d.
  assert (g = ToolService.Gen d tool_name 0) as ->.
  { unfold ToolService.tool_call in Hcall. fold d in Hcall.
    destruct (Qlt_bool _ _); [discriminate|]. simpl in Hcall. by inversion Hcall. }
  assert (ToolService.drain fuel (ToolService.Gen d tool_name 0)
          = map (nth_chunk d tool_name) (seq 0 50)) as Hdrain.
  { rewrite drain_from by (unfold ToolService.chunks; lia). reflexivity. }
  assert (ToolService.total_sleep (map (nth_chunk d tool_name) (seq 0 50)) * 1000
          == Qmax (inject_Z d) 50) as Htotal.
  { unfold nth_chunk. rewrite total_sleep_const, length_seq.
    apply fifty_pers_span_the_delay. }
  split; [exact Hdrain|]. split.
  { exists (ToolService.Gen d tool_name 50). split; [|split].
    - apply (pulls_from d tool_name 50 0). unfold ToolService.chunks. lia.
    - reflexivity.
    - destruct fuel; reflexivity. }
  rewrite Hdrain. split; [exact Htotal|]. split; intros Hd; rewrite Htotal.
  - apply Q.max_l. change 50%Q with (inject_Z 50). by rewrite <- Zle_Qle.
  - apply Q.max_r. change 50%Q with (inject_Z 50). by rewrite <- Zle_Qle.
Qed.

(** A streamed call with a requested delay of 10 ms takes 50 ms. *)
Lemma stream_yields_fifty_chunks_witness :
  exists g,
    ToolService.tool_call (ToolService.Config 80 0) "t0" (Some 10) None 1 0 (1 # 2)
      = ToolService.StreamingResponse g /\
    length (ToolService.drain 60 g) = 50%nat /\
    ToolService.total_sleep (ToolService.drain 60 g) * 1000 == 50.
Proof.
  exists (ToolService.Gen 10 "t0" 0). split; [reflexivity|].
  destruct (stream_yields_fifty_chunks (ToolService.Config 80 0) "t0" (Some 10) None 0 (1 # 2)
              (ToolService.Gen 10 "t0" 0) 60 eq_refl ltac:(lia))
    as (Hd & _ & _ & _ & H50).
  split.
  - rewrite Hd. reflexivity.
  - apply H50. lia.
Defined.

(** ** The body of a successful call *)

Lemma append_length (s1 s2 : string) :
  String.length (s1 +:+ s2) = (String.length s1 + String.length s2)%nat.
Proof. induction s1 as [|a s1 IH]; simpl; [done|]. by rewrite IH. Qed.

Lemma str_repeat_length (s : string) (n : nat) :
  String.length (str_repeat s n) = (n * String.length s)%nat.
Proof.
  induction n as [|n IH]; simpl; [done|].
  rewrite append_length, IH. lia.
Qed.

(** X2: a call that succeeds without streaming has slept [d / 1000]
    seconds and answers with the tool name, the delay and [ok = true]; it
    carries a payload exactly when [payload_size_kb] is positive, and then
    the payload has [payload_size_kb * 1024] characters.  Such a call was
    not asked to stream ([stream] is not 1) and its draw was not below the
    error rate. *)
Theorem tool_call_json_body
    (cfg : ToolService.config) (tool_name : string) (delay_ms : option Z)
    (error_rate : option Q) (stream payload_size_kb : Z) (draw slept : Q)
    (body : gmap string jval) :
  ToolService.tool_call cfg tool_name delay_ms error_rate stream payload_size_kb draw
    = ToolService.JSONResponse slept body ->
  let d := match delay_ms with Some x => x | None => ToolService.DEFAULT_DELAY_MS cfg end in
  let e := match error_rate with Some x => x | None => ToolService.DEFAULT_ERROR_RATE cfg end in
  slept = (inject_Z d / 1000)%Q /\
  body !! "tool" = Some (JStr tool_name) /\
  body !! "delay_ms" = Some (JInt d) /\
  body !! "ok" = Some (JBool true) /\
  (0 < payload_size_kb ->
     exists p, body !! "payload" = Some (JStr p) /\
               Z.of_nat (String.length p) = payload_size_kb * 1024) /\
  (payload_size_kb <= 0 -> body !! "payload" = None) /\
  stream <> 1 /\ (e <= draw)%Q.
Proof.
  intros Hcall d e. unfold ToolService.tool_call in Hcall. fold d e in Hcall.
  destruct (Qlt_bool draw e) eqn:Hlt; [discriminate|].
  destruct (stream =? 1) eqn:Hs; [discriminate|].
  inversion Hcall; subst; clear Hcall.
  split; [done|].
  assert (e <= draw)%Q as Hle.
  { unfold Qlt_bool in Hlt. apply negb_false_iff in Hlt. by apply Qle_bool_iff. }
  apply Z.eqb_neq in Hs.
  destruct (payload_size_kb >? 0) eqn:Hp.
  - apply Z.gtb_lt in Hp.
    split; [by rewrite lookup_insert_ne|]. split; [by rewrite lookup_insert_ne|].
    split; [by rewrite lookup_insert_ne|].
    split; [|split; [lia|done]].
    intros _. eexists. split; [by rewrite lookup_insert_eq|].
    rewrite str_repeat_length. simpl. lia.
  - assert (payload_size_kb <= 0) by (destruct (Z.gtb_spec payload_size_kb 0); [discriminate|lia]).
    split; [done|]. split; [done|]. split; [done|].
    split; [lia|]. split; [done|]. done.
Qed.

(** The retrieval call of the default RAG request: 10 KB of payload. *)
Lemma tool_call_json_body_witness :
  exists slept body,
    ToolService.tool_call (ToolService.Config 80 0) "vector_db" (Some 80) (Some 0%Q) 0 10 (1 # 2)
      = ToolService.JSONResponse slept body /\
    slept = (inject_Z 80 / 1000)%Q /\
    exists p, body !! "payload" = Some (JStr p) /\ Z.of_nat (String.length p) = 10 * 1024.
Proof.
  eexists _, _. split; [reflexivity|].
  match goal with
  | |- ?s = _ /\ (exists p, ?b !! _ = _ /\ _) =>
      destruct (tool_call_json_body (ToolService.Config 80 0) "vector_db" (Some 80) (Some 0%Q)
                  0 10 (1 # 2) s b eq_refl) as (Hs & _ & _ & _ & Hp & _)
  end.
  split; [exact Hs|]. apply Hp. lia.
Defined.

(** ** Attributes, [call_tool] and [checkpoint_write] on their own *)

(** The agent id after the optional [AGENT_NAME] prefix. *)
Definition namespaced (e : env) (agent_id : string) : string :=
  match AGENT_NAME e with
  | Some prefix => if String.eqb prefix "" then agent_id else prefix +:+ ":" +:+ agent_id
  | None => agent_id
  end.

Lemma attrs_lookup (e : env) (agent_id kind : string)
    (extra : gmap string attr_value) (k : string) :
  _attrs e agent_id kind extra !! k =
  match extra !! k with
  | Some v => Some v
  | None =>
      if String.eqb k "ati.agent.id" then Some (AStr (namespaced e agent_id))
      else if String.eqb k "ati.span.kind" then Some (AStr kind)
      else if String.eqb k "ati.workflow" then Some (AStr "demo")
      else None
  end.
Proof.
  unfold _attrs. fold (namespaced e agent_id).
  rewrite lookup_union. destruct (extra !! k) as [v|] eqn:Hk.
  - by rewrite union_Some_l.
  - rewrite (left_id None _).
    destruct (String.eqb_spec k "ati.agent.id") as [->|H1]; [by rewrite lookup_insert_eq|].
    rewrite lookup_insert_ne by done.
    destruct (String.eqb_spec k "ati.span.kind") as [->|H2]; [by rewrite lookup_insert_eq|].
    rewrite lookup_insert_ne by done.
    destruct (String.eqb_spec k "ati.workflow") as [->|H3]; [by rewrite lookup_singleton_eq|].
    by rewrite lookup_singleton_ne.
Qed.

(** X3: the attributes of a span are the extra ones and the three stable
    keys, and nothing else; an extra key named like a stable one replaces
    it.  The agent id is prefixed with [AGENT_NAME] and a colon when the
    variable is set and not empty, and left as it is otherwise. *)
Theorem attrs_extra_then_stable_keys (e : env) (agent_id kind : string)
    (extra : gmap string attr_value) :
  (forall k v, extra !! k = Some v -> _attrs e agent_id kind extra !! k = Some v) /\
  (extra !! "ati.agent.id" = None ->
     _attrs e agent_id kind extra !! "ati.agent.id" = Some (AStr (namespaced e agent_id))) /\
  (extra !! "ati.span.kind" = None ->
     _attrs e agent_id kind extra !! "ati.span.kind" = Some (AStr kind)) /\
  (extra !! "ati.workflow" = None ->
     _attrs e agent_id kind extra !! "ati.workflow" = Some (AStr "demo")) /\
  (forall k, extra !! k = None ->
     k <> "ati.agent.id" -> k <> "ati.span.kind" -> k <> "ati.workflow" ->
     _attrs e agent_id kind extra !! k = None) /\
  (AGENT_NAME e = None \/ AGENT_NAME e = Some "" -> namespaced e agent_id = agent_id) /\
  (forall prefix, AGENT_NAME e = Some prefix -> prefix <> "" ->
     namespaced e agent_id = prefix +:+ ":" +:+ agent_id).
Proof.
  split; [by intros k v H; rewrite attrs_lookup, H|].
  split; [by intros H; rewrite attrs_lookup, H|].
  split; [by intros H; rewrite attrs_lookup, H|].
  split; [by intros H; rewrite attrs_lookup, H|].
  split.
  { intros k H H1 H2 H3. rewrite attrs_lookup, H.
    by rewrite !(proj2 (String.eqb_neq _ _)). }
  unfold namespaced. split.
  - by intros [->| ->].
  - intros prefix -> H. by rewrite (proj2 (String.eqb_neq _ _)).
Qed.


(** X5: [checkpoint_write] adds one checkpoint-kind span under the
    caller's current span, tagged with the size, sleeps once, for
    [min(0.5, size_kb / 1024 * 0.2)] seconds, and ends the span; the
    caller's context is restored.  The sleep grows with the size, by
    0.2 s per MiB, is exactly 0.5 s from 2560 KB on, and is negative for a
    negative size. *)
Theorem checkpoint_write_span_and_sleep (e : env) (t : task_id) (size_kb : Z)
    (agent_id : string) (ctx : list nat) (w : world) :
  let begun := checkpoint_write_begin e t size_kb agent_id ctx w in
  let ended := checkpoint_write_end e begun.1 begun.2 in
  let w' := ended.2 in
  let d := checkpoint_delay size_kb in
  ended.1 = ctx /\
  log w' = log w ++ [EvSleep t d] /\
  d == Qmin (1 # 2) (inject_Z size_kb / 1024 * (1 # 5)) /\
  (d <= 1 # 2)%Q /\
  (2560 <= size_kb -> d == 1 # 2) /\
  (size_kb <= 2560 -> d == inject_Z size_kb * (1 # 5120)) /\
  (forall size_kb', size_kb <= size_kb' -> (d <= checkpoint_delay size_kb')%Q) /\
  length (spans w') = S (length (spans w)) /\
  (forall k, (k < length (spans w))%nat -> spans w' !! k = spans w !! k) /\
  (exists sp, spans w' !! length (spans w) = Some sp /\
     span_name sp = "checkpoint" /\ has_kind "checkpoint" sp = true /\
     span_parent sp = head ctx /\
     span_attributes sp !! "ati.checkpoint.size_kb" = Some (AInt size_kb) /\
     start_time sp = now e (reads w) /\ end_time sp = Some (now e (S (reads w)))).
Proof.
  intros begun ended w' d.
  assert (forall z, (inject_Z z / 1024 * (1 # 5) == inject_Z z * (1 # 5120))%Q) as Hlin.
  { intros z. unfold Qdiv. change (/ 1024)%Q with (1 # 1024)%Q.
    rewrite <- Qmult_assoc. apply Qmult_comp; reflexivity. }
  assert (forall z, 2560 <= z -> (1 # 2 <= inject_Z z * (1 # 5120))%Q) as Hbig.
  { intros z Hz. rewrite Zle_Qle in Hz. change (inject_Z 2560) with 2560%Q in Hz. lra. }
  assert (forall z, z <= 2560 -> (inject_Z z * (1 # 5120) <= 1 # 2)%Q) as Hsmall.
  { intros z Hz. rewrite Zle_Qle in Hz. change (inject_Z 2560) with 2560%Q in Hz. lra. }
  split; [done|]. split; [done|]. split; [reflexivity|]. split; [apply Q.le_min_l|].
  split; [|split; [|split]].
  - intros Hz. unfold d, checkpoint_delay. rewrite Hlin. apply Q.min_l. by apply Hbig.
  - intros Hz. unfold d, checkpoint_delay. rewrite Hlin. apply Q.min_r. by apply Hsmall.
  - intros z' Hz. unfold d, checkpoint_delay. apply Q.min_le_compat_l. rewrite !Hlin.
    rewrite Zle_Qle in Hz. lra.
  - subst w' ended begun. unfold checkpoint_write_begin, checkpoint_write_end,
      start_as_current_span, emit. simpl.
    split; [by rewrite length_alter, length_app; simpl; lia|].
    split.
    { intros k Hlt. rewrite list_lookup_alter_ne by lia. by rewrite lookup_app_l. }
    eexists. rewrite list_lookup_alter_eq, lookup_app_r, Nat.sub_diag by lia. simpl.
    split; [done|]. rewrite set_end_name, set_end_kind, set_end_parent, set_end_attributes,
      set_end_start, set_end_end. simpl.
    split; [done|]. split; [by rewrite has_kind_attrs|]. split; [done|].
    split; [by rewrite attrs_lookup|]. done.
Qed.

(** ** The failure decision of the tool service *)

(** X6: the handler fails exactly when its draw is below the error rate in
    force, the query parameter when given and [DEFAULT_ERROR_RATE]
    otherwise; the failure is a 503 naming the tool, and it is decided
    before the stream flag is looked at.  With draws in [0, 1) a rate of
    zero or less never fails and a rate of one or more always fails. *)
Theorem tool_call_fails_below_rate (cfg : ToolService.config) (tool_name : string)
    (delay_ms : option Z) (error_rate : option Q) (stream payload_size_kb : Z) (draw : Q) :
  let rate := default (ToolService.DEFAULT_ERROR_RATE cfg) error_rate in
  let r := ToolService.tool_call cfg tool_name delay_ms error_rate stream payload_size_kb draw in
  ((draw < rate)%Q ->
     r = ToolService.HTTPException 503 (tool_name +:+ " unavailable")) /\
  ((rate <= draw)%Q -> forall code detail, r <> ToolService.HTTPException code detail) /\
  (valid_draw draw = true -> (rate <= 0)%Q ->
     forall code detail, r <> ToolService.HTTPException code detail) /\
  (valid_draw draw = true -> (1 <= rate)%Q ->
     r = ToolService.HTTPException 503 (tool_name +:+ " unavailable")).
Proof.
  intros rate r.
  assert (forall x y, (x < y)%Q -> Qlt_bool x y = true) as Hlt.
  { intros x y H. unfold Qlt_bool. apply negb_true_iff, not_true_iff_false.
    intros H'%Qle_bool_iff. lra. }
  assert (forall x y, (y <= x)%Q -> Qlt_bool x y = false) as Hge.
  { intros x y H. unfold Qlt_bool. by apply negb_false_iff, Qle_bool_iff. }
  assert (valid_draw draw = true -> (0 <= draw)%Q /\ (draw < 1)%Q) as Hvalid.
  { unfold valid_draw. intros [H0 H1]%andb_prop. split; [by apply Qle_bool_iff|].
    apply negb_true_iff, not_true_iff_false in H1. apply Qnot_le_lt.
    intros H. by apply H1, Qle_bool_iff. }
  assert ((draw < rate)%Q -> r = ToolService.HTTPException 503 (tool_name +:+ " unavailable"))
    as Hfail.
  { intros H. subst r. unfold ToolService.tool_call. fold rate.
    change (match error_rate with
            | Some x => x | None => ToolService.DEFAULT_ERROR_RATE cfg end) with rate.
    by rewrite (Hlt _ _ H). }
  assert ((rate <= draw)%Q -> forall code detail, r <> ToolService.HTTPException code detail)
    as Hok.
  { intros H code detail. subst r. unfold ToolService.tool_call.
    change (match error_rate with
            | Some x => x | None => ToolService.DEFAULT_ERROR_RATE cfg end) with rate.
    rewrite (Hge _ _ H). by destruct (stream =? 1). }
  split; [done|]. split; [done|]. split.
  - intros [H0 H1]%Hvalid Hr. apply Hok. lra.
  - intros [H0 H1]%Hvalid Hr. apply Hfail. lra.
Qed.

Lemma tool_call_fails_below_rate_witness :
  ToolService.tool_call (ToolService.Config 120 (5 # 100)) "t0" None None 1 0 (1 # 100)
    = ToolService.HTTPException 503 "t0 unavailable".
Proof.
  apply (proj1 (tool_call_fails_below_rate
                  (ToolService.Config 120 (5 # 100)) "t0" None None 1 0 (1 # 100))).
  reflexivity.
Defined.

(** ** Scenarios that ask for no failures get none *)



(** The exception the scenario coroutine has raised, if any. *)
Definition planner_raised (pc : planner_pc) : option string :=
  match pc with PRaised exc => Some exc | _ => None end.

Definition scenario_raised (r : running) : option string :=
  match r with
  | RunPending => None
  | RunFanout s | RunRetry s => planner_raised (g_pc s)
  | RunDag s => planner_raised (f_pc s)
  | RunChain s => match q_pc s with ChRaised exc => Some exc | _ => None end
  | RunReact s => match q_pc s with RcRaised exc => Some exc | _ => None end
  | RunHuman s => match q_pc s with HRaised exc => Some exc | _ => None end
  | RunRag s => match q_pc s with GFailed exc => Some exc | _ => None end
  end.


Section Quiet.
Variable e : env.









Lemma recv_never_raises t rq draw ctx w exc :
  valid_draw draw = true -> rq_error_rate rq = 0%Q -> rq_stream rq = false ->
  (call_tool_recv e t rq (backend_response e rq draw) ctx w).1 <> Raise exc.
Proof.
  intros Hd Hr Hs H.
  destruct (call_tool_recv_returns e t rq draw ctx w Hd) as [v Hv]; [by rewrite Hr|done|].
  congruence.
Qed.

End Quiet.


(** A received call of these scenarios returned. *)
Ltac recv_returned :=
  match goal with
  | E : call_tool_recv ?e ?t ?rq (backend_response ?e ?rq ?draw) ?ctx ?w = (Raise ?exc, _),
    Hd : valid_draw ?draw = true |- _ =>
      exfalso; apply (recv_never_raises e t rq draw ctx w exc Hd eq_refl eq_refl);
      by rewrite E
  end.


Section QuietScenarios.
Variable e : env.










End QuietScenarios.

Section QuietRun.
Variable e : env.
Variable q : query.






End QuietRun.


(** A chain of depth two asked for with error rate one, run to its end. *)
Abbreviation chain_with_error_rate_one :=
  (exec (run_step example_env (Query Chain 100 20 80 2 1 3 10 1 5 2))
     [resume_main; resume_main; resume_main; resume_main] RunPending).


(** ** The blocking chain runs its steps one after the other *)

Definition is_step (sp : span) : bool := String.eqb (span_name sp) "step".



Definition steps_closed (l : list span) : Prop :=
  forall k sp, l !! k = Some sp -> is_step sp = true -> is_open sp = false.









Lemma steps_closed_alter t id l :
  steps_closed l -> steps_closed (alter (set_end t) id l).
Proof.
  intros Hl k sp' Hk Hs. apply lookup_alter_set_end in Hk as (sp & Hk & Hsp).
  destruct Hsp as [->|[_ ->]]; [by eapply Hl|apply set_end_closed].
Qed.





Section ChainSequence.
Variable e : env.
Hypothesis Hmono : clock_monotone e.
Variables depth delay_ms : Z.
Variable ctx0 : list nat.
Variable w0 : world.
Hypothesis Hstamped0 : stamped e w0.
Hypothesis Hfresh : Forall (fun sp => is_step sp = false) (spans w0).






End ChainSequence.


(** Two steps of a chain have ended, the third awaits its response. *)
Abbreviation chain_third_step :=
  (exec (chain_step example_env 5 10) [resume_main; resume_main; resume_main]
     (chain_init [] empty_world)).


(** ** The blocking chain runs to its end *)

(** A resumption of the main coroutine on a draw in [0, 1). *)
Definition main_resumption (l : label) : Prop :=
  lbl_task l = Main /\ valid_draw (lbl_backend l) = true.

Section ChainRuns.
Variable e : env.
Variables depth delay_ms : Z.


End ChainRuns.



(** ** Straight-line scenarios, segment by segment *)

Lemma alter_snoc_at {A : Type} (f : A -> A) (l l' : list A) (i k : nat) :
  i = (length l + k)%nat -> alter f i (l ++ l') = l ++ alter f k l'.
Proof. intros ->. apply alter_app_r. Qed.

(** The attributes [call_tool] gives its span. *)
Definition tool_call_attrs (e : env) (rq : tool_request) : gmap string attr_value :=
  _attrs e ("worker:" +:+ rq_tool rq) "tool_call"
    {[ "ati.tool.name" := AStr (rq_tool rq);
       "ati.retry.attempt" := AInt (rq_attempt rq);
       "ati.tool.delay_ms" := AInt (rq_delay_ms rq);
       "ati.tool.error_rate" := AFloat (rq_error_rate rq);
       "ati.tool.stream" := AInt (if rq_stream rq then 1 else 0);
       "ati.tool.payload_kb" := AInt (rq_payload_size_kb rq) ]}.

(** A world reached from [w] by [k] clock readings, with the spans [l]
    and the events [evs] added. *)
Definition extends (w : world) (l : list span) (k : nat) (evs : list event) (w' : world) : Prop :=
  spans w' = spans w ++ l /\ reads w' = (reads w + k)%nat /\ log w' = log w ++ evs.

Section Segments.
Variable e : env.
Variable w : world.

Lemma extends_refl : extends w [] 0 [] w.
Proof. unfold extends. by rewrite !app_nil_r, Nat.add_0_r. Qed.

Lemma extends_start name attrs ctx l k evs w1 ctx' w' :
  extends w l k evs w1 ->
  start_as_current_span e name attrs ctx w1 = (ctx', w') ->
  ctx' = (length (spans w) + length l)%nat :: ctx /\
  extends w (l ++ [Span name (head ctx) attrs (now e (reads w + k)) None]) (S k) evs w'.
Proof.
  intros (Hs & Hr & Hl) H. apply start_span_inv in H as (-> & Hs' & Hr' & Hl').
  rewrite Hs, length_app. split; [done|]. unfold extends.
  rewrite Hs', Hr', Hl', Hs, Hr, Hl, <- app_assoc. split; [done|]. split; [lia|done].
Qed.

Lemma extends_send t rq ctx l k evs w1 ctx' w' :
  extends w l k evs w1 ->
  call_tool_send e t rq ctx w1 = (ctx', w') ->
  ctx' = (length (spans w) + length l)%nat :: ctx /\
  extends w (l ++ [Span "tool_call" (head ctx) (tool_call_attrs e rq) (now e (reads w + k)) None])
    (S k) (evs ++ [EvRequest t rq]) w'.
Proof.
  intros (Hs & Hr & Hl) H. unfold call_tool_send, start_as_current_span, emit in H.
  inversion H; subst; clear H. rewrite Hs, length_app. split; [done|]. unfold extends. simpl.
  rewrite ?Hs, ?Hr, ?Hl, <- ?app_assoc. split; [done|]. split; [lia|done].
Qed.

Lemma extends_checkpoint_begin t size_kb agent_id ctx l k evs w1 ctx' w' :
  extends w l k evs w1 ->
  checkpoint_write_begin e t size_kb agent_id ctx w1 = (ctx', w') ->
  ctx' = (length (spans w) + length l)%nat :: ctx /\
  extends w
    (l ++ [Span "checkpoint" (head ctx)
             (_attrs e agent_id "checkpoint" {[ "ati.checkpoint.size_kb" := AInt size_kb ]})
             (now e (reads w + k)) None])
    (S k) (evs ++ [EvSleep t (checkpoint_delay size_kb)]) w'.
Proof.
  intros (Hs & Hr & Hl) H. unfold checkpoint_write_begin, start_as_current_span, emit in H.
  inversion H; subst; clear H. rewrite Hs, length_app. split; [done|]. unfold extends. simpl.
  rewrite ?Hs, ?Hr, ?Hl, <- ?app_assoc. split; [done|]. split; [lia|done].
Qed.

Lemma extends_exit i ctx l k evs w1 ctx' w' :
  extends w l k evs w1 ->
  exit_span e ((length (spans w) + i)%nat :: ctx) w1 = (ctx', w') ->
  ctx' = ctx /\ extends w (alter (set_end (now e (reads w + k))) i l) (S k) evs w'.
Proof.
  intros (Hs & Hr & Hl) H. apply exit_span_inv in H as (-> & Hs' & Hr' & Hl').
  split; [done|]. unfold extends.
  rewrite Hs', Hr', Hl', Hs, Hr, Hl, alter_app_r. split; [done|]. split; [lia|done].
Qed.

Lemma extends_recv t rq r i ctx l k evs w1 res ctx' w' :
  extends w l k evs w1 ->
  call_tool_recv e t rq r ((length (spans w) + i)%nat :: ctx) w1 = (res, (ctx', w')) ->
  ctx' = ctx /\
  extends w (alter (set_end (now e (reads w + k))) i l) (S k) (evs ++ [EvResponse t r]) w'.
Proof.
  intros (Hs & Hr & Hl) H. apply call_tool_recv_inv in H as (-> & Hs' & Hr' & Hl').
  split; [done|]. unfold extends.
  rewrite Hs', Hr', Hl', Hs, Hr, Hl, alter_app_r, <- app_assoc.
  split; [done|]. split; [lia|done].
Qed.


Lemma extends_emit ev l k evs w1 :
  extends w l k evs w1 -> extends w l k (evs ++ [ev]) (emit ev w1).
Proof.
  intros (Hs & Hr & Hl). unfold extends, emit. simpl. by rewrite Hl, <- app_assoc.
Qed.

End Segments.




(** ** A request with a human in the loop *)

(** X11: a [/run] request for the human scenario, resumed four times,
    the second and the fourth time on a draw in [0, 1), returns.  It has
    sent two requests, [pre_human] and [post_human], both with a delay of
    100 ms and error rate zero whatever the query says, and slept once
    between the first response and the second request, for
    [human_delay_s].  It leaves five ended spans: the workflow span as the
    root, the planner under it, and under the planner the first tool call,
    the [human_feedback] span and the second tool call, one after the
    other.  No checkpoint is written. *)
Theorem human_request_waits_between_two_calls (e : env) (q : query)
    (l1 l2 l3 l4 : label) :
  q_scenario q = Human ->
  lbl_task l1 = Main -> main_resumption l2 -> lbl_task l3 = Main -> main_resumption l4 ->
  let pre := ToolRequest "pre_human" 100 0 0 false 0 in
  let post := ToolRequest "post_human" 100 0 0 false 0 in
  let t := now e in
  exists s,
    exec (run_step e q) [l1; l2; l3; l4] RunPending = Some (RunHuman s) /\
    q_pc s = HReturned /\ q_ctx s = [] /\
    log (q_world s) =
      [EvRequest Main pre; EvResponse Main (backend_response e pre (lbl_backend l2));
       EvSleep Main (q_human_delay_s q);
       EvRequest Main post; EvResponse Main (backend_response e post (lbl_backend l4))] /\
    spans (q_world s) =
      [Span "workflow" None
         (_attrs e "workflow" "workflow" {[ "ati.scenario" := AStr "human" ]})
         (t 0%nat) (Some (t 9%nat));
       Span "planner" (Some 0%nat)
         (_attrs e "planner:v1" "planner" {[ "ati.human.delay_s" := AFloat (q_human_delay_s q) ]})
         (t 1%nat) (Some (t 8%nat));
       Span "tool_call" (Some 1%nat) (tool_call_attrs e pre) (t 2%nat) (Some (t 3%nat));
       Span "human_feedback" (Some 1%nat) (_attrs e "human" "interactive" ∅)
         (t 4%nat) (Some (t 5%nat));
       Span "tool_call" (Some 1%nat) (tool_call_attrs e post) (t 6%nat) (Some (t 7%nat))] /\
    Forall (fun sp => has_kind "checkpoint" sp = false) (spans (q_world s)).
Proof.
  intros Hq Hl1 [Hl2 Hd2] Hl3 [Hl4 Hd4] pre post t.
  cbn [exec].
  (* first segment *)
  unfold run_step at 1. rewrite Hl1.
  pose proof (extends_refl empty_world) as X0.
  destruct (start_as_current_span _ _ _ _ _) as [c0 w0] eqn:E0.
  destruct (extends_start e _ _ _ _ _ _ _ _ _ _ X0 E0) as [-> X]. clear E0 X0.
  unfold dispatch. rewrite Hq. unfold scenario_step, human_init.
  unfold human_step at 1. rewrite Hl1. cbn [q_pc q_ctx q_world].
  destruct (start_as_current_span _ _ _ _ _) as [c1 w1] eqn:E1.
  destruct (extends_start e _ _ _ _ _ _ _ _ _ _ X E1) as [-> X1]. clear E1 X.
  destruct (call_tool_send _ _ _ _ _) as [c2 w2] eqn:E2.
  destruct (extends_send e _ _ _ _ _ _ _ _ _ _ X1 E2) as [-> X2]. clear E2 X1.
  cbn [fmap option_fmap option_map leave_workflow q_pc q_ctx q_world app length head] in X2 |- *.
  (* second segment *)
  unfold run_step at 1. rewrite Hl2. unfold scenario_step.
  unfold human_step at 1. rewrite Hl2. cbn [q_pc q_ctx q_world]. rewrite Hd2.
  destruct (call_tool_recv _ _ _ _ _ _) as [res [c3 w3]] eqn:E3.
  destruct res as [v|exc]; [|recv_returned].
  destruct (extends_recv e _ _ _ _ _ _ _ _ _ _ _ _ _ X2 E3) as [-> X3]. clear E3 X2.
  destruct (start_as_current_span _ _ _ _ _) as [c4 w4] eqn:E4.
  destruct (extends_start e _ _ _ _ _ _ _ _ _ _ X3 E4) as [-> X4]. clear E4 X3.
  apply (extends_emit empty_world (EvSleep Main (q_human_delay_s q))) in X4.
  cbn [fmap option_fmap option_map leave_workflow q_pc q_ctx q_world
       alter list_alter app length head] in X4 |- *.
  (* third segment *)
  unfold run_step at 1. rewrite Hl3. unfold scenario_step.
  unfold human_step at 1. rewrite Hl3. cbn [q_pc q_ctx q_world].
  destruct (exit_span _ _ _) as [c5 w5] eqn:E5.
  destruct (extends_exit e _ _ _ _ _ _ _ _ _ X4 E5) as [-> X5]. clear E5 X4.
  destruct (call_tool_send _ _ _ _ _) as [c6 w6] eqn:E6.
  destruct (extends_send e _ _ _ _ _ _ _ _ _ _ X5 E6) as [-> X6]. clear E6 X5.
  cbn [fmap option_fmap option_map leave_workflow q_pc q_ctx q_world
       alter list_alter app length head] in X6 |- *.
  (* fourth segment *)
  unfold run_step at 1. rewrite Hl4. unfold scenario_step.
  unfold human_step at 1. rewrite Hl4. cbn [q_pc q_ctx q_world]. rewrite Hd4.
  destruct (call_tool_recv _ _ _ _ _ _) as [res [c7 w7]] eqn:E7.
  destruct res as [v'|exc]; [|recv_returned].
  destruct (extends_recv e _ _ _ _ _ _ _ _ _ _ _ _ _ X6 E7) as [-> X7]. clear E7 X6.
  destruct (exit_span _ _ _) as [c8 w8] eqn:E8.
  destruct (extends_exit e _ _ _ _ _ _ _ _ _ X7 E8) as [-> X8]. clear E8 X7.
  cbn [fmap option_fmap option_map leave_workflow q_pc q_ctx q_world] in X8 |- *.
  destruct (exit_span _ _ _) as [c9 w9] eqn:E9.
  destruct (extends_exit e _ _ _ _ _ _ _ _ _ X8 E9) as [-> X9]. clear E9 X8.
  cbn [alter list_alter app length head
       set_end end_time span_name span_parent span_attributes start_time] in X9.
  destruct X9 as (Hspans & _ & Hlog).
  cbn [spans log reads empty_world app length Nat.add] in Hspans, Hlog.
  exists (Sequential HReturned [] w9). cbn [q_world q_pc q_ctx].
  split; [reflexivity|]. split; [reflexivity|]. split; [reflexivity|].
  split; [exact Hlog|].
  rewrite Hspans, Hq. split; [reflexivity|].
  unfold tool_call_attrs.
  repeat (constructor; [by rewrite has_kind_attrs|]). constructor.
Qed.

Lemma human_request_waits_between_two_calls_witness :
  exists s,
    exec (run_step example_env (Query Human 100 20 80 60 (1 # 10) 3 10 1 5 2))
      [resume_main; resume_main; resume_main; resume_main] RunPending = Some (RunHuman s) /\
    q_pc s = HReturned /\ sleeps_of Main (log (q_world s)) = [1%Q].
Proof.
  destruct (human_request_waits_between_two_calls example_env
              (Query Human 100 20 80 60 (1 # 10) 3 10 1 5 2)
              resume_main resume_main resume_main resume_main)
    as (s & Hex & Hpc & _ & Hlog & _);
    [reflexivity|reflexivity|split; reflexivity|reflexivity|split; reflexivity|].
  exists s. split; [exact Hex|]. split; [exact Hpc|]. rewrite Hlog. reflexivity.
Defined.

(** ** The ReAct loop *)

(** Replace each helper segment's equation by what it did to the log. *)
Ltac seg_logs :=
  repeat match goal with
  | E : start_as_current_span ?e ?n ?a ?ctx ?w = (_, _) |- _ =>
      let H := fresh "Hlog" in
      pose proof (start_span_log e n a ctx w) as H; rewrite E in H; cbn [snd] in H; clear E
  | E : exit_span ?e ?ctx ?w = (_, _) |- _ =>
      let H := fresh "Hlog" in
      pose proof (exit_span_log e ctx w) as H; rewrite E in H; cbn [snd] in H; clear E
  | E : checkpoint_write_end ?e ?ctx ?w = (_, _) |- _ =>
      let H := fresh "Hlog" in
      unfold checkpoint_write_end in E;
      pose proof (exit_span_log e ctx w) as H; rewrite E in H; cbn [snd] in H; clear E
  | E : call_tool_send ?e ?t ?rq ?ctx ?w = (_, _) |- _ =>
      let H := fresh "Hlog" in
      pose proof (call_tool_send_log e t rq ctx w) as H; rewrite E in H; cbn [snd] in H; clear E
  | E : call_tool_recv ?e ?t ?rq ?r ?ctx ?w = (_, (_, _)) |- _ =>
      let H := fresh "Hlog" in
      pose proof (call_tool_recv_log e t rq r ctx w) as H; rewrite E in H; cbn [snd] in H; clear E
  | E : checkpoint_write_begin ?e ?t ?sz ?a ?ctx ?w = (_, _) |- _ =>
      let H := fresh "Hlog" in
      pose proof (checkpoint_write_begin_log e t sz a ctx w) as H; rewrite E in H;
      cbn [snd] in H; clear E
  end.

Ltac rewrite_logs :=
  repeat match goal with
  | H : log ?w = _ |- context [log ?w] => rewrite H
  end.







Section ReactRounds.
Variable e : env.
Variables max_steps delay_ms : Z.






End ReactRounds.


(** One round, then the observation draw 0.05 ends a loop of up to ten. *)
Abbreviation react_early_exit :=
  (exec (react_step example_env 10 80)
     [Label Main 0 [1 # 2]; resume_main; Label Main 0 [5 # 100]]
     (react_init [] empty_world)).


(** ** The diamond: fork, join, aggregate *)




Ltac flight :=
  unfold in_flight in *; rewrite_logs; rewrite ?count_events_snoc; simpl; lia.

Section DagJoin.
Variable e : env.
Variables fanout delay_ms : Z.





End DagJoin.


(** Two branches have returned and the aggregator's call is awaited. *)
Abbreviation dag_aggregator_calling :=
  (exec (dag_step example_env 2 10)
     [resume_main; resume 1; resume 0; resume 0; resume 1; resume_main]
     (dag_init [] empty_world)).


Section DagUngated.
Variable e : env.
Variables fanout delay_ms : Z.

Lemma dag_branches_start (m : nat) :
  forall k s,
    (forall i, (k <= i < k + m)%nat -> exists ctx, f_tasks s !! i = Some (Task ctx CCreated)) ->
    exists s',
      exec (dag_step e fanout delay_ms) (map resume (seq k m)) s = Some s' /\
      f_pc s' = f_pc s /\ length (f_tasks s') = length (f_tasks s) /\
      in_flight (f_world s') = in_flight (f_world s) + Z.of_nat m.
Proof.
  induction m as [|m IH]; intros k s Hcreated.
  - exists s. simpl. split; [done|]. split; [done|]. split; [done|lia].
  - destruct (Hcreated k) as [ctx Hk]; [lia|].
    cbn [seq map exec]. unfold dag_step at 1. cbn [resume lbl_task lbl_backend].
    unfold dag_worker_step. rewrite Hk.
    destruct (start_as_current_span _ _ _ _ _) as [ctx1 w1] eqn:E1.
    destruct (call_tool_send _ _ _ _ _) as [ctx2 w2] eqn:E2. seg_logs.
    destruct (IH (S k) (Forked (f_pc s) (f_ctx s)
                          (<[k := Task ctx2 CCalling]> (f_tasks s)) w2))
      as (s' & Hex & Hpc & Hlen & Hfl).
    { intros i Hi. cbn [f_tasks]. rewrite list_lookup_insert_ne by lia.
      apply Hcreated. lia. }
    exists s'. split; [done|]. split; [done|].
    split; [by rewrite Hlen; cbn [f_tasks]; rewrite length_insert|].
    rewrite Hfl. cbn [f_world]. flight.
Qed.

End DagUngated.

(** X14: nothing gates the branches of the diamond: whatever the
    fan-out, once the planner has forked, resuming every branch once puts
    all of them in flight at the same time. *)
Theorem dag_branches_all_in_flight (e : env) (fanout delay_ms : Z)
    (ctx : list nat) (w : world) :
  exists s,
    exec (dag_step e fanout delay_ms)
      (resume_main :: map resume (seq 0 (Z.to_nat fanout))) (dag_init ctx w) = Some s /\
    f_pc s = PGather /\
    length (f_tasks s) = Z.to_nat fanout /\
    in_flight (f_world s) = in_flight w + Z.of_nat (Z.to_nat fanout).
Proof.
  cbn [exec]. unfold dag_step at 1. cbn [resume_main lbl_task lbl_backend].
  unfold dag_planner_step. cbn [dag_init f_pc f_ctx f_world].
  destruct (start_as_current_span _ _ _ _ _) as [ctx1 w1] eqn:E1. seg_logs.
  destruct (dag_branches_start e fanout delay_ms (Z.to_nat fanout) 0
              (Forked PGather ctx1 (replicate (Z.to_nat fanout) (Task ctx1 CCreated)) w1))
    as (s & Hex & Hpc & Hlen & Hfl).
  { intros i Hi. exists ctx1. cbn [f_tasks]. apply lookup_replicate. split; [done|lia]. }
  exists s. split; [done|]. split; [done|].
  split; [by rewrite Hlen; cbn [f_tasks]; rewrite length_replicate|].
  rewrite Hfl. cbn [f_world]. flight.
Qed.

(** ** Degenerate gates *)

Lemma gather_nobody_started {W : Type} (result : W -> option outcome) (c : list nat) (st : W)
    (n : nat) :
  result st = None -> (0 < n)%nat ->
  gather (map (fun t => result (t_state t)) (replicate n (Task c st))) = GPending.
Proof.
  intros Hst Hn. destruct n as [|n]; [lia|]. simpl. rewrite Hst.
  destruct (gather _) eqn:Hg; try done.
  apply gather_raised in Hg. apply list_elem_of_fmap in Hg as (t & Ht & Hin).
  apply elem_of_replicate in Hin as [-> _]. simpl in Ht. congruence.
Qed.

(** The gate of width zero, after the planner has created its tasks:
    nobody has passed it. *)
Definition all_waiting {W : Type} (created : W) (fanout : Z) (w : world) (s : gated W) : Prop :=
  log (g_world s) = log w /\
  (g_pc s = PStart /\ g_tasks s = [] \/
   g_pc s = PGather /\ g_sem s = 0 /\
   exists c, g_tasks s = replicate (Z.to_nat fanout) (Task c created)).

Section ZeroWidth.
Variable e : env.
Variables fanout delay_ms : Z.
Hypothesis Hfanout : 0 < fanout.

Lemma fanout_zero_width_stuck s :
  g_pc s = PGather -> g_sem s = 0 ->
  (exists c, g_tasks s = replicate (Z.to_nat fanout) (Task c CCreated)) ->
  quiescent (fanout_step e 0 fanout delay_ms) s.
Proof.
  intros Hpc Hsem [c Ht] l. unfold fanout_step. destruct (lbl_task l).
  - unfold fanout_planner_step. rewrite Hpc, Ht.
    by rewrite (gather_nobody_started call_result) by (done || lia).
  - unfold fanout_worker_step. rewrite Ht.
    destruct (replicate _ _ !! i) as [[c' st]|] eqn:Hi; [|done].
    apply lookup_replicate in Hi as [[= -> ->] _]. by rewrite Hsem.
Qed.

Lemma fanout_zero_width_inv ctx w s :
  reachable (fanout_step e 0 fanout delay_ms) (fanout_init ctx w) s ->
  all_waiting CCreated fanout w s.
Proof.
  apply reachable_invariant.
  - split; [done|]. by left.
  - intros s1 l s2 [Hlog [[Hpc Ht]|(Hpc & Hsem & Ht)]] H.
    + unfold fanout_step in H. destruct (lbl_task l).
      * unfold fanout_planner_step in H. rewrite Hpc in H.
        destruct (start_as_current_span _ _ _ _ _) as [c1 w1] eqn:E1. seg_logs.
        simpl in H. inversion H; subst s2; clear H. split; [simpl; by rewrite_logs|].
        right. simpl. eauto.
      * unfold fanout_worker_step in H. by rewrite Ht in H.
    + by rewrite (fanout_zero_width_stuck s1 Hpc Hsem Ht l) in H.
Qed.

Variable error_rate : Q.
Variable max_retries : Z.

Lemma retry_zero_width_stuck s :
  g_pc s = PGather -> g_sem s = 0 ->
  (exists c, g_tasks s = replicate (Z.to_nat fanout) (Task c RCreated)) ->
  quiescent (retry_step e fanout 0 delay_ms error_rate max_retries) s.
Proof.
  intros Hpc Hsem [c Ht] l. unfold retry_step. destruct (lbl_task l).
  - unfold retry_planner_step. rewrite Hpc, Ht.
    rewrite (gather_nobody_started retry_result); [done|done|lia].
  - unfold retry_worker_step. rewrite Ht.
    destruct (replicate _ _ !! i) as [[c' st]|] eqn:Hi; [|done].
    apply lookup_replicate in Hi as [[= -> ->] _]. by rewrite Hsem.
Qed.

Lemma retry_zero_width_inv ctx w s :
  reachable (retry_step e fanout 0 delay_ms error_rate max_retries) (retry_init ctx w) s ->
  all_waiting RCreated fanout w s.
Proof.
  apply reachable_invariant.
  - split; [done|]. by left.
  - intros s1 l s2 [Hlog [[Hpc Ht]|(Hpc & Hsem & Ht)]] H.
    + unfold retry_step in H. destruct (lbl_task l).
      * unfold retry_planner_step in H. rewrite Hpc in H.
        destruct (start_as_current_span _ _ _ _ _) as [c1 w1] eqn:E1. seg_logs.
        simpl in H. inversion H; subst s2; clear H. split; [simpl; by rewrite_logs|].
        right. simpl. eauto.
      * unfold retry_worker_step in H. by rewrite Ht in H.
    + by rewrite (retry_zero_width_stuck s1 Hpc Hsem Ht l) in H.
Qed.

End ZeroWidth.

(** X15: with [concurrency = 0] and a positive fan-out, the fan-out and
    the retry storm hang: the planner creates its tasks and waits for
    them, no task ever passes the semaphore, no request is sent, no sleep
    is taken, and once the planner waits nothing can be resumed, so the
    scenario neither returns nor raises. *)
Theorem zero_concurrency_hangs (e : env) (fanout delay_ms : Z) (error_rate : Q)
    (max_retries : Z) (ctx : list nat) (w : world) :
  0 < fanout ->
  (forall s,
     reachable (fanout_step e 0 fanout delay_ms) (fanout_init ctx w) s ->
     log (g_world s) = log w /\ (g_pc s = PStart \/ g_pc s = PGather) /\
     (g_pc s = PGather ->
        length (g_tasks s) = Z.to_nat fanout /\
        quiescent (fanout_step e 0 fanout delay_ms) s)) /\
  (forall s,
     reachable (retry_step e fanout 0 delay_ms error_rate max_retries) (retry_init ctx w) s ->
     log (g_world s) = log w /\ (g_pc s = PStart \/ g_pc s = PGather) /\
     (g_pc s = PGather ->
        length (g_tasks s) = Z.to_nat fanout /\
        quiescent (retry_step e fanout 0 delay_ms error_rate max_retries) s)).
Proof.
  intros Hf. split; intros s Hr.
  - destruct (fanout_zero_width_inv e fanout delay_ms Hf ctx w s Hr)
      as [Hlog [[Hpc Ht]|(Hpc & Hsem & Ht)]].
    + split; [done|]. split; [by left|]. intros Hg. congruence.
    + split; [done|]. split; [by right|]. intros _. split.
      * destruct Ht as [c ->]. by rewrite length_replicate.
      * by apply fanout_zero_width_stuck.
  - destruct (retry_zero_width_inv e fanout delay_ms Hf error_rate max_retries ctx w s Hr)
      as [Hlog [[Hpc Ht]|(Hpc & Hsem & Ht)]].
    + split; [done|]. split; [by left|]. intros Hg. congruence.
    + split; [done|]. split; [by right|]. intros _. split.
      * destruct Ht as [c ->]. by rewrite length_replicate.
      * by apply retry_zero_width_stuck.
Qed.

(** The fan-out of default size behind a gate of width zero, after the
    planner's only segment. *)
Abbreviation fanout_zero_width :=
  (exec (fanout_step example_env 0 100 80) [resume_main] (fanout_init [] empty_world)).

Lemma zero_concurrency_hangs_witness :
  exists s,
    fanout_zero_width = Some s /\ g_pc s = PGather /\
    log (g_world s) = [] /\ length (g_tasks s) = 100%nat /\
    quiescent (fanout_step example_env 0 100 80) s.
Proof.
  assert ((fun s => g_pc s) <$> fanout_zero_width = Some PGather) as Hv
    by (vm_compute; reflexivity).
  destruct (exec _ _ _) as [s|] eqn:E; [|discriminate Hv].
  simpl in Hv. injection Hv as Hpc.
  destruct (proj1 (zero_concurrency_hangs example_env 100 80 0 0 [] empty_world eq_refl) s
              (exec_reachable _ _ _ _ _ (reach_init _ _) E)) as (Hlog & _ & Hstuck).
  destruct (Hstuck Hpc) as [Hlen Hq].
  exists s. split; [reflexivity|]. split; [exact Hpc|]. split; [exact Hlog|].
  split; [exact Hlen|exact Hq].
Defined.

(** ** A negative concurrency *)

(** X16: a [/run] request for the fan-out or the retry storm with a
    negative concurrency fails in its first segment: [asyncio.Semaphore]
    raises [ValueError] before any task is created, so no request is sent;
    the planner span and the workflow span are both ended on the way out,
    and nothing is left to resume. *)
Theorem negative_concurrency_raises (e : env) (q : query) (l : label) :
  q_scenario q = Fanout \/ q_scenario q = Retry ->
  q_concurrency q < 0 ->
  lbl_task l = Main ->
  exists r planner_attrs,
    run_step e q l RunPending = Some r /\
    scenario_raised r = Some "ValueError" /\
    log (run_world r) = [] /\
    spans (run_world r) =
      [Span "workflow" None
         (_attrs e "workflow" "workflow"
            {[ "ati.scenario" := AStr (scenario_name (q_scenario q)) ]})
         (now e 0) (Some (now e 3));
       Span "planner" (Some 0%nat) planner_attrs (now e 1) (Some (now e 2))] /\
    quiescent (run_step e q) r.
Proof.
  intros Hsc Hc Hl. unfold run_step at 1. rewrite Hl.
  cbn [start_as_current_span empty_world spans reads log length head app].
  unfold dispatch. apply Z.ltb_lt in Hc.
  destruct Hsc as [Hsc|Hsc]; rewrite Hsc; cbn [scenario_step].
  - unfold fanout_step. rewrite Hl. unfold fanout_planner_step.
    cbn [fanout_init g_pc g_ctx g_world start_as_current_span spans reads log length head app].
    rewrite Hc.
    cbn [exit_span fmap option_fmap option_map leave_workflow planner_over g_pc g_ctx g_world
         g_sem g_tasks spans reads log alter list_alter set_end end_time span_name span_parent
         span_attributes start_time].
    eexists _, _. split; [reflexivity|]. cbn [scenario_raised planner_raised g_pc run_world g_world
      spans log]. split; [done|]. split; [done|]. split; [done|].
    intros l'. unfold run_step. destruct (lbl_task l'); cbn [scenario_step].
    + unfold fanout_step. by destruct (lbl_task l').
    + unfold fanout_step. by destruct (lbl_task l').
  - unfold retry_step. rewrite Hl. unfold retry_planner_step.
    cbn [retry_init g_pc g_ctx g_world start_as_current_span spans reads log length head app].
    rewrite Hc.
    cbn [exit_span fmap option_fmap option_map leave_workflow planner_over g_pc g_ctx g_world
         g_sem g_tasks spans reads log alter list_alter set_end end_time span_name span_parent
         span_attributes start_time].
    eexists _, _. split; [reflexivity|]. cbn [scenario_raised planner_raised g_pc run_world g_world
      spans log]. split; [done|]. split; [done|]. split; [done|].
    intros l'. unfold run_step. destruct (lbl_task l'); cbn [scenario_step].
    + unfold retry_step. by destruct (lbl_task l').
    + unfold retry_step. by destruct (lbl_task l').
Qed.

Lemma negative_concurrency_raises_witness :
  exists r,
    run_step example_env (Query Fanout 100 (-1) 80 60 (1 # 10) 3 10 1 5 2) resume_main RunPending
      = Some r /\
    scenario_raised r = Some "ValueError" /\ log (run_world r) = [].
Proof.
  destruct (negative_concurrency_raises example_env
              (Query Fanout 100 (-1) 80 60 (1 # 10) 3 10 1 5 2) resume_main)
    as (r & a & Hstep & Hraised & Hlog & _); [by left|reflexivity|reflexivity|].
  exists r. split; [exact Hstep|]. split; [exact Hraised|exact Hlog].
Defined.

(** ** The [/stream] handler ([agent_app/app.py]) *)

(** Where the async generator [gen] of [stream] stands: not started;
    suspended at [yield] after handing over token [i]; in
    [asyncio.sleep(0.05)] with [i] already incremented; in
    [await bg_task]; finished; failed.  The two middle states carry the
    local variables [i] and [t0]. *)
Inductive gen_pc :=
| TCreated
| TYielded (i : nat) (t0 : Q)
| TSleeping (i : nat) (t0 : Q)
| TJoining
| TFinished
| TFailed (exc : string).

(** The generator, the chunks it has yielded, the arguments of its
    sleeps, and [bg_task].  The world all tasks share is kept in the
    record of [bg_task]; before the first pull that record only holds
    the world, the task does not exist yet. *)
Record streaming := Streaming {
  st_pc : gen_pc;
  st_ctx : list nat;
  st_tokens : list string;
  st_naps : list Q;
  st_bg : gated call_worker;
}.

(** The consumer of the response asks for the next chunk; the event loop
    resumes the generator after a sleep or once [bg_task] is done; or it
    runs a segment of [bg_task] or of one of its workers. *)
Inductive stream_label :=
| Pull
| Wake
| Background (l : label).

Definition with_world {W : Type} (s : gated W) (w : world) : gated W :=
  Gated (g_pc s) (g_ctx s) (g_sem s) (g_tasks s) w.

(** A reading of [time.time()]: one more clock reading is taken. *)
Definition tick (w : world) : world := World (spans w) (S (reads w)) (log w).

(** [f"token {i}\n"] *)
Definition token (i : nat) : string := "token " +:+ pretty i +:+ newline.

Section Stream.
Variable e : env.
(** [time.time()] at each clock reading, in seconds. *)
Variable wall : nat -> Q.
Variables duration_s tool_delay_ms background_fanout : Z.

Definition stream_init (ctx : list nat) (w : world) : streaming :=
  Streaming TCreated ctx [] [] (fanout_init ctx w).

(** [await bg_task], then the exit of the span: a finished task is
    awaited without suspending. *)
Definition join (ctx : list nat) (tokens : list string) (naps : list Q)
    (bg : gated call_worker) : streaming :=
  match g_pc bg with
  | PReturned =>
      let '(ctx1, w1) := exit_span e ctx (g_world bg) in
      Streaming TFinished ctx1 tokens naps (with_world bg w1)
  | PRaised exc =>
      let '(ctx1, w1) := exit_span e ctx (g_world bg) in
      Streaming (TFailed exc) ctx1 tokens naps (with_world bg w1)
  | _ => Streaming TJoining ctx tokens naps bg
  end.

(** The head of [while time.time() - t0 < duration_s]. *)
Definition loop_test (i : nat) (t0 : Q) (ctx : list nat) (tokens : list string)
    (naps : list Q) (bg : gated call_worker) : streaming :=
  let t := wall (reads (g_world bg)) in
  let bg1 := with_world bg (tick (g_world bg)) in
  if Qlt_bool (t - t0) (inject_Z duration_s) then
    Streaming (TYielded i t0) ctx (tokens ++ [token i]) naps bg1
  else join ctx tokens naps bg1.

Definition stream_step (l : stream_label) (s : streaming) : option streaming :=
  match l with
  | Pull =>
      match st_pc s with
      | TCreated =>
          let '(ctx1, w1) :=
            start_as_current_span e "token_stream"
              (_attrs e "streamer:v1" "token_stream"
                 {[ "ati.stream.duration_s" := AInt duration_s;
                    "ati.bg.fanout" := AInt background_fanout ]})
              (st_ctx s) (g_world (st_bg s)) in
          (* asyncio.create_task copies the context *)
          let bg := fanout_init ctx1 w1 in
          let t0 := wall (reads w1) in
          Some (loop_test 0 t0 ctx1 [] [] (with_world bg (tick w1)))
      | TYielded i t0 =>
          Some (Streaming (TSleeping (S i) t0) (st_ctx s) (st_tokens s)
                  (st_naps s ++ [(5 # 100)%Q]) (st_bg s))
      | _ => None
      end
  | Wake =>
      match st_pc s with
      | TSleeping i t0 =>
          Some (loop_test i t0 (st_ctx s) (st_tokens s) (st_naps s) (st_bg s))
      | TJoining =>
          match g_pc (st_bg s) with
          | PReturned | PRaised _ =>
              Some (join (st_ctx s) (st_tokens s) (st_naps s) (st_bg s))
          | _ => None
          end
      | _ => None
      end
  | Background l' =>
      match st_pc s with
      | TCreated => None
      | _ =>
          Streaming (st_pc s) (st_ctx s) (st_tokens s) (st_naps s)
            <$> fanout_step e 10 background_fanout tool_delay_ms l' (st_bg s)
      end
  end.

End Stream.

(** *** Properties of the token stream *)

Lemma fanout_gate_inv_with_world c f (s : gated call_worker) w :
  fanout_gate_inv c f s -> log w = log (g_world s) -> fanout_gate_inv c f (with_world s w).
Proof.
  intros [H1 H2 H3 H4 H5 H6 H7] Hw. split; cbn [with_world g_pc g_ctx g_sem g_tasks g_world].
  - intros Hpc. rewrite Hw. by apply H1.
  - intros exc Hpc. rewrite Hw. by apply (H2 exc).
  - done.
  - by rewrite (in_flight_log w (g_world s)).
  - done.
  - done.
  - done.
Qed.

Lemma fanout_gate_in_flight c f (s : gated call_worker) :
  0 <= c -> fanout_gate_inv c f s -> 0 <= in_flight (g_world s) <= c.
Proof.
  intros Hc I. rewrite (fg_in_flight _ _ s I).
  destruct (g_pc s) eqn:E.
  1: destruct (fg_not_started _ _ s I E) as [-> _]; unfold count_tasks, count; simpl; lia.
  5: destruct (fg_raised _ _ s I exc E) as (_ & -> & _); unfold count_tasks, count; simpl; lia.
  all: destruct (fg_gate _ _ s I) as (_ & _ & ? & ?); [congruence|congruence|lia].
Qed.

(** Tokens yielded ([k]) and sleeps taken ([m]) at each point of the
    generator. *)
Definition stream_progress (pc : gen_pc) (k m : nat) : Prop :=
  match pc with
  | TCreated => k = 0%nat /\ m = 0%nat
  | TYielded i _ => k = S i /\ m = i
  | TSleeping i _ => k = i /\ m = i /\ (1 <= i)%nat
  | TJoining | TFinished => k = m
  | TFailed _ => False
  end.

Section StreamFacts2.
Variable e : env.
Variable wall : nat -> Q.
Variables duration_s tool_delay_ms background_fanout : Z.

Abbreviation sstep := (stream_step e wall duration_s tool_delay_ms background_fanout).

Record stream_inv (s : streaming) : Prop := StreamInv {
  si_progress :
    exists k m, stream_progress (st_pc s) k m /\
      st_tokens s = map token (seq 0 k) /\ st_naps s = replicate m (5 # 100)%Q;
  si_created : st_pc s = TCreated -> log (g_world (st_bg s)) = [];
  si_bg : st_pc s <> TCreated -> fanout_gate_inv 10 background_fanout (st_bg s);
  si_finished : st_pc s = TFinished -> g_pc (st_bg s) = PReturned;
}.

Lemma join_inv ctx k bg :
  fanout_gate_inv 10 background_fanout bg ->
  stream_inv (join e ctx (map token (seq 0 k)) (replicate k (5 # 100)%Q) bg).
Proof.
  intros I. unfold join. destruct (g_pc bg) eqn:Epc.
  6: { destruct (fg_raised _ _ bg I exc Epc) as [? _]. lia. }
  5: { destruct (exit_span e ctx (g_world bg)) as [ctx1 w1] eqn:E1. seg_logs.
       split; cbn [st_pc st_tokens st_naps st_bg]; try done.
       - exists k, k. by cbn.
       - intros _. by apply fanout_gate_inv_with_world. }
  all: split; cbn [st_pc st_tokens st_naps st_bg]; try done; exists k, k; by cbn.
Qed.

Lemma loop_test_inv i t0 ctx bg :
  fanout_gate_inv 10 background_fanout bg ->
  stream_inv (loop_test e wall duration_s i t0 ctx (map token (seq 0 i))
                (replicate i (5 # 100)%Q) bg).
Proof.
  intros I. unfold loop_test.
  assert (fanout_gate_inv 10 background_fanout (with_world bg (tick (g_world bg)))) as I'
    by (by apply fanout_gate_inv_with_world).
  destruct (Qlt_bool _ _).
  - split; cbn [st_pc st_tokens st_naps st_bg]; try done.
    exists (S i), i. split; [done|]. by rewrite seq_S, map_app.
  - by apply join_inv.
Qed.

Lemma stream_inv_init ctx w : log w = [] -> stream_inv (stream_init ctx w).
Proof.
  intros Hw. split; cbn; try done. by exists 0%nat, 0%nat.
Qed.

Lemma stream_step_inv l s s' : stream_inv s -> sstep l s = Some s' -> stream_inv s'.
Proof.
  intros [(k & m & Hp & Ht & Hn) Hc Hbg Hf] H. unfold stream_step in H.
  destruct l as [| |l'].
  - (* Pull *)
    destruct (st_pc s) eqn:Epc; try done; cbn [stream_progress] in Hp.
    + destruct (start_as_current_span _ _ _ _ _) as [ctx1 w1] eqn:E1. seg_logs.
      inversion H; subst s'; clear H.
      apply (loop_test_inv 0 _ _ _).
      apply fanout_gate_inv_with_world; [|done].
      apply fanout_gate_inv_init. rewrite_logs. by apply Hc.
    + destruct Hp as [-> ->]. inversion H; subst s'; clear H.
      split; cbn [st_pc st_tokens st_naps st_bg]; try done.
      * exists (S i), (S i). split; [cbn; lia|]. split; [done|].
        by rewrite Hn, replicate_S_end.
      * intros _. by apply Hbg.
  - (* Wake *)
    destruct (st_pc s) eqn:Epc; try done; cbn [stream_progress] in Hp.
    + destruct Hp as (-> & -> & Hi). inversion H; subst s'; clear H.
      rewrite Ht, Hn. apply loop_test_inv. by apply Hbg.
    + subst m. destruct (g_pc (st_bg s)) eqn:Eb; try done;
        inversion H; subst s'; clear H; rewrite Ht, Hn; apply join_inv; by apply Hbg.
  - (* Background *)
    destruct (st_pc s) eqn:Epc; try done;
      destruct (fmap_Some_1 _ _ _ H) as (bg' & Hstep & ->); clear H;
      (assert (fanout_gate_inv 10 background_fanout bg') as I'
         by (eapply fanout_step_gate; [apply Hbg; congruence|exact Hstep]));
      (split; cbn [st_pc st_tokens st_naps st_bg]; try done; [by exists k, m|..]).
    all: try (intros _; exfalso).
    all: try (specialize (Hf eq_refl); unfold fanout_step in Hstep;
              destruct (lbl_task l'); [unfold fanout_planner_step in Hstep; by rewrite Hf in Hstep|]).
    unfold fanout_worker_step in Hstep.
    destruct (g_tasks (st_bg s) !! i) as [[c st]|] eqn:Hi; [|done].
    assert (fanout_gate_inv 10 background_fanout (st_bg s)) as I by (by apply Hbg).
    pose proof (fg_join _ _ _ I (or_intror Hf)) as Hall.
    rewrite Forall_lookup in Hall. destruct (Hall i _ Hi) as [v Hv]. simpl in Hv.
    by subst st.
Qed.

Lemma stream_reachable_inv ctx w s :
  log w = [] -> reachable sstep (stream_init ctx w) s -> stream_inv s.
Proof.
  intros Hw. apply reachable_invariant; [by apply stream_inv_init|].
  intros s1 l s2 I H. by eapply stream_step_inv.
Qed.

End StreamFacts2.


(** X18: the background fan-out of [/stream] runs behind a gate of width
    ten whatever the query says: at every point of the stream at most ten
    tool calls are in flight. *)
Theorem stream_background_gate_is_ten (e : env) (wall : nat -> Q)
    (duration_s tool_delay_ms background_fanout : Z)
    (ctx : list nat) (w : world) (s : streaming) :
  log w = [] ->
  reachable (stream_step e wall duration_s tool_delay_ms background_fanout)
    (stream_init ctx w) s ->
  0 <= in_flight (g_world (st_bg s)) <= 10.
Proof.
  intros Hw Hr.
  destruct (stream_reachable_inv e wall duration_s tool_delay_ms background_fanout ctx w s Hw Hr)
    as [_ Hc Hbg _].
  destruct (st_pc s) eqn:Epc.
  1: { unfold in_flight, count_events. rewrite (Hc eq_refl). simpl. lia. }
  all: apply (fanout_gate_in_flight 10 background_fanout); [lia|by apply Hbg].
Qed.

(** A wall clock that advances by 10 ms per reading. *)
Definition example_wall (n : nat) : Q := inject_Z (Z.of_nat n) * (1 # 100).

Lemma example_wall_monotone n m : (n <= m)%nat -> (example_wall n <= example_wall m)%Q.
Proof.
  intros H. unfold example_wall. apply Qmult_le_compat_r; [|done].
  rewrite <- Zle_Qle. lia.
Qed.

(** Two tokens have been yielded and the generator is in its second
    sleep. *)
Abbreviation stream_two_tokens :=
  (exec (stream_step example_env example_wall 20 400 50) [Pull; Pull; Wake; Pull]
     (stream_init [] empty_world)).


(** Ten of twelve background workers are calling: the gate is full. *)
Abbreviation stream_gate_full :=
  (exec (stream_step example_env example_wall 20 400 12)
     (Pull :: Background resume_main :: map (fun i => Background (resume i)) (seq 0 10))
     (stream_init [] empty_world)).

Lemma stream_background_gate_is_ten_witness :
  exists s,
    stream_gate_full = Some s /\
    g_sem (st_bg s) = 0 /\ in_flight (g_world (st_bg s)) = 10 /\
    0 <= in_flight (g_world (st_bg s)) <= 10.
Proof.
  assert ((fun s => (g_sem (st_bg s), in_flight (g_world (st_bg s)))) <$> stream_gate_full
          = Some (0, 10)) as Hv by (vm_compute; reflexivity).
  destruct (exec _ _ _) as [s|] eqn:E; [|discriminate Hv].
  simpl in Hv. injection Hv as Hsem Hfl.
  exists s. split; [reflexivity|]. split; [exact Hsem|]. split; [exact Hfl|].
  refine (stream_background_gate_is_ten example_env example_wall 20 400 12
            [] empty_world s eq_refl _).
  exact (exec_reachable _ _ _ _ _ (reach_init _ _) E).
Defined.

Section StreamNoDuration.
Variable e : env.
Variable wall : nat -> Q.
Hypothesis Hwall : forall n m : nat, (n <= m)%nat -> (wall n <= wall m)%Q.
Variables duration_s tool_delay_ms background_fanout : Z.
Hypothesis Hduration : duration_s <= 0.

(** The generator has yielded nothing and is not inside the loop. *)
Definition silent (s : streaming) : Prop :=
  st_tokens s = [] /\ st_naps s = [] /\
  match st_pc s with TYielded _ _ | TSleeping _ _ => False | _ => True end.

Lemma join_silent ctx bg : silent (join e ctx [] [] bg).
Proof.
  unfold join. destruct (g_pc bg); try done; by destruct (exit_span _ _ _).
Qed.

Lemma stream_step_silent l s s' :
  silent s -> stream_step e wall duration_s tool_delay_ms background_fanout l s = Some s' ->
  silent s'.
Proof.
  intros (Ht & Hn & Hpc) H. unfold stream_step in H. destruct l as [| |l'].
  - destruct (st_pc s) eqn:Epc; try done.
    destruct (start_as_current_span _ _ _ _ _) as [ctx1 w1] eqn:E1.
    inversion H; subst s'; clear H. unfold loop_test.
    cbn [with_world g_world tick reads].
    assert (Qlt_bool (wall (S (reads w1)) - wall (reads w1)) (inject_Z duration_s) = false) as ->.
    { unfold Qlt_bool. apply negb_false_iff, Qle_bool_iff.
      pose proof (Hwall (reads w1) (S (reads w1)) ltac:(lia)).
      assert (inject_Z duration_s <= 0)%Q by (by rewrite (Zle_Qle duration_s 0) in Hduration).
      lra. }
    apply join_silent.
  - destruct (st_pc s) eqn:Epc; try done.
    destruct (g_pc (st_bg s)); try done; inversion H; subst s'; clear H;
      rewrite Ht, Hn; apply join_silent.
  - destruct (st_pc s) eqn:Epc; try done;
      destruct (fmap_Some_1 _ _ _ H) as (bg' & _ & ->); by split; [|split].
Qed.

End StreamNoDuration.

(** X19: with a wall clock that does not run backwards, a [/stream]
    request whose [duration_s] is zero or negative yields no token and
    takes no sleep: the loop test fails the first time, and the generator
    goes straight to awaiting the background fan-out. *)
Theorem stream_without_duration_yields_nothing (e : env) (wall : nat -> Q)
    (duration_s tool_delay_ms background_fanout : Z)
    (ctx : list nat) (w : world) (s : streaming) :
  (forall n m : nat, (n <= m)%nat -> (wall n <= wall m)%Q) ->
  duration_s <= 0 ->
  reachable (stream_step e wall duration_s tool_delay_ms background_fanout)
    (stream_init ctx w) s ->
  st_tokens s = [] /\ st_naps s = [] /\
  (st_pc s = TCreated \/ st_pc s = TJoining \/ st_pc s = TFinished \/
   exists exc, st_pc s = TFailed exc).
Proof.
  intros Hwall Hd Hr.
  assert (silent s) as (Ht & Hn & Hpc).
  { revert Hr. apply reachable_invariant; [done|].
    intros s1 l s2 I H. by eapply stream_step_silent. }
  split; [done|]. split; [done|].
  destruct (st_pc s); try done; eauto.
Qed.

Lemma stream_without_duration_yields_nothing_witness :
  exists s,
    exec (stream_step example_env example_wall 0 400 50) [Pull; Background resume_main]
      (stream_init [] empty_world) = Some s /\
    st_pc s = TJoining /\ st_tokens s = [].
Proof.
  assert ((fun s => st_pc s) <$>
            exec (stream_step example_env example_wall 0 400 50) [Pull; Background resume_main]
              (stream_init [] empty_world) = Some TJoining) as Hv
    by (vm_compute; reflexivity).
  destruct (exec _ _ _) as [s|] eqn:E; [|discriminate Hv].
  simpl in Hv. injection Hv as Hpc.
  exists s. split; [reflexivity|]. split; [exact Hpc|].
  refine (proj1 (stream_without_duration_yields_nothing example_env example_wall 0 400 50
                   [] empty_world s example_wall_monotone _ _)); [lia|].
  exact (exec_reachable _ _ _ _ _ (reach_init _ _) E).
Defined.

(** ** The gated scenarios for every size and width *)

(** X20: the fan-out and the retry storm cannot run forever, whatever the
    interleaving, the draws and the error rate: an execution of the
    fan-out has at most [3 + 2 * fanout] segments, one of the retry storm
    at most [3 + fanout * (2 * max_retries + 3)] (a negative [fanout] or
    [max_retries] counting as zero). *)
Theorem gated_scenarios_are_bounded (e : env) (fanout concurrency delay_ms : Z)
    (error_rate : Q) (max_retries : Z) (ctx : list nat) (w : world) :
  log w = [] ->
  (forall ls s,
     exec (fanout_step e concurrency fanout delay_ms) ls (fanout_init ctx w) = Some s ->
     (length ls <= 3 + 2 * Z.to_nat fanout)%nat) /\
  (forall ls s,
     exec (retry_step e fanout concurrency delay_ms error_rate max_retries) ls
       (retry_init ctx w) = Some s ->
     (length ls <= 3 + Z.to_nat fanout * (2 * Z.to_nat (Z.max max_retries 0) + 3))%nat).
Proof.
  intros Hw. split; intros ls s Hex.
  - by eapply fanout_bounded.
  - by eapply retry_bounded.
Qed.

(** Three segments of a fan-out of five. *)
Abbreviation fanout_three_segments :=
  (exec (fanout_step example_env 2 5 10) [resume_main; resume 0; resume 3]
     (fanout_init [] empty_world)).

Lemma gated_scenarios_are_bounded_witness :
  exists s,
    fanout_three_segments = Some s /\ g_pc s = PGather /\
    (length [resume_main; resume 0; resume 3] <= 3 + 2 * Z.to_nat 5)%nat.
Proof.
  assert ((fun s => g_pc s) <$> fanout_three_segments = Some PGather) as Hv
    by (vm_compute; reflexivity).
  destruct (exec _ _ _) as [s|] eqn:E; [|discriminate Hv].
  simpl in Hv. injection Hv as Hpc.
  exists s. split; [reflexivity|]. split; [exact Hpc|].
  exact (proj1 (gated_scenarios_are_bounded example_env 5 2 10 0 0 [] empty_world eq_refl)
           [resume_main; resume 0; resume 3] s E).
Defined.

(** X21: for every fan-out size and every gate width that is not
    negative, in every state of the fan-out: every worker span is a child
    of the planner span; there are at most [fanout] worker spans and at
    most [concurrency] of them open; and once the checkpoint span exists
    there are exactly [fanout] worker spans, all of them ended no later
    than the checkpoint span, the last span started, begins. *)
Theorem fanout_workers_end_before_checkpoint (e : env) (concurrency fanout delay_ms : Z)
    (s : gated call_worker) :
  clock_monotone e -> 0 <= concurrency ->
  reachable (fanout_step e concurrency fanout delay_ms) (fanout_init [] empty_world) s ->
  let sps := spans (g_world s) in
  (forall k sp, sps !! k = Some sp -> has_kind "worker" sp = true ->
     span_parent sp = Some 0%nat) /\
  (count (has_kind "worker") sps <= Z.to_nat fanout)%nat /\
  Z.of_nat (count open_worker sps) <= concurrency /\
  (g_pc s = PCheckpoint \/ g_pc s = PReturned ->
     count (has_kind "worker") sps = Z.to_nat fanout /\
     exists ck, last sps = Some ck /\ has_kind "checkpoint" ck = true /\
       forall k sp, sps !! k = Some sp -> has_kind "worker" sp = true ->
         exists t, end_time sp = Some t /\ t <= start_time ck).
Proof.
  intros Hmono Hc Hr sps.
  destruct (fanout_reachable_inv e Hmono concurrency fanout delay_ms [] s Hr) as (I & J & T).
  assert (length (g_tasks s) <= Z.to_nat fanout)%nat as Hlen.
  { destruct (g_pc s) eqn:E.
    1: destruct (fg_not_started _ _ s I E) as [-> _]; simpl; lia.
    5: destruct (fg_raised _ _ s I exc E) as (_ & -> & _); simpl; lia.
    all: destruct (fg_gate _ _ s I) as (_ & -> & _); [congruence|congruence|lia]. }
  split; [apply (fs_parent _ s J)|].
  split.
  { unfold sps. rewrite (fs_workers _ s J).
    pose proof (count_le_length (fun t => is_started (t_state t)) (g_tasks s)).
    unfold count_tasks. lia. }
  split.
  { unfold sps. rewrite (fs_open _ s J).
    destruct (g_pc s) eqn:E.
    1: destruct (fg_not_started _ _ s I E) as [-> _]; unfold count_tasks, count; simpl; lia.
    5: destruct (fg_raised _ _ s I exc E) as (_ & -> & _); unfold count_tasks, count; simpl; lia.
    all: destruct (fg_gate _ _ s I) as (_ & _ & ? & ?); [congruence|congruence|lia]. }
  intros Hpc.
  pose proof (fg_join _ _ s I Hpc) as Hdone.
  destruct (fg_gate _ _ s I) as (_ & Hl & _); [destruct Hpc; congruence|destruct Hpc; congruence|].
  split.
  { unfold sps. by rewrite (fs_workers _ s J), count_tasks_started_done. }
  destruct (fs_last _ s J Hpc) as (ck & Hck & Hk & Hp).
  destruct (ft_order e s T Hpc) as (ck' & Hck' & Hall).
  rewrite Hck in Hck'. inversion Hck'; subst ck'.
  exists ck. done.
Qed.

(** Three workers behind a gate of width one, run to the checkpoint. *)
Abbreviation fanout_serialised :=
  (exec (fanout_step example_env 1 3 10)
     [resume_main; resume 2; resume 2; resume 0; resume 0; resume 1; resume 1; resume_main]
     (fanout_init [] empty_world)).

Lemma fanout_workers_end_before_checkpoint_witness :
  exists s,
    fanout_serialised = Some s /\ g_pc s = PCheckpoint /\
    count (has_kind "worker") (spans (g_world s)) = 3%nat.
Proof.
  assert ((fun s => g_pc s) <$> fanout_serialised = Some PCheckpoint) as Hv
    by (vm_compute; reflexivity).
  destruct (exec _ _ _) as [s|] eqn:E; [|discriminate Hv].
  simpl in Hv. injection Hv as Hpc.
  exists s. split; [reflexivity|]. split; [exact Hpc|].
  refine (proj1 (proj2 (proj2 (proj2
            (fanout_workers_end_before_checkpoint example_env 1 3 10 s
               example_env_monotone _ _))) (or_introl Hpc))); [lia|].
  exact (exec_reachable _ _ _ _ _ (reach_init _ _) E).
Defined.

(** ** What the fan-out asks of the tool service *)


Section FanoutRequests.
Variable e : env.
Variables concurrency fanout delay_ms : Z.







End FanoutRequests.



(** ** A retry storm with nothing to retry *)



Section RetryCalm.
Variable e : env.
Variables fanout concurrency delay_ms : Z.
Variable error_rate : Q.
Variable max_retries : Z.
Hypothesis Hrate : (error_rate <= 0)%Q.




End RetryCalm.


(** Three workers, error rate zero and three retries allowed: every
    worker is done after one call. *)
Abbreviation retry_nothing_to_retry :=
  (exec (retry_step example_env 3 2 10 0 3)
     [resume_main; resume 0; resume 1; resume 0; resume 1; resume 2; resume 2; resume_main]
     (retry_init [] empty_world)).

